(** * CLMS_NetCDF2COG: the COG processing kernel of [cogProcessor.py]

    A shallow embedding of the product-name codec, the attribute
    translators, the safe move and the per-band conversion loop, with the
    properties of the design document stated and settled against it.

    Python values are modelled as follows:
    - [str] as [string]; an optional string ([None] or a [str]) as
      [option string], truthiness being "is a non-empty string";
    - a raising computation as [result], the exception as [exn];
    - [dict]s iterated in insertion order as association lists;
    - the file system as a finite map from paths to files. *)

From Stdlib Require Import ZArith Ascii String List DecimalString.
From stdpp Require Import base option list gmap strings.

Local Open Scope string_scope.
Local Open Scope list_scope.

#[local] Arguments String.append !s1 s2 : simpl nomatch.

(** ** Exceptions and results *)

Inductive exn : Type :=
| IndexError
| KeyError (key : string)
| TypeError
| ValueError (msg : string)
| CalledProcessError (cmd : string)
| FileNotFoundError (path : string)
| SameFileError
| RuntimeError
| UnicodeDecodeError
| OSError (call : nat).

Inductive result (A : Type) : Type :=
| Ok (a : A)
| Raise (e : exn).

Arguments Ok {A} a.
Arguments Raise {A} e.

Global Instance result_ret : MRet result := fun A a => Ok a.

Global Instance result_bind : MBind result := fun A B k r =>
  match r with
  | Ok a => k a
  | Raise e => Raise e
  end.

Definition is_ok {A} (r : result A) : bool :=
  match r with Ok _ => true | Raise _ => false end.

Definition raises {A} (r : result A) : Prop :=
  exists e, r = Raise e.

(** ** Python string and list primitives *)

Module Py.

(** [l[i]] for a non-negative literal index. *)
Definition index {A} (l : list A) (i : nat) : result A :=
  match nth_error l i with
  | Some x => Ok x
  | None => Raise IndexError
  end.

(** Truthiness of an optional string: [None] and [''] are false. *)
Definition truthy (o : option string) : bool :=
  match o with
  | Some (String _ _) => true
  | _ => false
  end.

(** [s.split(sep)] for a one-character separator. *)
Fixpoint split (sep : ascii) (s : string) : list string :=
  match s with
  | EmptyString => [EmptyString]
  | String c s' =>
      if Ascii.eqb c sep then EmptyString :: split sep s'
      else match split sep s' with
           | h :: t => String c h :: t
           | [] => [String c EmptyString]
           end
  end.

(** [sep.join(l)]. *)
Definition join (sep : string) (l : list string) : string :=
  String.concat sep l.

(** [s.rfind(c)] for a one-character pattern, [-1] when absent. *)
Fixpoint rfind (c : ascii) (s : string) : Z :=
  match s with
  | EmptyString => (-1)%Z
  | String a s' =>
      let r := rfind c s' in
      if (0 <=? r)%Z then (r + 1)%Z
      else if Ascii.eqb a c then 0%Z else (-1)%Z
  end.

(** [s[:i]] and [s[i:]] for [0 <= i]. *)
Definition slice_to (s : string) (i : nat) : string :=
  String.substring 0 i s.

Definition slice_from (s : string) (i : nat) : string :=
  String.substring i (String.length s - i) s.

(** [s.replace(old, new)]: the non-overlapping occurrences of [old] are
    replaced from left to right.  [skip] counts the characters of a
    matched occurrence that are still to be dropped. *)
Fixpoint replace_from (skip : nat) (old new s : string) : string :=
  match s with
  | EmptyString => EmptyString
  | String c s' =>
      match skip with
      | S k => replace_from k old new s'
      | O =>
          if String.prefix old s
          then new +:+ replace_from (String.length old - 1) old new s'
          else String c (replace_from 0 old new s')
      end
  end.

(** An empty [old] matches before every character and at the end. *)
Fixpoint intersperse (new s : string) : string :=
  match s with
  | EmptyString => new
  | String c s' => new +:+ String c (intersperse new s')
  end.

Definition replace (old new s : string) : string :=
  match old with
  | EmptyString => intersperse new s
  | _ => replace_from 0 old new s
  end.

(** [str(n)] for an integer. *)
Definition str_int (z : Z) : string :=
  NilZero.string_of_int (Z.to_int z).

(** [b.splitlines()] for bytes: the lines end at [\n], [\r] or [\r\n],
    and the line ends are dropped. *)
Fixpoint splitlines (s : string) : list string :=
  match s with
  | EmptyString => []
  | String c s' =>
      if Ascii.eqb c "010"%char then EmptyString :: splitlines s'
      else if Ascii.eqb c "013"%char then
        match s' with
        | String c' s'' =>
            if Ascii.eqb c' "010"%char then EmptyString :: splitlines s''
            else EmptyString :: splitlines s'
        | EmptyString => [EmptyString]
        end
      else match splitlines s' with
           | h :: t => String c h :: t
           | [] => [String c EmptyString]
           end
  end.

(** The bytes that may follow the first byte [b] of a UTF-8 sequence, as
    ranges; [None] when no sequence starts with [b]. *)
Definition utf8_lead (b : N) : option (list (N * N)) :=
  let cont := (128, 191)%N in
  if (b <? 128)%N then Some []
  else if (b <? 194)%N then None
  else if (b <? 224)%N then Some [cont]
  else if (b =? 224)%N then Some [(160, 191)%N; cont]
  else if (b =? 237)%N then Some [(128, 159)%N; cont]
  else if (b <? 240)%N then Some [cont; cont]
  else if (b =? 240)%N then Some [(144, 191)%N; cont; cont]
  else if (b <? 244)%N then Some [cont; cont; cont]
  else if (b =? 244)%N then Some [(128, 143)%N; cont; cont]
  else None.

(** Does [b.decode('utf-8')] return?  [pending] holds the ranges of the
    bytes still owed to the sequence under way. *)
Fixpoint utf8_from (pending : list (N * N)) (s : string) : bool :=
  match s with
  | EmptyString => match pending with [] => true | _ => false end
  | String c s' =>
      let b := N_of_ascii c in
      match pending with
      | (lo, hi) :: rest => (lo <=? b)%N && (b <=? hi)%N && utf8_from rest s'
      | [] =>
          match utf8_lead b with
          | Some owed => utf8_from owed s'
          | None => false
          end
      end
  end.

Definition utf8_valid (s : string) : bool := utf8_from [] s.

End Py.

(** ** [os.path] (posixpath) *)

Module OsPath.

Definition sep : ascii := "/"%char.
Definition extsep : ascii := "."%char.

(** The [while] loop of [genericpath._splitext]: is there a character that
    is not a dot among the [n] characters of [p] starting at
    [filenameIndex]? *)
Fixpoint has_non_dot (p : string) (filenameIndex n : nat) : bool :=
  match n with
  | O => false
  | S n' =>
      if String.eqb (String.substring filenameIndex 1 p) (String extsep EmptyString)
      then has_non_dot p (S filenameIndex) n'
      else true
  end.

(** [os.path.splitext(p)]: the extension starts at the last dot of the last
    path component, leading dots of that component apart. *)
Definition splitext (p : string) : string * string :=
  let sepIndex := Py.rfind sep p in
  let dotIndex := Py.rfind extsep p in
  if (sepIndex <? dotIndex)%Z then
    let filenameIndex := Z.to_nat (sepIndex + 1) in
    if has_non_dot p filenameIndex (Z.to_nat dotIndex - filenameIndex)
    then (Py.slice_to p (Z.to_nat dotIndex), Py.slice_from p (Z.to_nat dotIndex))
    else (p, EmptyString)
  else (p, EmptyString).

(** [os.path.basename(p)]. *)
Definition basename (p : string) : string :=
  Py.slice_from p (Z.to_nat (Py.rfind sep p + 1)).

Definition endswith_sep (a : string) : bool :=
  match String.length a with
  | O => false
  | S n => String.eqb (String.substring n 1 a) (String sep EmptyString)
  end.

(** [os.path.join(a, b)] for two components. *)
Definition join (a b : string) : string :=
  if String.prefix (String sep EmptyString) b then b
  else if String.eqb a EmptyString || endswith_sep a then a +:+ b
  else a +:+ String sep EmptyString +:+ b.

End OsPath.

(** ** ProductNameCodec *)

(** The dictionary of product-name elements.  [parameter] is [None] until
    the caller sets the key; [subProduct] and [timeIndex] hold Python's
    [None] as [None]. *)
Record ProdDict : Type := mkProdDict {
  project : string;
  product : string;
  productDate : string;
  roi : string;
  sensor : string;
  version : string;
  extention : string;
  subProduct : option string;
  timeIndex : option string;
  parameter : option string
}.

Definition set_parameter (d : ProdDict) (p : string) : ProdDict :=
  {| project := project d; product := product d;
     productDate := productDate d; roi := roi d; sensor := sensor d;
     version := version d; extention := extention d;
     subProduct := subProduct d; timeIndex := timeIndex d;
     parameter := Some p |}.

Definition incompatible (seg : string) (hasTimeIndex : bool) : exn :=
  ValueError ("Incompatible combination of product (" +:+ seg
              +:+ ") and time index ("
              +:+ (if hasTimeIndex then "True" else "False") +:+ ")").

Definition _unpackNetCDFProductName (productname : string) (hasTimeIndex : bool)
  : result ProdDict :=
  let '(_filename, _file_ext) := OsPath.splitext productname in
  let parts := Py.split "_" _filename in
  p2 ← Py.index parts 2;
  let productParts := Py.split "-" p2 in
  pp0 ← Py.index productParts 0;
  p3 ← Py.index parts 3;
  p4 ← Py.index parts 4;
  p5 ← Py.index parts 5;
  p6 ← Py.index parts 6;
  let prodDict sub ti :=
    {| project := Py.join "_" (firstn 2 parts);
       product := pp0;
       productDate := p3; roi := p4; sensor := p5; version := p6;
       extention := _file_ext;
       subProduct := sub; timeIndex := ti; parameter := None |} in
  if (length productParts =? 1)%nat && negb hasTimeIndex then
    Ok (prodDict None None)
  else if (length productParts =? 2)%nat then
    pp1 ← Py.index productParts 1;
    if hasTimeIndex then Ok (prodDict None (Some pp1))
    else Ok (prodDict (Some pp1) None)
  else if (length productParts =? 3)%nat && hasTimeIndex then
    pp1 ← Py.index productParts 1;
    pp2 ← Py.index productParts 2;
    Ok (prodDict (Some pp1) (Some pp2))
  else Raise (incompatible p2 hasTimeIndex).

Definition _packCOGProductName (prodElements : ProdDict) : result string :=
  match parameter prodElements with
  | None => Raise (KeyError "parameter")
  | Some param =>
      let productTag :=
        if Py.truthy (subProduct prodElements)
        then product prodElements +:+ "-" +:+ default "" (subProduct prodElements)
             +:+ "-" +:+ param
        else product prodElements +:+ "-" +:+ param in
      let productTag :=
        if Py.truthy (timeIndex prodElements)
        then productTag +:+ "-" +:+ default "" (timeIndex prodElements)
        else productTag in
      Ok (project prodElements +:+ "_" +:+ productTag +:+ "_"
          +:+ productDate prodElements +:+ "_" +:+ roi prodElements +:+ "_"
          +:+ sensor prodElements +:+ "_" +:+ version prodElements +:+ ".tiff")
  end.

Definition createCogFileName (inFile inBand : string) (outBand : option string)
  (hasTimeIndex : bool) : result string :=
  prodElements ← _unpackNetCDFProductName inFile hasTimeIndex;
  let prodElements :=
    if Py.truthy outBand then set_parameter prodElements (default "" outBand)
    else set_parameter prodElements inBand in
  _packCOGProductName prodElements.

(** ** Attribute values and dictionaries *)

(** An element of a numeric array.  Floating-point elements are carried by
    the text [str] gives for them. *)
Inductive npscalar : Type :=
| NpInt (z : Z)
| NpFloat (repr : string).

Definition str_scalar (x : npscalar) : string :=
  match x with
  | NpInt z => Py.str_int z
  | NpFloat r => r
  end.

(** The values a NetCDF attribute takes: text, a number, a
    [numpy.ndarray], and (for mappings built by hand) a Python [list]. *)
Inductive pyval : Type :=
| VStr (s : string)
| VInt (z : Z)
| VFloat (repr : string)
| VArray (xs : list npscalar)
| VList (xs : list npscalar).

Definition is_ndarray (v : pyval) : bool :=
  match v with VArray _ => true | _ => false end.

(** A [dict] in insertion order. *)
Definition dict : Type := list (string * pyval).

Fixpoint dict_get (k : string) (d : dict) : option pyval :=
  match d with
  | [] => None
  | (k', v) :: d' => if String.eqb k' k then Some v else dict_get k d'
  end.

(** [d[k] = v]: an existing key keeps its place, a new one goes last. *)
Fixpoint dict_set (k : string) (v : pyval) (d : dict) : dict :=
  match d with
  | [] => [(k, v)]
  | (k', v') :: d' =>
      if String.eqb k' k then (k, v) :: d' else (k', v') :: dict_set k v d'
  end.

Definition keys (d : dict) : list string := map fst d.

Record AttributeConversion : Type := mkAttributeConversion {
  history : string;
  listEnclosure : string;
  listSeparator : string;
  removeAttributeLst : list string
}.

Definition __version__ : string := "1.0.0".

Definition newline : string := String "010"%char EmptyString.
Definition dquote : string := String "034"%char EmptyString.

(** ** Files

    A regular file is its bytes and its permission bits; the file system is
    a finite map from paths to files.  Paths are compared as text, and a
    path used for a file is taken not to name a directory. *)

Record file : Type := mkfile {
  content : string;
  mode : N
}.

Abbreviation FS := (gmap string file).

(** ** The environment of the kernel

    What a run depends on and the code does not fix: the system date, the
    text numpy gives an array, the outcome and the output of each external
    command, the way gdal embeds metadata, the mode a new file gets, and
    which system calls fail. *)

Inductive exit : Type :=
| Exit0 (out : string)           (* success: the content of the output file *)
| ExitFail (out : option string) (* non-zero exit, output possibly partial *).

Class Env : Type := mkEnv {
  (** [_today()] *)
  today : string;
  (** [str] of a [numpy.ndarray] *)
  str_ndarray : list npscalar -> string;
  (** the external command line, run on the current files *)
  toolchain : string -> FS -> exit;
  (** the bytes the command writes to its standard output and error *)
  console : string -> FS -> string;
  (** the raster after [SetMetadata]/[SetDescription] *)
  embed_metadata : string -> dict -> dict -> string -> string;
  (** the mode of a newly created file *)
  newfile_mode : N;
  (** [fault n = Some k]: the [n]-th system call of the run fails (a copy
      after [k] bytes, a [makedirs] after [k] parents, any other call
      before it has any effect) *)
  fault : nat -> option nat
}.

Section Kernel.
Context `{E : Env}.

(** What an f-string makes of a value. *)
Definition py_format (v : pyval) : string :=
  match v with
  | VStr s => s
  | VInt z => Py.str_int z
  | VFloat r => r
  | VArray xs => str_ndarray xs
  | VList xs => "[" +:+ Py.join ", " (map str_scalar xs) +:+ "]"
  end.

(** ** AttributeTranslator *)

Definition in_list (key : string) (l : list string) : bool :=
  bool_decide (key ∈ l).

(** The body of the [for] loop of [_convertFileAttributes], over the items
    still to visit. *)
Fixpoint _convertFileAttributes_loop (items attributeDict : dict)
  (conversionDict : AttributeConversion) (filename : string) (metadata : dict)
  : result dict :=
  match items with
  | [] => Ok metadata
  | (key, value) :: items' =>
      let continue := _convertFileAttributes_loop items' attributeDict
                        conversionDict filename in
      if in_list key (removeAttributeLst conversionDict) then continue metadata
      else if String.eqb key "history" then
        let history := history conversionDict in
        let history := Py.replace "<processDateISO>" today history in
        let history := Py.replace "<version>" __version__ history in
        match value with
        | VStr v => continue (dict_set key (VStr (v +:+ newline +:+ history)) metadata)
        | _ => Raise TypeError
        end
      else if String.eqb key "identifier" then
        let id := fst (OsPath.splitext filename) in
        let id := Py.replace "c_gls_" "" id in
        match dict_get "parent_identifier" attributeDict with
        | Some parent =>
            continue (dict_set key (VStr (py_format parent +:+ ":" +:+ id)) metadata)
        | None => Raise (KeyError "parent_identifier")
        end
      else continue (dict_set key value metadata)
  end.

Definition _convertFileAttributes (attributeDict : dict)
  (conversionDict : AttributeConversion) (filename : string) : result dict :=
  _convertFileAttributes_loop attributeDict attributeDict conversionDict filename [].

Definition enclosure_error : exn :=
  ValueError "Attribute conversion parameter listEnclosure must be either two or none characters".

(** The serialization of one array value. *)
Definition serialize_array (conversionDict : AttributeConversion)
  (xs : list npscalar) : result string :=
  let lstStr := Py.join (listSeparator conversionDict) (map str_scalar xs) in
  let enc := listEnclosure conversionDict in
  if (String.length enc =? 2)%nat then
    Ok (String.substring 0 1 enc +:+ lstStr +:+ String.substring 1 1 enc)
  else if negb (String.length enc =? 0)%nat then Raise enclosure_error
  else Ok lstStr.

Fixpoint _convertBandAttributes_loop (items : dict)
  (conversionDict : AttributeConversion) (metadata : dict) : result dict :=
  match items with
  | [] => Ok metadata
  | (key, value) :: items' =>
      if in_list key (removeAttributeLst conversionDict)
      then _convertBandAttributes_loop items' conversionDict metadata
      else match value with
           | VArray xs =>
               lstStr ← serialize_array conversionDict xs;
               _convertBandAttributes_loop items' conversionDict
                 (dict_set key (VStr lstStr) metadata)
           | _ =>
               _convertBandAttributes_loop items' conversionDict
                 (dict_set key value metadata)
           end
  end.

Definition _convertBandAttributes (attributeDict : dict)
  (conversionDict : AttributeConversion) : result dict :=
  _convertBandAttributes_loop attributeDict conversionDict [].

(** ** The world of a run and its monad *)

(** [trace] holds every state the files went through, the latest first: it
    is what a concurrent reader may have observed.  [calls] counts the
    system calls made, [cmds] lists the command lines run, [ran] tells for
    each of them whether it exited with 0 (the log says [Done.]) or not
    (the log says [Failed!]). *)
Record World : Type := mkWorld {
  files : FS;
  dirs : gset string;
  calls : nat;
  trace : list FS;
  cmds : list string;
  ran : list (string * bool)
}.

Definition M (A : Type) : Type := World -> result A * World.

Global Instance M_ret : MRet M := fun A a w => (Ok a, w).

Global Instance M_bind : MBind M := fun A B k m w =>
  match m w with
  | (Ok a, w') => k a w'
  | (Raise e, w') => (Raise e, w')
  end.

Definition lift {A} (r : result A) : M A := fun w => (r, w).

Definition set_files (fs : FS) (w : World) : World :=
  {| files := fs; dirs := dirs w; calls := calls w;
     trace := fs :: trace w; cmds := cmds w; ran := ran w |}.

Definition add_dir (d : string) (w : World) : World :=
  {| files := files w; dirs := {[ d ]} ∪ dirs w; calls := calls w;
     trace := trace w; cmds := cmds w; ran := ran w |}.

(** The directories of [l] made one after the other. *)
Definition add_dirs (l : list string) (w : World) : World :=
  foldl (fun w d => add_dir d w) w l.

Definition tick (w : World) : World :=
  {| files := files w; dirs := dirs w; calls := S (calls w);
     trace := trace w; cmds := cmds w; ran := ran w |}.

Definition log_cmd (cmd : string) (w : World) : World :=
  {| files := files w; dirs := dirs w; calls := calls w;
     trace := trace w; cmds := cmds w ++ [cmd]; ran := ran w |}.

Definition log_exit (cmd : string) (zero : bool) (w : World) : World :=
  {| files := files w; dirs := dirs w; calls := calls w;
     trace := trace w; cmds := cmds w; ran := ran w ++ [(cmd, zero)] |}.

(** A system call that either fails as the environment says, with no
    effect, or acts. *)
Definition syscall {A} (act : M A) : M A := fun w =>
  match fault (calls w) with
  | Some _ => (Raise (OSError (calls w)), tick w)
  | None => act (tick w)
  end.

(** *** [os], [shutil], [time] *)

Definition os_path_isfile (p : string) : M bool := fun w =>
  (Ok (bool_decide (is_Some (files w !! p))), w).

Definition os_path_isdir (d : string) : M bool := fun w =>
  (Ok (bool_decide (d ∈ dirs w)), w).

Definition os_remove (p : string) : M unit :=
  syscall (fun w =>
    match files w !! p with
    | Some _ => (Ok tt, set_files (delete p (files w)) w)
    | None => (Raise (FileNotFoundError p), w)
    end).

Definition os_rename (a b : string) : M unit :=
  syscall (fun w =>
    match files w !! a with
    | Some f => (Ok tt, set_files (<[b := f]> (delete a (files w))) w)
    | None => (Raise (FileNotFoundError a), w)
    end).

Definition os_chmod (p : string) (m : N) : M unit :=
  syscall (fun w =>
    match files w !! p with
    | Some f => (Ok tt, set_files (<[p := mkfile (content f) m]> (files w)) w)
    | None => (Raise (FileNotFoundError p), w)
    end).

(** The proper ancestors of a path, the topmost first: the prefixes that
    end before a separator, the root and the empty prefix apart.  [acc] is
    the part of the path already read. *)
Fixpoint ancestors_from (acc s : string) : list string :=
  match s with
  | EmptyString => []
  | String c s' =>
      let rest := ancestors_from (acc +:+ String c EmptyString) s' in
      if Ascii.eqb c OsPath.sep && negb (String.eqb acc EmptyString)
         && negb (OsPath.endswith_sep acc)
      then acc :: rest else rest
  end.

Definition ancestors (d : string) : list string := ancestors_from EmptyString d.

(** The ancestors [os.makedirs] has to make, the nearest first: it climbs
    until it meets a path that exists. *)
Fixpoint climb (there : string -> bool) (nearest_first : list string) : list string :=
  match nearest_first with
  | [] => []
  | a :: up => if there a then [] else a :: climb there up
  end.

Definition missing_parents (d : string) (w : World) : list string :=
  let there p := bool_decide (p ∈ dirs w) || bool_decide (is_Some (files w !! p)) in
  rev (climb there (rev (ancestors d))).

(** [os.makedirs(d, mode, exist_ok=True)] for a path in normal form: the
    missing parents are made from the top down, then the directory itself.
    A call that fails has made the first [k] of the parents.  The mode of a
    directory is not tracked. *)
Definition os_makedirs (d : string) (m : N) : M unit := fun w =>
  let parents := missing_parents d w in
  match fault (calls w) with
  | Some k => (Raise (OSError (calls w)), add_dirs (firstn k parents) (tick w))
  | None => (Ok tt, add_dirs (parents ++ [d]) (tick w))
  end.

Definition time_sleep : M unit := mret tt.

(** A file written from its first byte on: it is created (or truncated),
    then grows to its first [j] bytes, every step visible. *)
Fixpoint write_chunks (dst c : string) (m : N) (j : nat) (w : World) : World :=
  match j with
  | O => set_files (<[dst := mkfile EmptyString m]> (files w)) w
  | S j' =>
      let w' := write_chunks dst c m j' w in
      set_files (<[dst := mkfile (Py.slice_to c (S j')) m]> (files w')) w'
  end.

(** [shutil.copy(src, dst)]: the bytes, then the permission bits. *)
Definition shutil_copy (src dst : string) : M unit := fun w =>
  let n := calls w in
  let w := tick w in
  match files w !! src with
  | None => (Raise (FileNotFoundError src), w)
  | Some f =>
      if bool_decide (src = dst) then (Raise SameFileError, w)
      else
        let m := from_option mode newfile_mode (files w !! dst) in
        match fault n with
        | Some k =>
            (Raise (OSError n),
             write_chunks dst (content f) m (Nat.min k (String.length (content f))) w)
        | None =>
            let w := write_chunks dst (content f) m (String.length (content f)) w in
            (Ok tt, set_files (<[dst := mkfile (content f) (mode f)]> (files w)) w)
        end
  end.

(** *** SafeFilesystemOps *)

(** [_safeMakeDirs], [n] being the attempts left after the current one.
    (With [attempts <= 0] the source retries for ever; it is called with
    the default [3] only.) *)
Fixpoint _safeMakeDirs_retry (n : nat) (directory : string) (mode : N) : M unit :=
  fun w =>
    match os_makedirs directory mode w with
    | (Ok tt, w') => (Ok tt, w')
    | (Raise e, w') =>
        match n with
        | O => (Raise e, w')
        | S n' =>
            (_ ← time_sleep;
             created ← os_path_isdir directory;
             if created : bool then mret tt
             else _safeMakeDirs_retry n' directory mode) w'
        end
    end.

Definition _safeMakeDirs (directory : string) (mode : N) (attempts : nat) : M unit :=
  _safeMakeDirs_retry (attempts - 1) directory mode.

Definition _safeMove (src dst : string) (mod_ : N) : M unit :=
  let tmpFile := dst +:+ ".temp" in
  stale ← os_path_isfile tmpFile;
  _ ← (if stale : bool then os_remove tmpFile else mret tt);
  _ ← shutil_copy src tmpFile;
  present ← os_path_isfile dst;
  _ ← (if present : bool then os_remove dst else mret tt);
  _ ← os_rename tmpFile dst;
  _ ← os_chmod dst mod_;
  os_remove src.

(** *** The external toolchain and gdal *)

Definition write_file (p out : string) (fs : FS) : FS :=
  <[p := mkfile out (from_option mode newfile_mode (fs !! p))]> fs.

(** The loops that log the output of a command: every line of it is
    decoded, and the first that is not UTF-8 raises. *)
Definition decode_output (output : string) : result unit :=
  if forallb Py.utf8_valid (Py.splitlines output) then Ok tt
  else Raise UnicodeDecodeError.

(** [_runShellCmd(cmd, logger)].  [target] is the file the command line
    names as its output: the shell itself is not modelled, the command
    writes that file and no other.  The output of the command is logged
    line by line, before the [CalledProcessError] of a command that failed
    is raised again. *)
Definition _runShellCmd (cmd target : string) : M unit := fun w =>
  let output := console cmd (files w) in
  let w' := log_cmd cmd w in
  match toolchain cmd (files w) with
  | Exit0 out =>
      (decode_output output,
       set_files (write_file target out (files w)) (log_exit cmd true w'))
  | ExitFail (Some out) =>
      (_ ← decode_output output; Raise (CalledProcessError cmd),
       set_files (write_file target out (files w)) (log_exit cmd false w'))
  | ExitFail None =>
      (_ ← decode_output output; Raise (CalledProcessError cmd),
       log_exit cmd false w')
  end.

(** [gdal.Open(tiffFile, GA_Update)], the three setters and the close. *)
Definition gdal_set_metadata (tiffFile : string) (metadataDict bandMetadataDict : dict)
  (description : string) : M unit :=
  syscall (fun w =>
    match files w !! tiffFile with
    | Some f =>
        let out := embed_metadata (content f) metadataDict bandMetadataDict description in
        (Ok tt, set_files (<[tiffFile := mkfile out (mode f)]> (files w)) w)
    | None => (Raise RuntimeError, w)
    end).

(** ** ConversionPipeline *)

(** A band request.  Its four keys are taken to be there ([outBand] may
    hold [None]); its [attributes] are joined to it by
    [attach_attributes]. *)
Record BandInfo : Type := mkBandInfo {
  inBand : string;
  outBand : option string;
  resampleMethod : string;
  description : string
}.

Record CogCfg : Type := mkCogCfg {
  tmpFolder : string;
  outFolder : string;
  inFile : string;
  hasTimeIndex : bool;
  overwriteExistingFiles : bool;
  compressionMethod : string;
  cogOverviews : list Z;
  blockSize : Z;
  attributeConversion : AttributeConversion;
  bandInfoList : list BandInfo
}.

(** What [nc.Dataset(inFile, 'r')] gives: the global attributes and the
    variables with theirs. *)
Record Dataset : Type := mkDataset {
  ncattrs : dict;
  variables : list (string * dict)
}.

Fixpoint variable_attributes (name : string) (vars : list (string * dict))
  : option dict :=
  match vars with
  | [] => None
  | (k, d) :: vars' =>
      if String.eqb k name then Some d else variable_attributes name vars'
  end.

Definition repr_list (l : list string) : string :=
  "[" +:+ Py.join ", " (map (fun s => "'" +:+ s +:+ "'") l) +:+ "]".

(** The check that the file has all the bands to convert; each band request
    gets the attributes of its variable. *)
Fixpoint attach_attributes (cogCfgDict : CogCfg) (src : Dataset)
  (bands : list BandInfo) : result (list (BandInfo * dict)) :=
  match bands with
  | [] => Ok []
  | bandInfo :: bands' =>
      match variable_attributes (inBand bandInfo) (variables src) with
      | Some attributes =>
          rest ← attach_attributes cogCfgDict src bands';
          Ok ((bandInfo, attributes) :: rest)
      | None =>
          Raise (ValueError (inBand bandInfo +:+ " not found in "
                             +:+ inFile cogCfgDict +:+ ":"
                             +:+ repr_list (map fst (variables src))))
      end
  end.

(** The terminal state of a band that did not fail: the loop [continue]s
    on an existing output, or reaches the move. *)
Inductive outcome : Type := Skipped | Published.

Global Instance outcome_eq_dec : EqDecision outcome.
Proof. solve_decision. Defined.

(** The paths of a band, from the name of its output file. *)
Definition cogPath_of (cogCfgDict : CogCfg) (cogFile : string) : string :=
  OsPath.join (outFolder cogCfgDict) cogFile.

Definition tempBasePath_of (cogCfgDict : CogCfg) (cogFile : string) : string :=
  OsPath.join (tmpFolder cogCfgDict) (fst (OsPath.splitext cogFile)).

Definition tiffFile_of (cogCfgDict : CogCfg) (cogFile : string) : string :=
  tempBasePath_of cogCfgDict cogFile +:+ "_base.tiff".

Definition cogTmpFile_of (cogCfgDict : CogCfg) (cogFile : string) : string :=
  tempBasePath_of cogCfgDict cogFile +:+ ".tmp.tiff".

Definition cogFile_of (cogCfgDict : CogCfg) (bandInfo : BandInfo) : result string :=
  createCogFileName (OsPath.basename (inFile cogCfgDict)) (inBand bandInfo)
    (outBand bandInfo) (hasTimeIndex cogCfgDict).

(** The command lines. *)
Definition cmd_base (cogCfgDict : CogCfg) (bandInfo : BandInfo) (tiffFile : string)
  : string :=
  let srcPath := "NETCDF:" +:+ dquote +:+ inFile cogCfgDict +:+ dquote +:+ ":"
                 +:+ inBand bandInfo in
  "gdal_translate -of GTIFF " +:+ srcPath +:+ " " +:+ tiffFile.

Definition cmd_clean (tiffFile : string) : string :=
  "gdaladdo -clean  " +:+ tiffFile.

Definition cmd_overviews (cogCfgDict : CogCfg) (bandInfo : BandInfo)
  (tiffFile : string) : string :=
  let overviewStr := Py.join " " (map Py.str_int (cogOverviews cogCfgDict)) in
  "gdaladdo -ro --config GDAL_TIFF_OVR_BLOCKSIZE "
  +:+ Py.str_int (blockSize cogCfgDict)
  +:+ " --config COMPRESS_OVERVIEW " +:+ compressionMethod cogCfgDict
  +:+ " -r " +:+ resampleMethod bandInfo +:+ " " +:+ tiffFile +:+ " " +:+ overviewStr.

Definition cmd_cog (cogCfgDict : CogCfg) (tiffFile cogTmpFile : string) : string :=
  "gdal_translate -of COG "
  +:+ "-co COMPRESS=" +:+ compressionMethod cogCfgDict +:+ " "
  +:+ "-co PREDICTOR=YES "
  +:+ "--config GDAL_TIFF_OVR_BLOCKSIZE " +:+ Py.str_int (blockSize cogCfgDict) +:+ " "
  +:+ tiffFile +:+ " " +:+ cogTmpFile.

Definition nonempty {A} (l : list A) : bool :=
  match l with [] => false | _ => true end.

(** One turn of the [for] loop over the bands.  [tempFileList] is threaded
    through; the result tells how the turn ended. *)
Definition processBand (cogCfgDict : CogCfg) (attributeDict : dict)
  (band : BandInfo * dict) (tempFileList : list string)
  : M (outcome * list string) :=
  let '(bandInfo, attributes) := band in
  cogFile ← lift (cogFile_of cogCfgDict bandInfo);
  let cogPath := cogPath_of cogCfgDict cogFile in
  let tempBasePath := tempBasePath_of cogCfgDict cogFile in
  present ← os_path_isfile cogPath;
  if negb (overwriteExistingFiles cogCfgDict) && present then
    mret (Skipped, tempFileList)
  else
    let tiffFile := tempBasePath +:+ "_base.tiff" in
    let tempFileList := tempFileList ++ [tiffFile] in
    _ ← _runShellCmd (cmd_base cogCfgDict bandInfo tiffFile) tiffFile;
    tempFileList ←
      (if nonempty (cogOverviews cogCfgDict) then
         _ ← _runShellCmd (cmd_clean tiffFile) tiffFile;
         _ ← _runShellCmd (cmd_overviews cogCfgDict bandInfo tiffFile)
               (tiffFile +:+ ".ovr");
         mret (tempFileList ++ [tiffFile +:+ ".ovr"])
       else mret tempFileList);
    metadataDict ← lift (_convertFileAttributes attributeDict
                           (attributeConversion cogCfgDict) cogFile);
    bandMetadataDict ← lift (_convertBandAttributes attributes
                               (attributeConversion cogCfgDict));
    _ ← gdal_set_metadata tiffFile metadataDict bandMetadataDict
          (description bandInfo);
    let cogTmpFile := tempBasePath +:+ ".tmp.tiff" in
    _ ← _runShellCmd (cmd_cog cogCfgDict tiffFile cogTmpFile) cogTmpFile;
    _ ← _safeMove cogTmpFile cogPath 420;
    mret (Published, tempFileList).

Fixpoint bandLoop (cogCfgDict : CogCfg) (attributeDict : dict)
  (bands : list (BandInfo * dict)) (tempFileList : list string)
  : M (list outcome * list string) :=
  match bands with
  | [] => mret ([], tempFileList)
  | band :: bands' =>
      '(o, tempFileList) ← processBand cogCfgDict attributeDict band tempFileList;
      '(os, tempFileList) ← bandLoop cogCfgDict attributeDict bands' tempFileList;
      mret (o :: os, tempFileList)
  end.

(** The last [for] loop: [os.remove] on every recorded temporary file. *)
Fixpoint removeTempFiles (tempFileList : list string) : M unit :=
  match tempFileList with
  | [] => mret tt
  | tempFile :: rest => _ ← os_remove tempFile; removeTempFiles rest
  end.

Definition ensureFolder (folder : string) : M unit :=
  isdir ← os_path_isdir folder;
  if isdir : bool then mret tt else _safeMakeDirs folder 509 3.

(** [cogProcessor(cogCfgDict, logger)], [src] being the open input file.
    The logger is left out; the value returned is the outcome of every
    band, in order. *)
Definition cogProcessor (cogCfgDict : CogCfg) (src : Dataset) : M (list outcome) :=
  _ ← ensureFolder (outFolder cogCfgDict);
  _ ← ensureFolder (tmpFolder cogCfgDict);
  let attributeDict := ncattrs src in
  bands ← lift (attach_attributes cogCfgDict src (bandInfoList cogCfgDict));
  '(outcomes, tempFileList) ← bandLoop cogCfgDict attributeDict bands [];
  _ ← removeTempFiles tempFileList;
  mret outcomes.

End Kernel.

(** ** The design document's reading of the codec

    The definitions below follow the words of the design document; the
    theorems compare them with the code above. *)

Definition stem_parts (name : string) : list string :=
  Py.split "_" (fst (OsPath.splitext name)).

Definition hyphen_parts (name : string) : list string :=
  Py.split "-" (nth 2 (stem_parts name) EmptyString).

(** The table of Parse: the accepted part counts. *)
Definition table_ok (nparts : nat) (hasTimeIndex : bool) : bool :=
  match nparts, hasTimeIndex with
  | 1, false => true
  | 2, _ => true
  | 3, true => true
  | _, _ => false
  end.

(** The table of Parse: ([subProduct], [timeIndex]) of an accepted row. *)
Definition table_elements (parts : list string) (hasTimeIndex : bool)
  : option string * option string :=
  match parts, hasTimeIndex with
  | [_; p1], true => (None, Some p1)
  | [_; p1], false => (Some p1, None)
  | [_; p1; p2], true => (Some p1, Some p2)
  | _, _ => (None, None)
  end.

(** Parse rejects, as the document has it: not exactly 7 segments, or a row
    outside the table. *)
Definition spec_rejects (name : string) (hasTimeIndex : bool) : bool :=
  negb (length (stem_parts name) =? 7)%nat
  || negb (table_ok (length (hyphen_parts name)) hasTimeIndex).

(** A bracketed part of the product tag. *)
Definition tag_part (o : option string) : string :=
  if Py.truthy o then "-" +:+ default "" o else "".

Definition set_extention (d : ProdDict) (ext : string) : ProdDict :=
  {| project := project d; product := product d;
     productDate := productDate d; roi := roi d; sensor := sensor d;
     version := version d; extention := ext;
     subProduct := subProduct d; timeIndex := timeIndex d;
     parameter := parameter d |}.

(** The hyphen parts of the output name: the band goes after the product
    and the sub-product, before the time index. *)
Definition with_band (parts : list string) (band : string) (hasTimeIndex : bool)
  : list string :=
  if hasTimeIndex then List.removelast parts ++ [band; List.last parts EmptyString]
  else parts ++ [band].

(** Two names that differ in their extension only. *)
Definition same_stem (a b : string) : Prop :=
  fst (OsPath.splitext a) = fst (OsPath.splitext b).



Definition is_str (v : pyval) : bool :=
  match v with VStr _ => true | _ => false end.

(** Every [history] attribute that is converted is text. *)
Definition history_ok (attributeDict : dict) (conversionDict : AttributeConversion)
  : bool :=
  forallb (fun kv => negb (String.eqb (fst kv) "history")
                     || in_list (fst kv) (removeAttributeLst conversionDict)
                     || is_str (snd kv)) attributeDict.

(** The identifier written for a converted [identifier] attribute. *)
Definition derived_identifier `{E : Env} (parent : pyval) (filename : string) : string :=
  py_format parent +:+ ":" +:+ Py.replace "c_gls_" "" (fst (OsPath.splitext filename)).

(** What the translation makes of one value. *)
Definition band_value (conversionDict : AttributeConversion) (v : pyval)
  : result pyval :=
  match v with
  | VArray xs => lstStr ← serialize_array conversionDict xs; Ok (VStr lstStr)
  | _ => Ok v
  end.



(** ** Sample inputs *)

(** An environment in which every command succeeds and no system call
    fails. *)
Definition env_fine : Env :=
  {| today := "2024-09-04";
     str_ndarray := fun xs => "[" +:+ Py.join " " (map str_scalar xs) +:+ "]";
     toolchain := fun cmd _ => Exit0 ("raster of " +:+ cmd);
     console := fun cmd _ => "Input file size is 120960, 47040" +:+ newline
                             +:+ "0...10...20...30...40...50...60...70...80...90...100 - done."
                             +:+ newline;
     embed_metadata := fun raster _ _ desc => raster +:+ " with metadata " +:+ desc;
     newfile_mode := 436%N;
     fault := fun _ => None |}.

Definition conv_with (enclosure : string) : AttributeConversion :=
  {| history := "Converted to COG on <processDateISO> by v<version>";
     listEnclosure := enclosure;
     listSeparator := ",";
     removeAttributeLst := ["_FillValue"] |}.

Definition attrs_flags : dict :=
  [("long_name", VStr "Quality flags");
   ("flag_values", VArray [NpInt 1; NpInt 2; NpInt 3]);
   ("_FillValue", VInt 255)].

Definition attrs_scalars : dict :=
  [("long_name", VStr "NDVI");
   ("valid_range", VList [NpInt 0; NpInt 250]);
   ("scale_factor", VFloat "0.004")].

Definition attrs_file : dict :=
  [("title", VStr "NDVI 300m");
   ("history", VStr "2024-04-12 Processing line NDVI300");
   ("parent_identifier", VStr "urn:cgls:global:ndvi300_v2_333m");
   ("identifier", VStr "urn:cgls:global:ndvi300_v2_333m:NDVI300_202404010000_GLOBE_OLCI_V2.0.1")].


(** ** What a step leaves alone

    [touches T w w']: between [w] and [w'] the files went through states
    that agree with [w] on every path outside [T], and no directory was
    lost. *)
Definition touches (T : list string) (w w' : World) : Prop :=
  (forall q, q ∉ T -> files w' !! q = files w !! q)
  /\ (exists new, trace w' = new ++ trace w
       /\ Forall (fun fs : FS => forall q, q ∉ T -> fs !! q = files w !! q) new)
  /\ dirs w ⊆ dirs w'.

Definition M_touches `{E : Env} {A} (T : list string) (m : M A) : Prop :=
  forall w r w', m w = (r, w') -> touches T w w'.

(** ** Failures of the external commands

    [ran] records every command with its exit.  A run from [w] to [w'] with
    result [r] has swallowed no failure when the commands it ran all exited
    with 0, or all but the last did, nothing was run after that one, and
    [r] is the error raised for it: its [CalledProcessError], or the
    [UnicodeDecodeError] of the logging of its output. *)
Definition exited_zero (x : exit) : bool :=
  match x with Exit0 _ => true | ExitFail _ => false end.

Definition no_failure_swallowed {A} (w : World) (r : result A) (w' : World) : Prop :=
  exists l,
    ran w' = ran w ++ l
    /\ cmds w' = cmds w ++ map fst l
    /\ (Forall (fun c : string * bool => snd c = true) l
        \/ exists l0 cmd e,
             l = l0 ++ [(cmd, false)]
             /\ Forall (fun c : string * bool => snd c = true) l0
             /\ r = Raise e
             /\ (e = CalledProcessError cmd \/ e = UnicodeDecodeError)).

Definition M_strict {A} (m : M A) : Prop :=
  forall w r w', m w = (r, w') -> no_failure_swallowed w r w'.

(** A computation that runs no command. *)
Definition M_still {A} (m : M A) : Prop :=
  forall w r w', m w = (r, w') -> ran w' = ran w /\ cmds w' = cmds w.

(** An environment whose toolchain fails on the cleaning of the overviews
    only. *)
Definition env_clean_fails : Env :=
  {| today := today (Env := env_fine);
     str_ndarray := str_ndarray (Env := env_fine);
     toolchain := fun cmd _ =>
       if String.prefix "gdaladdo -clean" cmd
       then ExitFail None else Exit0 ("raster of " +:+ cmd);
     console := console (Env := env_fine);
     embed_metadata := embed_metadata (Env := env_fine);
     newfile_mode := newfile_mode (Env := env_fine);
     fault := fun _ => None |}.

(** An environment whose commands succeed and print a byte that is not
    UTF-8. *)
Definition env_garbled : Env :=
  {| today := today (Env := env_fine);
     str_ndarray := str_ndarray (Env := env_fine);
     toolchain := toolchain (Env := env_fine);
     console := fun _ _ => "done " +:+ String "255"%char EmptyString +:+ newline;
     embed_metadata := embed_metadata (Env := env_fine);
     newfile_mode := newfile_mode (Env := env_fine);
     fault := fun _ => None |}.

(** ** The two halves of [_safeMove]

    The statements up to and including the copy, and those after it. *)
Definition safeMove_copy `{E : Env} (src dst : string) : M unit :=
  let tmpFile := dst +:+ ".temp" in
  stale ← os_path_isfile tmpFile;
  _ ← (if stale : bool then os_remove tmpFile else mret tt);
  shutil_copy src tmpFile.

Definition safeMove_publish `{E : Env} (src dst : string) (mod_ : N) : M unit :=
  let tmpFile := dst +:+ ".temp" in
  present ← os_path_isfile dst;
  _ ← (if present : bool then os_remove dst else mret tt);
  _ ← os_rename tmpFile dst;
  _ ← os_chmod dst mod_;
  os_remove src.

(** What a reader of [p] saw through a run, the latest first. *)
Definition observed (p : string) (w : World) : list (option file) :=
  map (fun fs : FS => fs !! p) (trace w).

(** What a reader of [dst] may see, by the document: the file as it was
    before the call, or the whole new content. *)
Definition prior_or_new (w0 : World) (src dst : string) (seen : option file) : Prop :=
  seen = files w0 !! dst
  \/ exists f, files w0 !! src = Some f /\ content <$> seen = Some (content f).

(** What a reader of [dst] may see, by the code: also no file at all. *)
Definition prior_absent_or_new (w0 : World) (src dst : string)
  (seen : option file) : Prop :=
  seen = None \/ prior_or_new w0 src dst seen.

(** What a reader of [dst] may see once [dst.temp] holds [ftmp]. *)
Definition seen_from (dst : string) (ftmp : file) (w : World) (fs : FS) : Prop :=
  fs !! dst = files w !! dst \/ fs !! dst = None
  \/ content <$> (fs !! dst) = Some (content ftmp).

Definition world_of (fs : FS) : World :=
  {| files := fs; dirs := ∅; calls := 0; trace := []; cmds := []; ran := [] |}.

(** An environment in which the system call number [n] fails. *)
Definition env_fault_at (n : nat) : Env :=
  {| today := today (Env := env_fine);
     str_ndarray := str_ndarray (Env := env_fine);
     toolchain := toolchain (Env := env_fine);
     console := console (Env := env_fine);
     embed_metadata := embed_metadata (Env := env_fine);
     newfile_mode := newfile_mode (Env := env_fine);
     fault := fun k => if (k =? n)%nat then Some 0 else None |}.

Definition fs_old_new : FS :=
  <["tmp/x.tmp.tiff" := mkfile "NEW RASTER" 436]>
    (<["out/x.tiff" := mkfile "OLD RASTER" 420]> ∅).

(** The two folder checks that open [cogProcessor]. *)
Definition prelude `{E : Env} (cogCfgDict : CogCfg) : M unit :=
  _ ← ensureFolder (outFolder cogCfgDict);
  ensureFolder (tmpFolder cogCfgDict).

(** The temporary files a band that was published has recorded. *)
Definition recorded_temps (cogCfgDict : CogCfg) (cogFile : string) : list string :=
  tiffFile_of cogCfgDict cogFile
  :: (if nonempty (cogOverviews cogCfgDict)
      then [tiffFile_of cogCfgDict cogFile +:+ ".ovr"] else []).

(** ** The paths of a job *)

Definition with_bands (cogCfgDict : CogCfg) (bands : list BandInfo) : CogCfg :=
  {| tmpFolder := tmpFolder cogCfgDict; outFolder := outFolder cogCfgDict;
     inFile := inFile cogCfgDict; hasTimeIndex := hasTimeIndex cogCfgDict;
     overwriteExistingFiles := overwriteExistingFiles cogCfgDict;
     compressionMethod := compressionMethod cogCfgDict;
     cogOverviews := cogOverviews cogCfgDict; blockSize := blockSize cogCfgDict;
     attributeConversion := attributeConversion cogCfgDict;
     bandInfoList := bands |}.

(** The temporary paths a band works on: the base raster, its overviews,
    the encoded raster and the copy made by the move. *)
Definition temp_paths (cogCfgDict : CogCfg) (cogFile : string) : list string :=
  [tiffFile_of cogCfgDict cogFile;
   tiffFile_of cogCfgDict cogFile +:+ ".ovr";
   cogTmpFile_of cogCfgDict cogFile;
   cogPath_of cogCfgDict cogFile +:+ ".temp"].

Definition band_output (cogCfgDict : CogCfg) (bandInfo : BandInfo) : list string :=
  match cogFile_of cogCfgDict bandInfo with
  | Ok cogFile => [cogPath_of cogCfgDict cogFile]
  | Raise _ => []
  end.

Definition band_temps (cogCfgDict : CogCfg) (bandInfo : BandInfo) : list string :=
  match cogFile_of cogCfgDict bandInfo with
  | Ok cogFile => temp_paths cogCfgDict cogFile
  | Raise _ => []
  end.

Definition job_outputs (cogCfgDict : CogCfg) : list string :=
  flat_map (band_output cogCfgDict) (bandInfoList cogCfgDict).

Definition job_temps (cogCfgDict : CogCfg) : list string :=
  flat_map (band_temps cogCfgDict) (bandInfoList cogCfgDict).

(** No output path of the job is one of its temporary paths. *)
Definition separated (cogCfgDict : CogCfg) : bool :=
  forallb (fun p => negb (in_list p (job_temps cogCfgDict))) (job_outputs cogCfgDict).

(** Was the extraction of a band attempted in a run that ended in [w]? *)
Definition band_attempted (cogCfgDict : CogCfg) (bandInfo : BandInfo) (w : World)
  : bool :=
  match cogFile_of cogCfgDict bandInfo with
  | Ok cogFile =>
      in_list (cmd_base cogCfgDict bandInfo (tiffFile_of cogCfgDict cogFile)) (cmds w)
  | Raise _ => false
  end.

(** An environment whose toolchain fails on every command. *)
Definition env_broken : Env :=
  {| today := today (Env := env_fine);
     str_ndarray := str_ndarray (Env := env_fine);
     toolchain := fun _ _ => ExitFail None;
     console := fun _ _ => "ERROR 4: No such file or directory" +:+ newline;
     embed_metadata := embed_metadata (Env := env_fine);
     newfile_mode := newfile_mode (Env := env_fine);
     fault := fun _ => None |}.

(** An environment whose toolchain extracts the base raster and fails on
    everything else. *)
Definition env_encode_fails : Env :=
  {| today := today (Env := env_fine);
     str_ndarray := str_ndarray (Env := env_fine);
     toolchain := fun cmd _ =>
       if String.prefix "gdal_translate -of GTIFF " cmd
       then Exit0 "BASE RASTER" else ExitFail None;
     console := console (Env := env_fine);
     embed_metadata := embed_metadata (Env := env_fine);
     newfile_mode := newfile_mode (Env := env_fine);
     fault := fun _ => None |}.

Definition band_ndvi : BandInfo :=
  {| inBand := "NDVI"; outBand := None; resampleMethod := "average";
     description := "Normalized Difference Vegetation Index" |}.

Definition band_unc : BandInfo :=
  {| inBand := "NDVI_unc"; outBand := Some "UNC"; resampleMethod := "nearest";
     description := "Uncertainty" |}.

Definition cfg_ndvi (bands : list BandInfo) : CogCfg :=
  {| tmpFolder := "/tmp/cog"; outFolder := "/data/cog";
     inFile := "/data/in/c_gls_NDVI300_202404010000_GLOBE_OLCI_V2.0.1.nc";
     hasTimeIndex := false; overwriteExistingFiles := false;
     compressionMethod := "DEFLATE"; cogOverviews := [2; 4; 8]%Z;
     blockSize := 512; attributeConversion := conv_with "{}";
     bandInfoList := bands |}.

Definition src_ndvi : Dataset :=
  {| ncattrs := attrs_file;
     variables := [("lon", []); ("lat", []); ("NDVI", attrs_flags);
                   ("NDVI_unc", attrs_scalars)] |}.

(** A job whose temporary folder is its output folder and whose names make
    the base raster of the second band the output of the first. *)
Definition cfg_clash : CogCfg :=
  {| tmpFolder := "d"; outFolder := "d";
     inFile := "/in/c_gls_P_base_base_base_base.nc";
     hasTimeIndex := false; overwriteExistingFiles := false;
     compressionMethod := "DEFLATE"; cogOverviews := [];
     blockSize := 512; attributeConversion := conv_with "{}";
     bandInfoList :=
       [ {| inBand := "A"; outBand := Some "X_base"; resampleMethod := "average";
            description := "first" |};
         {| inBand := "B"; outBand := Some "X"; resampleMethod := "average";
            description := "second" |} ] |}.

Definition src_clash : Dataset :=
  {| ncattrs := [("title", VStr "P")]; variables := [("A", []); ("B", [])] |}.
(** ** Further readings of the code *)

(** Is a key converted, that is, not on the removal list? *)
Definition converted (conversionDict : AttributeConversion) (key : string) : bool :=
  negb (in_list key (removeAttributeLst conversionDict)).

(** The line appended to [history]. *)
Definition history_line `{E : Env} (conversionDict : AttributeConversion) : string :=
  Py.replace "<version>" __version__
    (Py.replace "<processDateISO>" today (history conversionDict)).

(** Every [identifier] attribute that is converted finds
    [parent_identifier] in the input mapping. *)
Definition identifier_ok (items attributeDict : dict)
  (conversionDict : AttributeConversion) : bool :=
  forallb (fun kv => negb (String.eqb (fst kv) "identifier")
                     || in_list (fst kv) (removeAttributeLst conversionDict)
                     || bool_decide (is_Some (dict_get "parent_identifier" attributeDict)))
          items.

(** What [_convertFileAttributes] writes for a converted key. *)
Definition file_value `{E : Env} (attributeDict : dict)
  (conversionDict : AttributeConversion) (filename key : string) (value : pyval)
  : pyval :=
  if String.eqb key "history" then
    match value with
    | VStr v => VStr (v +:+ newline +:+ history_line conversionDict)
    | _ => value
    end
  else if String.eqb key "identifier" then
    match dict_get "parent_identifier" attributeDict with
    | Some parent => VStr (derived_identifier parent filename)
    | None => value
    end
  else value.

Definition file_item `{E : Env} (attributeDict : dict)
  (conversionDict : AttributeConversion) (filename : string)
  (kv : string * pyval) : string * pyval :=
  (fst kv, file_value attributeDict conversionDict filename (fst kv) (snd kv)).

Definition converted_item (conversionDict : AttributeConversion)
  (kv : string * pyval) : bool :=
  converted conversionDict (fst kv).

(** No system call fails. *)
Definition fault_free `{E : Env} : Prop := forall n, fault n = None.

(** A step that runs no command. *)
Definition M_quiet `{E : Env} {A} (m : M A) : Prop :=
  forall w r w', m w = (r, w') -> cmds w' = cmds w.

(** The commands of a band that is published, in the order they are run. *)
Definition band_commands (cogCfgDict : CogCfg) (bandInfo : BandInfo)
  (cogFile : string) : list string :=
  let tiffFile := tiffFile_of cogCfgDict cogFile in
  [cmd_base cogCfgDict bandInfo tiffFile]
  ++ (if nonempty (cogOverviews cogCfgDict)
      then [cmd_clean tiffFile; cmd_overviews cogCfgDict bandInfo tiffFile]
      else [])
  ++ [cmd_cog cogCfgDict tiffFile (cogTmpFile_of cogCfgDict cogFile)].

(** The commands and the recorded temporary files of a band, by its
    outcome. *)
Definition commands_of (cogCfgDict : CogCfg) (bo : BandInfo * outcome)
  : list string :=
  match snd bo, cogFile_of cogCfgDict (fst bo) with
  | Published, Ok cogFile => band_commands cogCfgDict (fst bo) cogFile
  | _, _ => []
  end.

Definition temps_of (cogCfgDict : CogCfg) (bo : BandInfo * outcome)
  : list string :=
  match snd bo, cogFile_of cogCfgDict (fst bo) with
  | Published, Ok cogFile => recorded_temps cogCfgDict cogFile
  | _, _ => []
  end.

(** The ValueError of the check of the bands. *)
Definition band_not_found (cogCfgDict : CogCfg) (src : Dataset)
  (bandInfo : BandInfo) : exn :=
  ValueError (inBand bandInfo +:+ " not found in " +:+ inFile cogCfgDict +:+ ":"
              +:+ repr_list (map fst (variables src))).

(** A job with overwrite enabled whose two bands are written under one
    name. *)
Definition cfg_same_name : CogCfg :=
  {| tmpFolder := "/tmp/cog"; outFolder := "/data/cog";
     inFile := "/data/in/c_gls_NDVI300_202404010000_GLOBE_OLCI_V2.0.1.nc";
     hasTimeIndex := false; overwriteExistingFiles := true;
     compressionMethod := "DEFLATE"; cogOverviews := [];
     blockSize := 512; attributeConversion := conv_with "{}";
     bandInfoList :=
       [ {| inBand := "NDVI"; outBand := Some "Q"; resampleMethod := "average";
            description := "first" |};
         {| inBand := "NDVI_unc"; outBand := Some "Q"; resampleMethod := "average";
            description := "second" |} ] |}.

(** A job whose input file name has four hyphen parts. *)
Definition cfg_bad_name : CogCfg :=
  {| tmpFolder := "/tmp/cog"; outFolder := "/data/cog";
     inFile := "/in/c_gls_NDVI300-RT0-X-Y_202404010000_GLOBE_OLCI_V2.0.1.nc";
     hasTimeIndex := true; overwriteExistingFiles := false;
     compressionMethod := "DEFLATE"; cogOverviews := [];
     blockSize := 512; attributeConversion := conv_with "{}";
     bandInfoList := [band_ndvi] |}.


(** An environment in which every system call fails. *)
Definition env_all_fail : Env :=
  {| today := today (Env := env_fine);
     str_ndarray := str_ndarray (Env := env_fine);
     toolchain := toolchain (Env := env_fine);
     console := console (Env := env_fine);
     embed_metadata := embed_metadata (Env := env_fine);
     newfile_mode := newfile_mode (Env := env_fine);
     fault := fun k => Some k |}.

(** The name a band is written under: [outBand] when it is set and not
    empty, [inBand] otherwise. *)
Definition written_band (inBand : string) (outBand : option string) : string :=
  if Py.truthy outBand then default "" outBand else inBand.

(** The turn of a band up to its final encoding: the statements of the loop
    that make the base raster, its overviews and its metadata. *)
Definition band_prepare `{E : Env} (cogCfgDict : CogCfg) (attributeDict : dict)
  (band : BandInfo * dict) (cogFile : string) : M unit :=
  let '(bandInfo, attributes) := band in
  let tiffFile := tiffFile_of cogCfgDict cogFile in
  _ ← _runShellCmd (cmd_base cogCfgDict bandInfo tiffFile) tiffFile;
  _ ← (if nonempty (cogOverviews cogCfgDict) then
         _ ← _runShellCmd (cmd_clean tiffFile) tiffFile;
         _runShellCmd (cmd_overviews cogCfgDict bandInfo tiffFile)
           (tiffFile +:+ ".ovr")
       else mret tt);
  metadataDict ← lift (_convertFileAttributes attributeDict
                         (attributeConversion cogCfgDict) cogFile);
  bandMetadataDict ← lift (_convertBandAttributes attributes
                             (attributeConversion cogCfgDict));
  gdal_set_metadata tiffFile metadataDict bandMetadataDict (description bandInfo).
(** * Properties *)

(** ** Strings *)

Lemma app_assoc_s (a b c : string) : (a +:+ b) +:+ c = a +:+ (b +:+ c).
Proof. induction a as [|x a IH]; simpl; [reflexivity | now rewrite IH]. Qed.

Lemma app_nil_r_s (a : string) : a +:+ "" = a.
Proof. induction a as [|x a IH]; simpl; [reflexivity | now rewrite IH]. Qed.

(** Right-nested appends, literals pushed inwards. *)
Ltac str_norm :=
  repeat first [rewrite app_assoc_s | rewrite app_nil_r_s | progress simpl].

Lemma split_cons (sep : ascii) (s : string) :
  exists h t, Py.split sep s = h :: t.
Proof.
  induction s as [|c s [h [t IH]]]; simpl; [eauto |].
  destruct (Ascii.eqb c sep); [eauto |]. rewrite IH. eauto.
Qed.

Lemma split_length_pos (sep : ascii) (s : string) : 0 < length (Py.split sep s).
Proof. destruct (split_cons sep s) as (h & t & ->). simpl. lia. Qed.

(** Joining the fields of a split gives the string back. *)
Lemma join_split (sep : ascii) (s : string) :
  Py.join (String sep EmptyString) (Py.split sep s) = s.
Proof.
  unfold Py.join. induction s as [|c s IH]; simpl; [reflexivity |].
  destruct (Ascii.eqb_spec c sep) as [-> | Hne].
  - destruct (split_cons sep s) as (h & t & Hs). rewrite Hs in *.
    simpl. simpl in IH. now rewrite IH.
  - destruct (split_cons sep s) as (h & t & Hs). rewrite Hs in *.
    simpl in *. destruct t; simpl in *; now rewrite <- IH.
Qed.

Example splitext_nc :
  OsPath.splitext "c_gls_NDVI300_202404010000_GLOBE_OLCI_V2.0.1.nc"
  = ("c_gls_NDVI300_202404010000_GLOBE_OLCI_V2.0.1", ".nc").
Proof. reflexivity. Qed.

Example splitext_hidden : OsPath.splitext "dir.d/.bashrc" = ("dir.d/.bashrc", "").
Proof. reflexivity. Qed.

Example splitext_no_extension :
  OsPath.splitext "c_gls_FAPAR300-RT0_202404100000_GLOBE_OLCI_V1.1.2"
  = ("c_gls_FAPAR300-RT0_202404100000_GLOBE_OLCI_V1.1", ".2").
Proof. reflexivity. Qed.

Example split_empty_fields : Py.split "_" "a__b_" = ["a"; ""; "b"; ""].
Proof. reflexivity. Qed.

Example replace_all : Py.replace "ab" "x" "abcabab" = "xcxx".
Proof. reflexivity. Qed.

Example basename_path : OsPath.basename "/data/in/c_gls_X.nc" = "c_gls_X.nc".
Proof. reflexivity. Qed.

Example join_paths :
  OsPath.join "out" "f.tiff" = "out/f.tiff" /\ OsPath.join "out/" "f.tiff" = "out/f.tiff".
Proof. split; reflexivity. Qed.

(** ** ProductNameCodec *)

(** What [_unpackNetCDFProductName] computes, by the number of segments and
    the table. *)
Lemma unpack_characterised (name : string) (h : bool) :
  _unpackNetCDFProductName name h =
  let parts := stem_parts name in
  let pp := hyphen_parts name in
  if (length parts <? 7)%nat then Raise IndexError
  else if table_ok (length pp) h then
    Ok {| project := Py.join "_" (firstn 2 parts);
          product := nth 0 pp EmptyString;
          productDate := nth 3 parts EmptyString;
          roi := nth 4 parts EmptyString;
          sensor := nth 5 parts EmptyString;
          version := nth 6 parts EmptyString;
          extention := snd (OsPath.splitext name);
          subProduct := fst (table_elements pp h);
          timeIndex := snd (table_elements pp h);
          parameter := None |}
  else Raise (incompatible (nth 2 parts EmptyString) h).
Proof.
  unfold _unpackNetCDFProductName, hyphen_parts, stem_parts.
  destruct (OsPath.splitext name) as [stem ext]. simpl fst. simpl snd.
  destruct (Py.split "_" stem) as [|p0 [|p1 [|p2 [|p3 [|p4 [|p5 [|p6 rest]]]]]]];
    try reflexivity.
  - simpl. destruct (split_cons "-" p2) as (a & t & ->). reflexivity.
  - simpl. destruct (split_cons "-" p2) as (a & t & ->). reflexivity.
  - simpl. destruct (split_cons "-" p2) as (a & t & ->). reflexivity.
  - simpl. destruct (split_cons "-" p2) as (a & t & ->). reflexivity.
  - cbn [length Nat.ltb Nat.leb nth]. 
    change (Py.index (p0 :: p1 :: p2 :: p3 :: p4 :: p5 :: p6 :: rest) 2) with (Ok p2).
    cbn [mbind result_bind].
    destruct (split_cons "-" p2) as (a & t & ->).
    destruct t as [|b [|c [|d t]]]; destruct h; reflexivity.
Qed.

Lemma raises_Raise {A} (e : exn) : raises (@Raise A e).
Proof. now exists e. Qed.

Lemma raises_Ok {A} (a : A) : ~ raises (Ok a).
Proof. intros [e He]. discriminate. Qed.

(** C4, as amended: Parse fails exactly when the underscore-split stem has
    fewer than 7 segments (an [IndexError]) or the number of hyphen parts of
    the third segment with [hasTimeIndex] is outside the table (a
    [ValueError]); segments after the seventh are ignored.  For every
    accepted input [subProduct] and [timeIndex] follow the table. *)
Theorem unpack_fails_exactly (name : string) (h : bool) :
  (raises (_unpackNetCDFProductName name h) <->
     length (stem_parts name) < 7
     \/ table_ok (length (hyphen_parts name)) h = false)
  /\ (length (stem_parts name) < 7 ->
      _unpackNetCDFProductName name h = Raise IndexError)
  /\ (7 <= length (stem_parts name) ->
      table_ok (length (hyphen_parts name)) h = false ->
      _unpackNetCDFProductName name h
      = Raise (incompatible (nth 2 (stem_parts name) EmptyString) h))
  /\ (forall d, _unpackNetCDFProductName name h = Ok d ->
      (subProduct d, timeIndex d) = table_elements (hyphen_parts name) h).
Proof.
  rewrite unpack_characterised. cbv zeta.
  destruct (Nat.ltb_spec (length (stem_parts name)) 7) as [Hlt | Hge].
  - repeat split; auto using raises_Raise; try lia; try discriminate.
  - destruct (table_ok (length (hyphen_parts name)) h) eqn:Ht.
    + split; [split |]; [| | split; [| split]].
      * intros Hr. now apply raises_Ok in Hr.
      * intros [? | ?]; [lia | discriminate].
      * lia.
      * intros _ ?. discriminate.
      * intros d Hd. injection Hd as <-. simpl. now destruct (table_elements _ _).
    + repeat split; auto using raises_Raise; try lia; try discriminate.
Qed.

Definition name_eight_segments : string :=
  "c_gls_NDVI300_202404010000_GLOBE_OLCI_V2.0.1_extra.nc".

(** C4, as stated, fails: a stem of 8 segments is rejected by the document's
    rule and accepted by the code, the eighth segment being dropped. *)
Lemma unpack_accepts_eight_segments :
  length (stem_parts name_eight_segments) = 8
  /\ spec_rejects name_eight_segments false = true
  /\ is_ok (_unpackNetCDFProductName name_eight_segments false) = true
  /\ createCogFileName name_eight_segments "NDVI" None false
     = Ok "c_gls_NDVI300-NDVI_202404010000_GLOBE_OLCI_V2.0.1.tiff".
Proof. repeat split; reflexivity. Qed.

(** The name Pack builds, by the elements. *)
Lemma pack_formula (d : ProdDict) (param : string) :
  _packCOGProductName (set_parameter d param)
  = Ok (project d +:+ "_"
        +:+ (product d +:+ tag_part (subProduct d) +:+ "-" +:+ param
             +:+ tag_part (timeIndex d))
        +:+ "_" +:+ productDate d +:+ "_" +:+ roi d +:+ "_" +:+ sensor d
        +:+ "_" +:+ version d +:+ ".tiff").
Proof.
  unfold _packCOGProductName, tag_part. simpl.
  destruct (Py.truthy (subProduct d)), (Py.truthy (timeIndex d));
    now str_norm.
Qed.

(** C6: Pack builds
    [project_product[-subProduct]-parameter[-timeIndex]_productDate_roi_sensor_version.tiff],
    a bracketed part being there exactly when it is set to a non-empty
    string; the extension element plays no part, the name ends in [.tiff];
    and the two names of the design document come out as given. *)
Theorem pack_name_format :
  (forall (d : ProdDict) (param : string),
     _packCOGProductName (set_parameter d param)
     = Ok (project d +:+ "_"
           +:+ (product d +:+ tag_part (subProduct d) +:+ "-" +:+ param
                +:+ tag_part (timeIndex d))
           +:+ "_" +:+ productDate d +:+ "_" +:+ roi d +:+ "_" +:+ sensor d
           +:+ "_" +:+ version d +:+ ".tiff"))
  /\ (forall (d : ProdDict) (param ext : string),
        _packCOGProductName (set_parameter (set_extention d ext) param)
        = _packCOGProductName (set_parameter d param))
  /\ createCogFileName "c_gls_NDVI300_202404010000_GLOBE_OLCI_V2.0.1.nc"
       "NDVI" None false
     = Ok "c_gls_NDVI300-NDVI_202404010000_GLOBE_OLCI_V2.0.1.tiff"
  /\ createCogFileName "c_gls_FAPAR300-RT0_202404100000_GLOBE_OLCI_V1.1.2.nc"
       "FAPAR" (Some "FAPAR") true
     = Ok "c_gls_FAPAR300-FAPAR-RT0_202404100000_GLOBE_OLCI_V1.1.2.tiff".
Proof.
  split; [exact pack_formula |]. split; [| split; reflexivity].
  intros d param ext. now rewrite !pack_formula.
Qed.

(** C7, as amended: for a name of exactly 7 segments whose third segment is
    accepted by the table and has no empty sub-part, the output name is the
    input stem with the band name inserted among the hyphen parts of the
    third segment (after the product and the sub-product, before the time
    index), followed by [.tiff]. *)
Theorem parse_pack_inserts_band (name band : string) (h : bool)
  (p0 p1 p2 p3 p4 p5 p6 : string) :
  stem_parts name = [p0; p1; p2; p3; p4; p5; p6] ->
  table_ok (length (Py.split "-" p2)) h = true ->
  Forall (fun s => s <> EmptyString) (tail (Py.split "-" p2)) ->
  fst (OsPath.splitext name) = Py.join "_" [p0; p1; p2; p3; p4; p5; p6]
  /\ p2 = Py.join "-" (Py.split "-" p2)
  /\ createCogFileName name band None h
     = Ok (Py.join "_" [p0; p1; Py.join "-" (with_band (Py.split "-" p2) band h);
                        p3; p4; p5; p6] +:+ ".tiff").
Proof.
  intros Hparts Htab Hne. split; [| split].
  - rewrite <- Hparts. unfold stem_parts. now rewrite join_split.
  - now rewrite join_split.
  - unfold createCogFileName. rewrite unpack_characterised. cbv zeta.
    unfold hyphen_parts. rewrite Hparts. cbn [length Nat.ltb Nat.leb nth].
    rewrite Htab. cbn [mbind result_bind Py.truthy].
    rewrite pack_formula.
    cbn [project product productDate roi sensor version subProduct timeIndex].
    f_equal. unfold Py.join, tag_part, with_band.
    destruct (Py.split "-" p2) as [|a [|b [|c [|d t]]]]; destruct h;
      try discriminate; simpl in Hne |- *.
    + now str_norm.
    + inversion_clear Hne as [|? ? Hb _].
      destruct b; [congruence |]. now str_norm.
    + inversion_clear Hne as [|? ? Hb _].
      destruct b; [congruence |]. now str_norm.
    + inversion_clear Hne as [|? ? Hb Hne']. inversion_clear Hne' as [|? ? Hc _].
      destruct b; [congruence |]. destruct c; [congruence |]. now str_norm.
Qed.

Lemma parse_pack_inserts_band_witness :
  (stem_parts "c_gls_FAPAR300-RT0_202404100000_GLOBE_OLCI_V1.1.2.nc"
   = ["c"; "gls"; "FAPAR300-RT0"; "202404100000"; "GLOBE"; "OLCI"; "V1.1.2"]
   /\ table_ok (length (Py.split "-" "FAPAR300-RT0")) true = true
   /\ Forall (fun s => s <> EmptyString) (tail (Py.split "-" "FAPAR300-RT0")))
  /\ createCogFileName "c_gls_FAPAR300-RT0_202404100000_GLOBE_OLCI_V1.1.2.nc"
       "FAPAR" None true
     = Ok "c_gls_FAPAR300-FAPAR-RT0_202404100000_GLOBE_OLCI_V1.1.2.tiff".
Proof.
  assert (Hne : Forall (fun s => s <> EmptyString) (tail (Py.split "-" "FAPAR300-RT0"))).
  { vm_compute. repeat constructor; discriminate. }
  split; [split; [reflexivity | split; [reflexivity | exact Hne]] |].
  exact (proj2 (proj2 (parse_pack_inserts_band
    "c_gls_FAPAR300-RT0_202404100000_GLOBE_OLCI_V1.1.2.nc" "FAPAR" true
    "c" "gls" "FAPAR300-RT0" "202404100000" "GLOBE" "OLCI" "V1.1.2"
    eq_refl eq_refl Hne))).
Defined.

(** C7, as stated, fails: the output name differs from the input in more
    than its extension, the band name having been inserted. *)
Lemma parse_pack_not_same_stem :
  createCogFileName "c_gls_NDVI300_202404010000_GLOBE_OLCI_V2.0.1.nc" "NDVI" None false
  = Ok "c_gls_NDVI300-NDVI_202404010000_GLOBE_OLCI_V2.0.1.tiff"
  /\ ~ same_stem "c_gls_NDVI300-NDVI_202404010000_GLOBE_OLCI_V2.0.1.tiff"
               "c_gls_NDVI300_202404010000_GLOBE_OLCI_V2.0.1.nc".
Proof. split; [reflexivity |]. unfold same_stem. vm_compute. discriminate. Qed.

(** ** Dictionaries *)

Lemma dict_get_set_eq (k : string) (v : pyval) (d : dict) :
  dict_get k (dict_set k v d) = Some v.
Proof.
  induction d as [|[k' v'] d IH]; simpl.
  - now rewrite String.eqb_refl.
  - destruct (String.eqb_spec k' k) as [-> | Hne]; simpl.
    + now rewrite String.eqb_refl.
    + destruct (String.eqb_spec k' k); [congruence | exact IH].
Qed.

Lemma dict_get_set_ne (k k' : string) (v : pyval) (d : dict) :
  k <> k' -> dict_get k (dict_set k' v d) = dict_get k d.
Proof.
  intros Hne. induction d as [|[k0 v0] d IH]; simpl.
  - destruct (String.eqb_spec k' k); [congruence | reflexivity].
  - destruct (String.eqb_spec k0 k') as [-> | Hne0]; simpl.
    + destruct (String.eqb_spec k' k); [congruence | reflexivity].
    + now rewrite IH.
Qed.

Lemma in_list_true (key : string) (l : list string) :
  in_list key l = true <-> key ∈ l.
Proof. unfold in_list. apply bool_decide_eq_true. Qed.

Lemma in_list_false (key : string) (l : list string) :
  in_list key l = false <-> key ∉ l.
Proof. unfold in_list. apply bool_decide_eq_false. Qed.

Lemma elem_of_keys (k : string) (v : pyval) (d : dict) :
  (k, v) ∈ d -> k ∈ keys d.
Proof. intros H. unfold keys. apply list_elem_of_fmap. now exists (k, v). Qed.

(** ** AttributeTranslator: band attributes *)

Lemma band_loop_step (key : string) (value : pyval) (items : dict)
  (conv : AttributeConversion) (md : dict) :
  _convertBandAttributes_loop ((key, value) :: items) conv md =
  if in_list key (removeAttributeLst conv)
  then _convertBandAttributes_loop items conv md
  else (v ← band_value conv value;
        _convertBandAttributes_loop items conv (dict_set key v md)).
Proof.
  simpl. destruct (in_list _ _); [reflexivity |].
  destruct value; try reflexivity.
  simpl. now destruct (serialize_array conv xs).
Qed.

(** The loop keeps the keys it does not visit and writes the translated
    value of those it converts. *)
Lemma band_loop_lookup (conv : AttributeConversion) (items : dict) :
  NoDup (keys items) ->
  forall md m, _convertBandAttributes_loop items conv md = Ok m ->
  (forall key, key ∉ keys items -> dict_get key m = dict_get key md)
  /\ (forall key value, (key, value) ∈ items ->
        key ∉ removeAttributeLst conv ->
        exists v, band_value conv value = Ok v /\ dict_get key m = Some v).
Proof.
  induction items as [|[k0 v0] items IH]; intros Hnd md m Hrun.
  - simpl in Hrun. injection Hrun as <-. split; [reflexivity |].
    intros key value Hin. now apply elem_of_nil in Hin.
  - rewrite band_loop_step in Hrun.
    simpl in Hnd. apply NoDup_cons in Hnd as [Hk0 Hnd].
    destruct (in_list k0 (removeAttributeLst conv)) eqn:Hrem.
    + destruct (IH Hnd _ _ Hrun) as [Hother Hconv]. split.
      * intros key Hkey. apply Hother. simpl in Hkey.
        intros Hc. apply Hkey. now right.
      * intros key value Hin Hnr. apply elem_of_cons in Hin as [Heq | Hin].
        -- injection Heq as -> ->. apply in_list_true in Hrem. contradiction.
        -- now apply (Hconv key value).
    + destruct (band_value conv v0) as [v |] eqn:Hv; [| discriminate].
      simpl in Hrun. destruct (IH Hnd _ _ Hrun) as [Hother Hconv]. split.
      * intros key Hkey. simpl in Hkey. rewrite Hother.
        -- apply dict_get_set_ne. intros ->. apply Hkey. now left.
        -- intros Hc. apply Hkey. now right.
      * intros key value Hin Hnr. apply elem_of_cons in Hin as [Heq | Hin].
        -- injection Heq as -> ->. exists v. split; [exact Hv |].
           rewrite (Hother k0 Hk0). apply dict_get_set_eq.
        -- now apply (Hconv key value).
Qed.

(** The loop fails only on an array that is converted, and only with a bad
    enclosure. *)
Lemma band_loop_raise (conv : AttributeConversion) (items : dict) :
  forall md e, _convertBandAttributes_loop items conv md = Raise e ->
  e = enclosure_error
  /\ exists key xs, (key, VArray xs) ∈ items
       /\ (key ∉ removeAttributeLst conv)
       /\ String.length (listEnclosure conv) <> 0
       /\ String.length (listEnclosure conv) <> 2.
Proof.
  induction items as [|[k0 v0] items IH]; intros md e Hrun.
  - discriminate.
  - rewrite band_loop_step in Hrun.
    assert (Hrest : forall md', _convertBandAttributes_loop items conv md' = Raise e ->
      e = enclosure_error
      /\ exists key xs, (key, VArray xs) ∈ (k0, v0) :: items
           /\ (key ∉ removeAttributeLst conv)
           /\ String.length (listEnclosure conv) <> 0
           /\ String.length (listEnclosure conv) <> 2).
    { intros md' H. destruct (IH _ _ H) as (He & key & xs & Hin & Hrest).
      split; [exact He |]. exists key, xs. split; [now right | exact Hrest]. }
    destruct (in_list k0 (removeAttributeLst conv)) eqn:Hrem; [now apply (Hrest md) |].
    destruct (band_value conv v0) as [v | e'] eqn:Hv; simpl in Hrun;
      [now apply (Hrest (dict_set k0 v md)) |].
    injection Hrun as ->.
    destruct v0; try discriminate. simpl in Hv. unfold serialize_array in Hv.
    destruct (Nat.eqb_spec (String.length (listEnclosure conv)) 2); [discriminate |].
    destruct (Nat.eqb_spec (String.length (listEnclosure conv)) 0); [discriminate |].
    simpl in Hv. injection Hv as <-. split; [reflexivity |].
    exists k0, xs. apply in_list_false in Hrem. repeat split; auto. now left.
Qed.

(** A converted array with a bad enclosure makes the loop fail. *)
Lemma band_loop_bad_enclosure (conv : AttributeConversion) (items : dict)
  (key : string) (xs : list npscalar) :
  (key, VArray xs) ∈ items ->
  key ∉ removeAttributeLst conv ->
  String.length (listEnclosure conv) <> 0 ->
  String.length (listEnclosure conv) <> 2 ->
  forall md, _convertBandAttributes_loop items conv md = Raise enclosure_error.
Proof.
  intros Hin Hnr H0 H2. 
  assert (Hser : forall ys, serialize_array conv ys = Raise enclosure_error).
  { intros ys. unfold serialize_array.
    destruct (Nat.eqb_spec (String.length (listEnclosure conv)) 2); [contradiction |].
    now destruct (Nat.eqb_spec (String.length (listEnclosure conv)) 0). }
  induction items as [|[k0 v0] items IH]; intros md.
  - now apply elem_of_nil in Hin.
  - rewrite band_loop_step.
    destruct (in_list k0 (removeAttributeLst conv)) eqn:Hrem.
    + apply elem_of_cons in Hin as [Heq | Hin]; [| now apply IH].
      injection Heq as Hk Hv. subst k0 v0.
      apply in_list_true in Hrem. contradiction.
    + destruct v0; simpl; rewrite ?Hser; try reflexivity;
        (apply elem_of_cons in Hin as [Heq | Hin]; [discriminate | now apply IH]).
Qed.

(** C8: an array value of a converted key is joined with [listSeparator];
    the result is put between the two characters of [listEnclosure] when it
    has two, left as it is when it is empty, and the translation fails (a
    [ValueError]) for any other length. *)
Theorem convertBand_array (attributeDict : dict) (conv : AttributeConversion)
  (key : string) (xs : list npscalar) :
  NoDup (keys attributeDict) ->
  (key, VArray xs) ∈ attributeDict ->
  key ∉ removeAttributeLst conv ->
  let joined := Py.join (listSeparator conv) (map str_scalar xs) in
  let enc := listEnclosure conv in
  match String.length enc with
  | 2 => exists m, _convertBandAttributes attributeDict conv = Ok m
           /\ dict_get key m
              = Some (VStr (String.substring 0 1 enc +:+ joined
                            +:+ String.substring 1 1 enc))
  | 0 => exists m, _convertBandAttributes attributeDict conv = Ok m
           /\ dict_get key m = Some (VStr joined)
  | _ => _convertBandAttributes attributeDict conv = Raise enclosure_error
  end.
Proof.
  intros Hnd Hin Hnr joined enc. unfold _convertBandAttributes.
  assert (Hok : String.length enc = 0 \/ String.length enc = 2 ->
    forall s, serialize_array conv xs = Ok s ->
    exists m, _convertBandAttributes_loop attributeDict conv [] = Ok m
      /\ dict_get key m = Some (VStr s)).
  { intros Hlen s Hs.
    destruct (_convertBandAttributes_loop attributeDict conv []) as [m | e] eqn:Hrun.
    - exists m. split; [reflexivity |].
      destruct (band_loop_lookup conv attributeDict Hnd _ _ Hrun) as [_ Hconv].
      destruct (Hconv key _ Hin Hnr) as (v & Hv & Hget).
      simpl in Hv. rewrite Hs in Hv. simpl in Hv. now injection Hv as <-.
    - apply band_loop_raise in Hrun as (_ & _ & _ & _ & _ & H0 & H2).
      fold enc in H0, H2. lia. }
  destruct (String.length enc) as [|[|[|n]]] eqn:Hlen.
  - apply Hok; [now left |]. unfold serialize_array. fold enc. now rewrite Hlen.
  - apply (band_loop_bad_enclosure conv attributeDict key xs); auto;
      fold enc; lia.
  - apply Hok; [now right |]. unfold serialize_array. fold enc. now rewrite Hlen.
  - apply (band_loop_bad_enclosure conv attributeDict key xs); auto;
      fold enc; lia.
Qed.

(** C10: a value that is not a [numpy.ndarray], a plain list of numbers
    included, is copied as it is; a mapping in which no converted value is
    an array is translated without error whatever [listEnclosure] is; an
    error is the enclosure error and comes from a converted array. *)
Theorem convertBand_only_ndarray (attributeDict : dict) (conv : AttributeConversion) :
  (forall key v m,
     NoDup (keys attributeDict) ->
     (key, v) ∈ attributeDict ->
     key ∉ removeAttributeLst conv ->
     is_ndarray v = false ->
     _convertBandAttributes attributeDict conv = Ok m ->
     dict_get key m = Some v)
  /\ ((forall key v, (key, v) ∈ attributeDict ->
         key ∉ removeAttributeLst conv -> is_ndarray v = false) ->
      is_ok (_convertBandAttributes attributeDict conv) = true)
  /\ (forall e, _convertBandAttributes attributeDict conv = Raise e ->
      e = enclosure_error
      /\ exists key xs, (key, VArray xs) ∈ attributeDict
           /\ (key ∉ removeAttributeLst conv)
           /\ String.length (listEnclosure conv) <> 0
           /\ String.length (listEnclosure conv) <> 2).
Proof.
  unfold _convertBandAttributes. split; [| split].
  - intros key v m Hnd Hin Hnr Hv Hrun.
    destruct (band_loop_lookup conv attributeDict Hnd _ _ Hrun) as [_ Hconv].
    destruct (Hconv key v Hin Hnr) as (v' & Hv' & Hget).
    destruct v; try discriminate; simpl in Hv'; now injection Hv' as <-.
  - intros Hnone.
    destruct (_convertBandAttributes_loop attributeDict conv []) as [m | e] eqn:Hrun;
      [reflexivity |].
    apply band_loop_raise in Hrun as (_ & key & xs & Hin & Hnr & _).
    now specialize (Hnone key _ Hin Hnr).
  - intros e Hrun. now apply band_loop_raise in Hrun.
Qed.

(** ** AttributeTranslator: file attributes *)

Section FileAttributes.
Context `{E : Env}.
Variables (attributeDict : dict) (conv : AttributeConversion) (filename : string).




End FileAttributes.





Ltac by_compute :=
  match goal with
  | |- ?P => apply (@bool_decide_unpack P _); vm_compute; exact I
  end.

Lemma convertBand_array_witness :
  (NoDup (keys attrs_flags)
   /\ ("flag_values", VArray [NpInt 1; NpInt 2; NpInt 3]) ∈ attrs_flags
   /\ ("flag_values" ∉ removeAttributeLst (conv_with "{}")))
  /\ (exists m, _convertBandAttributes attrs_flags (conv_with "{}") = Ok m
        /\ dict_get "flag_values" m = Some (VStr "{1,2,3}"))
  /\ (exists m, _convertBandAttributes attrs_flags (conv_with "") = Ok m
        /\ dict_get "flag_values" m = Some (VStr "1,2,3"))
  /\ _convertBandAttributes attrs_flags (conv_with "<|>") = Raise enclosure_error.
Proof.
  assert (Hnd : NoDup (keys attrs_flags)) by by_compute.
  assert (Hin : ("flag_values", VArray [NpInt 1; NpInt 2; NpInt 3]) ∈ attrs_flags)
    by (right; left).
  assert (Hnr : "flag_values" ∉ ["_FillValue"]) by (apply in_list_false; reflexivity).
  split; [now repeat split |]. split; [| split].
  - exact (convertBand_array attrs_flags (conv_with "{}") "flag_values"
             [NpInt 1; NpInt 2; NpInt 3] Hnd Hin Hnr).
  - exact (convertBand_array attrs_flags (conv_with "") "flag_values"
             [NpInt 1; NpInt 2; NpInt 3] Hnd Hin Hnr).
  - exact (convertBand_array attrs_flags (conv_with "<|>") "flag_values"
             [NpInt 1; NpInt 2; NpInt 3] Hnd Hin Hnr).
Defined.

Lemma convertBand_only_ndarray_witness :
  (NoDup (keys attrs_scalars)
   /\ ("valid_range", VList [NpInt 0; NpInt 250]) ∈ attrs_scalars
   /\ ("valid_range" ∉ removeAttributeLst (conv_with "<|>"))
   /\ _convertBandAttributes attrs_scalars (conv_with "<|>") = Ok attrs_scalars)
  /\ dict_get "valid_range" attrs_scalars = Some (VList [NpInt 0; NpInt 250]).
Proof.
  assert (Hnd : NoDup (keys attrs_scalars)) by by_compute.
  assert (Hin : ("valid_range", VList [NpInt 0; NpInt 250]) ∈ attrs_scalars)
    by (right; left).
  assert (Hnr : "valid_range" ∉ ["_FillValue"]) by (apply in_list_false; reflexivity).
  assert (Hrun : _convertBandAttributes attrs_scalars (conv_with "<|>") = Ok attrs_scalars)
    by reflexivity.
  split; [now repeat split |].
  exact (proj1 (convertBand_only_ndarray attrs_scalars (conv_with "<|>"))
           "valid_range" (VList [NpInt 0; NpInt 250]) attrs_scalars
           Hnd Hin Hnr eq_refl Hrun).
Defined.

Example convertBand_examples :
  _convertBandAttributes attrs_flags (conv_with "{}")
  = Ok [("long_name", VStr "Quality flags"); ("flag_values", VStr "{1,2,3}")]
  /\ _convertBandAttributes attrs_flags (conv_with "")
     = Ok [("long_name", VStr "Quality flags"); ("flag_values", VStr "1,2,3")].
Proof. split; reflexivity. Qed.




(** ** Frames: what the primitives leave alone *)

Section Frames.
Context `{E : Env}.

Lemma bind_run {A B} (m : M A) (k : A -> M B) (w : World) :
  (m ≫= k) w = match m w with
               | (Ok a, w') => k a w'
               | (Raise e, w') => (Raise e, w')
               end.
Proof. reflexivity. Qed.

Lemma touches_same (T : list string) (w w' : World) :
  files w' = files w -> trace w' = trace w -> dirs w ⊆ dirs w' -> touches T w w'.
Proof.
  intros Hf Ht Hd. split; [now rewrite Hf |]. split; [| exact Hd].
  exists []. split; [now rewrite Ht | constructor].
Qed.

Lemma touches_refl (T : list string) (w : World) : touches T w w.
Proof. now apply touches_same. Qed.

Lemma touches_trans (T : list string) (w w1 w2 : World) :
  touches T w w1 -> touches T w1 w2 -> touches T w w2.
Proof.
  intros (Hf1 & (new1 & Ht1 & Hn1) & Hd1) (Hf2 & (new2 & Ht2 & Hn2) & Hd2).
  split; [| split].
  - intros q Hq. now rewrite Hf2, Hf1.
  - exists (new2 ++ new1). split.
    + now rewrite Ht2, Ht1, app_assoc.
    + apply Forall_app. split; [| exact Hn1].
      eapply Forall_impl; [exact Hn2 |]. simpl. intros fs Hfs q Hq.
      now rewrite Hfs, Hf1.
  - now transitivity (dirs w1).
Qed.

Lemma touches_mono (T T' : list string) (w w' : World) :
  T ⊆ T' -> touches T w w' -> touches T' w w'.
Proof.
  intros Hsub (Hf & (new & Ht & Hn) & Hd). split; [| split; [| exact Hd]].
  - intros q Hq. apply Hf. intros Hc. apply Hq, Hsub, Hc.
  - exists new. split; [exact Ht |].
    eapply Forall_impl; [exact Hn |]. simpl. intros fs Hfs q Hq.
    apply Hfs. intros Hc. apply Hq, Hsub, Hc.
Qed.

Lemma touches_set_files (T : list string) (fs : FS) (w : World) :
  (forall q, q ∉ T -> fs !! q = files w !! q) ->
  touches T w (set_files fs w).
Proof.
  intros H. split; [exact H |]. split; [| reflexivity].
  exists [fs]. split; [reflexivity |]. now constructor.
Qed.

Lemma touches_tick (T : list string) (w : World) : touches T w (tick w).
Proof. now apply touches_same. Qed.

Lemma M_touches_mono {A} (T T' : list string) (m : M A) :
  T ⊆ T' -> M_touches T m -> M_touches T' m.
Proof. intros Hsub Hm w r w' Hrun. eapply touches_mono; eauto. Qed.

Lemma M_touches_ret {A} (T : list string) (a : A) : M_touches T (mret a).
Proof. intros w r w' [= <- <-]. apply touches_refl. Qed.

Lemma M_touches_lift {A} (T : list string) (r : result A) : M_touches T (lift r).
Proof. intros w r' w' [= <- <-]. apply touches_refl. Qed.

Lemma M_touches_bind {A B} (T : list string) (m : M A) (k : A -> M B) :
  M_touches T m -> (forall a, M_touches T (k a)) -> M_touches T (m ≫= k).
Proof.
  intros Hm Hk w r w' Hrun. rewrite bind_run in Hrun.
  destruct (m w) as [[a | e] w1] eqn:Hmw.
  - eapply touches_trans; [eapply Hm; eauto | eapply Hk; eauto].
  - injection Hrun as <- <-. eapply Hm; eauto.
Qed.

Lemma M_touches_syscall {A} (T : list string) (act : M A) :
  M_touches T act -> M_touches T (syscall act).
Proof.
  intros Hact w r w' Hrun. unfold syscall in Hrun.
  destruct (fault (calls w)).
  - injection Hrun as <- <-. apply touches_tick.
  - eapply touches_trans; [apply touches_tick | eapply Hact; eauto].
Qed.

Lemma M_touches_isfile (T : list string) (p : string) : M_touches T (os_path_isfile p).
Proof. intros w r w' [= <- <-]. apply touches_refl. Qed.

Lemma M_touches_isdir (T : list string) (p : string) : M_touches T (os_path_isdir p).
Proof. intros w r w' [= <- <-]. apply touches_refl. Qed.

Lemma M_touches_remove (p : string) : M_touches [p] (os_remove p).
Proof.
  apply M_touches_syscall. intros w r w' Hrun.
  destruct (files w !! p); injection Hrun as <- <-.
  - apply touches_set_files. intros q Hq. apply lookup_delete_ne. set_solver.
  - apply touches_refl.
Qed.

Lemma M_touches_rename (a b : string) : M_touches [a; b] (os_rename a b).
Proof.
  apply M_touches_syscall. intros w r w' Hrun.
  destruct (files w !! a); injection Hrun as <- <-.
  - apply touches_set_files. intros q Hq.
    rewrite lookup_insert_ne by set_solver. apply lookup_delete_ne. set_solver.
  - apply touches_refl.
Qed.

Lemma M_touches_chmod (p : string) (m : N) : M_touches [p] (os_chmod p m).
Proof.
  apply M_touches_syscall. intros w r w' Hrun.
  destruct (files w !! p); injection Hrun as <- <-.
  - apply touches_set_files. intros q Hq. apply lookup_insert_ne. set_solver.
  - apply touches_refl.
Qed.

Lemma add_dirs_same (l : list string) (w : World) :
  files (add_dirs l w) = files w /\ trace (add_dirs l w) = trace w
  /\ calls (add_dirs l w) = calls w /\ cmds (add_dirs l w) = cmds w
  /\ ran (add_dirs l w) = ran w.
Proof.
  unfold add_dirs. revert w. induction l as [|a l IH]; intros w; simpl; [auto |].
  destruct (IH (add_dir a w)) as (-> & -> & -> & -> & ->). auto.
Qed.

Lemma add_dirs_files (l : list string) (w : World) : files (add_dirs l w) = files w.
Proof. apply add_dirs_same. Qed.

Lemma add_dirs_trace (l : list string) (w : World) : trace (add_dirs l w) = trace w.
Proof. apply add_dirs_same. Qed.

Lemma add_dirs_calls (l : list string) (w : World) : calls (add_dirs l w) = calls w.
Proof. apply add_dirs_same. Qed.

Lemma add_dirs_cmds (l : list string) (w : World) : cmds (add_dirs l w) = cmds w.
Proof. apply add_dirs_same. Qed.

Lemma add_dirs_ran (l : list string) (w : World) : ran (add_dirs l w) = ran w.
Proof. apply add_dirs_same. Qed.

Lemma add_dirs_dirs (l : list string) (w : World) (x : string) :
  x ∈ dirs (add_dirs l w) <-> x ∈ l \/ x ∈ dirs w.
Proof.
  unfold add_dirs. revert w. induction l as [|a l IH]; intros w; simpl.
  - split; [now right | intros [H | H]; [now apply elem_of_nil in H | exact H]].
  - rewrite IH. simpl. rewrite elem_of_union, elem_of_singleton, elem_of_cons.
    tauto.
Qed.

Lemma M_touches_makedirs (T : list string) (d : string) (m : N) :
  M_touches T (os_makedirs d m).
Proof.
  intros w r w' Hrun. unfold os_makedirs in Hrun.
  destruct (fault (calls w)); injection Hrun as <- <-;
    (apply touches_same;
     [now rewrite add_dirs_files | now rewrite add_dirs_trace
     | intros x Hx; apply add_dirs_dirs; now right]).
Qed.

Lemma touches_write_chunks (dst c : string) (m : N) (j : nat) (w : World) :
  touches [dst] w (write_chunks dst c m j w).
Proof.
  induction j as [|j IH]; simpl.
  - apply touches_set_files. intros q Hq. apply lookup_insert_ne. set_solver.
  - eapply touches_trans; [exact IH |].
    apply touches_set_files. intros q Hq. apply lookup_insert_ne. set_solver.
Qed.

Lemma M_touches_copy (src dst : string) : M_touches [dst] (shutil_copy src dst).
Proof.
  intros w r w' Hrun. unfold shutil_copy in Hrun.
  eapply touches_trans; [apply (touches_tick _ w) |].
  destruct (files (tick w) !! src) as [f |];
    [| injection Hrun as <- <-; apply touches_refl].
  destruct (bool_decide (src = dst)); [injection Hrun as <- <-; apply touches_refl |].
  destruct (fault (calls w)); injection Hrun as <- <-.
  - apply touches_write_chunks.
  - eapply touches_trans; [apply touches_write_chunks |].
    apply touches_set_files. intros q Hq. apply lookup_insert_ne. set_solver.
Qed.

Lemma M_touches_guard {A} (T : list string) (b : bool) (m1 m2 : M A) :
  M_touches T m1 -> M_touches T m2 -> M_touches T (if b then m1 else m2).
Proof. now destruct b. Qed.

Lemma M_touches_safeMove_copy (src dst : string) :
  M_touches [dst +:+ ".temp"] (safeMove_copy src dst).
Proof.
  unfold safeMove_copy.
  apply M_touches_bind; [apply M_touches_isfile | intros stale].
  apply M_touches_bind; [| intros _; apply M_touches_copy].
  apply M_touches_guard; [apply M_touches_remove | apply M_touches_ret].
Qed.

Lemma M_touches_safeMove_publish (src dst : string) (mod_ : N) :
  M_touches [dst +:+ ".temp"; dst; src] (safeMove_publish src dst mod_).
Proof.
  unfold safeMove_publish.
  apply M_touches_bind; [apply M_touches_isfile | intros present].
  apply M_touches_bind; [| intros _].
  { apply M_touches_guard; [| apply M_touches_ret].
    eapply M_touches_mono; [| apply M_touches_remove]. set_solver. }
  apply M_touches_bind; [| intros _].
  { eapply M_touches_mono; [| apply M_touches_rename]. set_solver. }
  apply M_touches_bind; [| intros _].
  { eapply M_touches_mono; [| apply M_touches_chmod]. set_solver. }
  eapply M_touches_mono; [| apply M_touches_remove]. set_solver.
Qed.

(** [_safeMove] is its two halves in sequence. *)
Lemma safeMove_halves (src dst : string) (mod_ : N) (w : World) :
  _safeMove src dst mod_ w
  = (_ ← safeMove_copy src dst; safeMove_publish src dst mod_) w.
Proof.
  unfold _safeMove, safeMove_copy, safeMove_publish.
  rewrite !bind_run. simpl.
  destruct (bool_decide _).
  - rewrite !bind_run. destruct (os_remove _ w) as [[[] | e] w1]; [| reflexivity].
    rewrite !bind_run. now destruct (shutil_copy _ _ w1) as [[[] | e] w2].
  - rewrite !bind_run. simpl. rewrite !bind_run.
    now destruct (shutil_copy _ _ w) as [[[] | e] w2].
Qed.

Lemma M_touches_safeMove (src dst : string) (mod_ : N) :
  M_touches [dst +:+ ".temp"; dst; src] (_safeMove src dst mod_).
Proof.
  intros w r w' Hrun. rewrite safeMove_halves in Hrun. revert w r w' Hrun.
  apply M_touches_bind; [| intros _; apply M_touches_safeMove_publish].
  eapply M_touches_mono; [| apply M_touches_safeMove_copy]. set_solver.
Qed.

End Frames.

Section SafeMove.
Context `{E : Env}.

Lemma os_remove_run (p : string) (w : World) :
  os_remove p w =
  match fault (calls w) with
  | Some _ => (Raise (OSError (calls w)), tick w)
  | None =>
      match files w !! p with
      | Some _ => (Ok tt, set_files (delete p (files w)) (tick w))
      | None => (Raise (FileNotFoundError p), tick w)
      end
  end.
Proof. reflexivity. Qed.

Lemma os_rename_run (a b : string) (w : World) :
  os_rename a b w =
  match fault (calls w) with
  | Some _ => (Raise (OSError (calls w)), tick w)
  | None =>
      match files w !! a with
      | Some f => (Ok tt, set_files (<[b := f]> (delete a (files w))) (tick w))
      | None => (Raise (FileNotFoundError a), tick w)
      end
  end.
Proof. reflexivity. Qed.

Lemma os_chmod_run (p : string) (m : N) (w : World) :
  os_chmod p m w =
  match fault (calls w) with
  | Some _ => (Raise (OSError (calls w)), tick w)
  | None =>
      match files w !! p with
      | Some f => (Ok tt, set_files (<[p := mkfile (content f) m]> (files w)) (tick w))
      | None => (Raise (FileNotFoundError p), tick w)
      end
  end.
Proof. reflexivity. Qed.

Lemma length_app_s (a b : string) :
  String.length (a +:+ b) = String.length a + String.length b.
Proof. induction a as [|c a IH]; simpl; [reflexivity | now rewrite IH]. Qed.

Lemma temp_ne (dst : string) : dst <> dst +:+ ".temp".
Proof.
  intros H. apply (f_equal String.length) in H.
  rewrite length_app_s in H. simpl in H. lia.
Qed.

Lemma shutil_copy_ok (src dst : string) (w w' : World) :
  shutil_copy src dst w = (Ok tt, w') ->
  src <> dst
  /\ exists f, files w !! src = Some f
       /\ files w' !! dst = Some (mkfile (content f) (mode f)).
Proof.
  unfold shutil_copy. simpl. intros Hrun.
  destruct (files w !! src) as [f |]; [| discriminate].
  destruct (bool_decide_reflect (src = dst)) as [| Hne]; [discriminate |].
  destruct (fault (calls w)); [discriminate |].
  injection Hrun as <-. split; [exact Hne |]. exists f. split; [reflexivity |].
  simpl. apply lookup_insert_eq.
Qed.

Lemma safeMove_copy_ok (src dst : string) (w w1 : World) :
  safeMove_copy src dst w = (Ok tt, w1) ->
  src <> dst +:+ ".temp"
  /\ exists f, files w !! src = Some f
       /\ files w1 !! src = Some f
       /\ files w1 !! (dst +:+ ".temp") = Some (mkfile (content f) (mode f)).
Proof.
  intros Hrun.
  assert (Htouch : touches [dst +:+ ".temp"] w w1)
    by (eapply M_touches_safeMove_copy; eauto).
  unfold safeMove_copy in Hrun. rewrite bind_run in Hrun. simpl in Hrun.
  rewrite bind_run in Hrun.
  destruct ((if bool_decide (is_Some (files w !! (dst +:+ ".temp")))
             then os_remove (dst +:+ ".temp") else mret ()) w)
    as [[[] | e] w0] eqn:Hstale; [| discriminate].
  apply shutil_copy_ok in Hrun as (Hne & f & Hsrc & Htmp).
  split; [exact Hne |].
  destruct Htouch as (Hframe & _).
  assert (Hsrc1 : files w1 !! src = files w !! src) by (apply Hframe; set_solver).
  assert (Hsrc0 : files w0 !! src = files w !! src).
  { destruct (bool_decide _).
    - apply M_touches_remove in Hstale as (Hf & _). apply Hf. set_solver.
    - now injection Hstale as <-. }
  exists f. rewrite Hsrc1. rewrite <- Hsrc0. auto.
Qed.

Ltac all_seen :=
  repeat first [apply List.Forall_nil | apply List.Forall_cons; [assumption |]].

Lemma safeMove_tail_spec (src dst : string) (mod_ : N) (ftmp : file)
  (w2 r : World) (res : result unit) :
  files w2 !! (dst +:+ ".temp") = Some ftmp ->
  (_ ← os_rename (dst +:+ ".temp") dst; _ ← os_chmod dst mod_; os_remove src) w2
  = (res, r) ->
  (exists new, trace r = new ++ trace w2 /\ Forall (seen_from dst ftmp w2) new)
  /\ seen_from dst ftmp w2 (files r)
  /\ (res = Ok tt -> src <> dst -> src <> dst +:+ ".temp" ->
      files r !! src = None /\ files r !! dst = Some (mkfile (content ftmp) mod_)).
Proof.
  intros Htmp Hrun. pose proof (temp_ne dst) as Hne.
  rewrite bind_run, os_rename_run in Hrun.
  destruct (fault (calls w2)).
  { injection Hrun as <- <-. split; [exists []; split; [reflexivity | constructor] |].
    split; [now left | discriminate]. }
  rewrite Htmp in Hrun. rewrite bind_run, os_chmod_run in Hrun. simpl in Hrun.
  set (fs3 := <[dst := ftmp]> (delete (dst +:+ ".temp") (files w2))) in *.
  assert (H3 : fs3 !! dst = Some ftmp) by apply lookup_insert_eq.
  assert (S3 : seen_from dst ftmp w2 fs3).
  { right; right. now rewrite H3. }
  destruct (fault (S (calls w2))).
  { injection Hrun as <- <-. simpl.
    split; [exists [fs3]; split; [reflexivity | all_seen] |].
    split; [exact S3 | discriminate]. }
  rewrite H3 in Hrun. rewrite os_remove_run in Hrun. simpl in Hrun.
  set (fs4 := <[dst := mkfile (content ftmp) mod_]> fs3) in *.
  assert (H4 : fs4 !! dst = Some (mkfile (content ftmp) mod_)) by apply lookup_insert_eq.
  assert (S4 : seen_from dst ftmp w2 fs4).
  { right; right. now rewrite H4. }
  destruct (fault (S (S (calls w2)))).
  { injection Hrun as <- <-. simpl.
    split; [exists [fs4; fs3]; split; [reflexivity | all_seen] |].
    split; [exact S4 | discriminate]. }
  destruct (fs4 !! src) eqn:Hsrc; injection Hrun as <- <-; simpl.
  - assert (S5 : seen_from dst ftmp w2 (delete src fs4)).
    { destruct (decide (src = dst)) as [-> | Hsd].
      - right; left. apply lookup_delete_eq.
      - right; right. rewrite lookup_delete_ne by done. now rewrite H4. }
    split; [exists [delete src fs4; fs4; fs3]; split;
              [reflexivity | all_seen] |].
    split; [exact S5 |]. intros _ Hsd _. split; [apply lookup_delete_eq |].
    now rewrite lookup_delete_ne.
  - split; [exists [fs4; fs3]; split; [reflexivity | all_seen] |].
    split; [exact S4 | discriminate].
Qed.

Lemma safeMove_publish_spec (src dst : string) (mod_ : N) (ftmp : file)
  (w1 r : World) (res : result unit) :
  files w1 !! (dst +:+ ".temp") = Some ftmp ->
  safeMove_publish src dst mod_ w1 = (res, r) ->
  (exists new, trace r = new ++ trace w1 /\ Forall (seen_from dst ftmp w1) new)
  /\ seen_from dst ftmp w1 (files r)
  /\ (res = Ok tt -> src <> dst -> src <> dst +:+ ".temp" ->
      files r !! src = None /\ files r !! dst = Some (mkfile (content ftmp) mod_)).
Proof.
  intros Htmp Hrun. pose proof (temp_ne dst) as Hne.
  unfold safeMove_publish in Hrun. rewrite bind_run in Hrun. simpl in Hrun.
  rewrite bind_run in Hrun.
  destruct (bool_decide_reflect (is_Some (files w1 !! dst))) as [[fd Hd] | Hnone].
  - rewrite os_remove_run in Hrun.
    destruct (fault (calls w1)).
    { injection Hrun as <- <-. split; [exists []; split; [reflexivity | constructor] |].
      split; [now left | discriminate]. }
    rewrite Hd in Hrun.
    set (w2 := set_files (delete dst (files w1)) (tick w1)) in *.
    assert (Htmp2 : files w2 !! (dst +:+ ".temp") = Some ftmp).
    { simpl. now rewrite lookup_delete_ne. }
    assert (Hd2 : files w2 !! dst = None) by apply lookup_delete_eq.
    assert (Hweak : forall fs, seen_from dst ftmp w2 fs -> seen_from dst ftmp w1 fs).
    { intros fs [H | [H | H]]; [right; left; congruence | now right; left | now right; right]. }
    destruct (safeMove_tail_spec src dst mod_ ftmp w2 r res Htmp2 Hrun)
      as ((new & Htr & Hnew) & Hfin & Hok).
    split; [| split; [now apply Hweak | exact Hok]].
    exists (new ++ [files w2]). split.
    + rewrite Htr. simpl. now rewrite <- app_assoc.
    + apply Forall_app. split; [eapply Forall_impl; eauto |].
      constructor; [| constructor]. right; left. exact Hd2.
  - change ((mret tt : M unit) w1) with (Ok tt, w1) in Hrun.
    exact (safeMove_tail_spec src dst mod_ ftmp w1 r res Htmp Hrun).
Qed.

(** What a call of [_safeMove] does to [dst] and [src]. *)
Lemma safeMove_behaviour (src dst : string) (mod_ : N) (w : World) :
  let run := _safeMove src dst mod_ w in
  (exists new, observed dst (snd run) = new ++ observed dst w
     /\ Forall (prior_absent_or_new w src dst) new)
  /\ prior_absent_or_new w src dst (files (snd run) !! dst)
  /\ (forall e, fst (safeMove_copy src dst w) = Raise e ->
      run = safeMove_copy src dst w
      /\ files (snd run) !! dst = files w !! dst)
  /\ (fst run = Ok tt -> src <> dst ->
      files (snd run) !! src = None
      /\ exists f, files w !! src = Some f
           /\ files (snd run) !! dst = Some (mkfile (content f) mod_)).
Proof.
  intros run. destruct run as [res w'] eqn:Hrun. subst run. simpl fst. simpl snd.
  rewrite safeMove_halves, bind_run in Hrun.
  pose proof (temp_ne dst) as Hne. unfold observed.
  destruct (safeMove_copy src dst w) as [[[] | e] w1] eqn:Hcopy.
  - destruct (M_touches_safeMove_copy src dst _ _ _ Hcopy)
      as (Hframe & (new1 & Htr1 & Hnew1) & _).
    assert (Hd1 : files w1 !! dst = files w !! dst) by (apply Hframe; set_solver).
    apply safeMove_copy_ok in Hcopy as (Hst & f & Hsrc & Hsrc1 & Htmp).
    destruct (safeMove_publish_spec src dst mod_ _ _ _ _ Htmp Hrun)
      as ((new2 & Htr2 & Hnew2) & Hfin & Hok).
    assert (Hweak : forall fs, seen_from dst (mkfile (content f) (mode f)) w1 fs ->
                               prior_absent_or_new w src dst (fs !! dst)).
    { intros fs [H | [H | H]].
      - right; left. congruence.
      - now left.
      - right; right. exists f. split; [exact Hsrc | exact H]. }
    split; [| split; [now apply Hweak | split]].
    + exists (map (fun fs : FS => fs !! dst) (new2 ++ new1)). split.
      * now rewrite Htr2, Htr1, app_assoc, map_app.
      * apply List.Forall_map, Forall_app. split; [eapply Forall_impl; eauto |].
        eapply Forall_impl; [exact Hnew1 |]. simpl. intros fs Hfs.
        right; left. apply Hfs. set_solver.
    + discriminate.
    + intros Hres Hsd. destruct (Hok Hres Hsd Hst) as [Hgone Hdst].
      split; [exact Hgone |]. exists f. split; [exact Hsrc | exact Hdst].
  - injection Hrun as <- <-.
    destruct (M_touches_safeMove_copy src dst _ _ _ Hcopy)
      as (Hframe & (new1 & Htr1 & Hnew1) & _).
    assert (Hd1 : files w1 !! dst = files w !! dst) by (apply Hframe; set_solver).
    split; [| split; [right; left; exact Hd1 | split]].
    + exists (map (fun fs : FS => fs !! dst) new1). split.
      * now rewrite Htr1, map_app.
      * apply List.Forall_map. eapply Forall_impl; [exact Hnew1 |].
        simpl. intros fs Hfs. right; left. apply Hfs. set_solver.
    + intros e' _. auto.
    + discriminate.
Qed.

(** C2, as amended: through a call of [_safeMove] a reader of [dst] sees the
    file as it was, no file, or the whole new content, never a part of it;
    when the call fails in the copy or before it, [dst] is as it was; and
    after a successful call with [src] other than [dst], [src] is gone and
    [dst] holds the content of [src] with the given permissions. *)
Theorem safeMove_contract (src dst : string) (mod_ : N) (w : World) :
  let run := _safeMove src dst mod_ w in
  (exists new, observed dst (snd run) = new ++ observed dst w
     /\ Forall (prior_absent_or_new w src dst) new)
  /\ prior_absent_or_new w src dst (files (snd run) !! dst)
  /\ (forall e, fst (safeMove_copy src dst w) = Raise e ->
      run = safeMove_copy src dst w
      /\ files (snd run) !! dst = files w !! dst)
  /\ (fst run = Ok tt -> src <> dst ->
      files (snd run) !! src = None
      /\ exists f, files w !! src = Some f
           /\ files (snd run) !! dst = Some (mkfile (content f) mod_)).
Proof. exact (safeMove_behaviour src dst mod_ w). Qed.

End SafeMove.

Example safeMove_sample :
  let run := @_safeMove env_fine "tmp/x.tmp.tiff" "out/x.tiff" 420
               (world_of fs_old_new) in
  fst run = Ok tt
  /\ files (snd run) !! "tmp/x.tmp.tiff" = None
  /\ files (snd run) !! "out/x.tiff" = Some (mkfile "NEW RASTER" 420)
  /\ files (snd run) !! "out/x.tiff.temp" = None.
Proof. vm_compute. repeat split; reflexivity. Qed.

(** C2, as stated, fails.  In a call that succeeds, between the removal of
    [dst] and the rename a reader finds no file at [dst], neither the old one
    nor the new one; and when the rename fails, the call fails with [dst]
    gone, not in its state before the call. *)
Lemma safeMove_dst_missing :
  (let run := @_safeMove env_fine "tmp/x.tmp.tiff" "out/x.tiff" 420
                (world_of fs_old_new) in
   fst run = Ok tt
   /\ observed "out/x.tiff" (snd run) !! 3 = Some None
   /\ ~ prior_or_new (world_of fs_old_new) "tmp/x.tmp.tiff" "out/x.tiff" None)
  /\ (let run := @_safeMove (env_fault_at 2) "tmp/x.tmp.tiff" "out/x.tiff" 420
                   (world_of fs_old_new) in
      fst run = Raise (OSError 2)
      /\ files (world_of fs_old_new) !! "out/x.tiff" = Some (mkfile "OLD RASTER" 420)
      /\ files (snd run) !! "out/x.tiff" = None).
Proof.
  split.
  - split; [vm_compute; reflexivity |]. split; [vm_compute; reflexivity |].
    intros [H | (f & _ & H)]; vm_compute in H; discriminate.
  - vm_compute. repeat split; reflexivity.
Qed.

(** ** The conversion loop: frames *)

(** Take the first bind of a run apart; a failure there ends the goal. *)
Ltac run_step H a w1 Heq :=
  rewrite bind_run in H;
  match type of H with
  | (let (_, _) := ?m ?w in _) = _ =>
      destruct (m w) as [[a | ?] w1] eqn:Heq; [| try discriminate]
  end.

Ltac touches_sub lem := eapply M_touches_mono; [| apply lem]; set_solver.

Section Pipeline.
Context `{E : Env}.

Lemma M_touches_runShellCmd (cmd target : string) :
  M_touches [target] (_runShellCmd cmd target).
Proof.
  intros w r w' Hrun. unfold _runShellCmd in Hrun.
  assert (Hlog : forall z, touches [target] w (log_exit cmd z (log_cmd cmd w)))
    by (intros z; now apply touches_same).
  assert (Hwrite : forall out z,
    touches [target] w
      (set_files (write_file target out (files w)) (log_exit cmd z (log_cmd cmd w)))).
  { intros out z. eapply touches_trans; [apply Hlog |].
    apply touches_set_files. intros q Hq. apply lookup_insert_ne. set_solver. }
  destruct (toolchain cmd (files w)) as [out | [out |]]; injection Hrun as <- <-; auto.
Qed.

Lemma M_touches_gdal (tiffFile : string) (md bmd : dict) (desc : string) :
  M_touches [tiffFile] (gdal_set_metadata tiffFile md bmd desc).
Proof.
  apply M_touches_syscall. intros w r w' Hrun.
  destruct (files w !! tiffFile); injection Hrun as <- <-.
  - apply touches_set_files. intros q Hq. apply lookup_insert_ne. set_solver.
  - apply touches_refl.
Qed.

Lemma band_paths_of (cfg : CogCfg) (b : BandInfo) (f : string) :
  cogFile_of cfg b = Ok f ->
  band_output cfg b = [cogPath_of cfg f] /\ band_temps cfg b = temp_paths cfg f.
Proof. intros H. unfold band_output, band_temps. now rewrite H. Qed.

Lemma M_touches_bind_lift {A B} (T : list string) (r : result A) (k : A -> M B) :
  (forall a, r = Ok a -> M_touches T (k a)) -> M_touches T (lift r ≫= k).
Proof.
  intros Hk w r' w' Hrun. rewrite bind_run in Hrun. unfold lift in Hrun.
  destruct r as [a | e].
  - eapply Hk; eauto.
  - injection Hrun as <- <-. apply touches_refl.
Qed.

(** A band works on its own paths only. *)
Lemma M_touches_processBand (cfg : CogCfg) (attrs : dict) (b : BandInfo)
  (a : dict) (t : list string) :
  M_touches (band_output cfg b ++ band_temps cfg b) (processBand cfg attrs (b, a) t).
Proof.
  unfold processBand.
  apply M_touches_bind_lift. intros f Hf.
  destruct (band_paths_of cfg b f Hf) as [-> ->].
  unfold temp_paths, tiffFile_of, cogTmpFile_of.
  set (base := tempBasePath_of cfg f).
  apply M_touches_bind; [apply M_touches_isfile | intros present].
  destruct (negb (overwriteExistingFiles cfg) && present); [apply M_touches_ret |].
  apply M_touches_bind; [touches_sub M_touches_runShellCmd | intros _].
  apply M_touches_bind; [| intros t'].
  { destruct (nonempty (cogOverviews cfg)); [| apply M_touches_ret].
    apply M_touches_bind; [touches_sub M_touches_runShellCmd | intros _].
    apply M_touches_bind; [touches_sub M_touches_runShellCmd | intros _].
    apply M_touches_ret. }
  apply M_touches_bind; [apply M_touches_lift | intros md].
  apply M_touches_bind; [apply M_touches_lift | intros bmd].
  apply M_touches_bind; [touches_sub M_touches_gdal | intros _].
  apply M_touches_bind; [touches_sub M_touches_runShellCmd | intros _].
  apply M_touches_bind; [| intros _; apply M_touches_ret].
  touches_sub M_touches_safeMove.
Qed.

Lemma M_touches_removeTempFiles (l : list string) :
  M_touches l (removeTempFiles l).
Proof.
  induction l as [|p l IH]; simpl.
  - apply M_touches_ret.
  - apply M_touches_bind; [touches_sub M_touches_remove | intros _].
    eapply M_touches_mono; [| exact IH]. set_solver.
Qed.

(** Removing never creates: what is absent stays absent, what is removed
    is absent. *)
Lemma os_remove_absent (p q : string) (w w' : World) (r : result unit) :
  os_remove p w = (r, w') ->
  (files w !! q = None -> files w' !! q = None)
  /\ (r = Ok tt -> files w' !! p = None).
Proof.
  rewrite os_remove_run. destruct (fault (calls w)).
  { intros [= <- <-]. split; [auto | discriminate]. }
  destruct (files w !! p); intros [= <- <-]; simpl.
  - split; [| intros _; apply lookup_delete_eq].
    intros Hq. destruct (decide (p = q)) as [-> | Hne];
      [apply lookup_delete_eq | now rewrite lookup_delete_ne].
  - split; [auto | discriminate].
Qed.

Lemma removeTempFiles_absent (l : list string) (w w' : World) (q : string) :
  removeTempFiles l w = (Ok tt, w') ->
  (files w !! q = None -> files w' !! q = None)
  /\ (q ∈ l -> files w' !! q = None).
Proof.
  revert w. induction l as [|p l IH]; intros w Hrun; simpl in Hrun.
  - injection Hrun as <-. split; [auto |]. intros H. now apply elem_of_nil in H.
  - rewrite bind_run in Hrun.
    destruct (os_remove p w) as [[[] | e] w1] eqn:Hrm; [| discriminate].
    destruct (os_remove_absent p q _ _ _ Hrm) as [Hkeep Hgone].
    destruct (IH _ Hrun) as [Hkeep' Hin]. split; [auto |].
    intros Hq. apply elem_of_cons in Hq as [-> | Hq]; auto.
Qed.

(** ** The conversion loop: how a run unfolds *)

Lemma cogProcessor_run (cfg : CogCfg) (src : Dataset) (w : World) :
  cogProcessor cfg src w =
  match prelude cfg w with
  | (Raise e, w0) => (Raise e, w0)
  | (Ok _, w0) =>
      match attach_attributes cfg src (bandInfoList cfg) with
      | Raise e => (Raise e, w0)
      | Ok bands =>
          match bandLoop cfg (ncattrs src) bands [] w0 with
          | (Raise e, w1) => (Raise e, w1)
          | (Ok (outcomes, tempFileList), w1) =>
              match removeTempFiles tempFileList w1 with
              | (Raise e, w2) => (Raise e, w2)
              | (Ok _, w2) => (Ok outcomes, w2)
              end
          end
      end
  end.
Proof.
  unfold cogProcessor, prelude. rewrite !bind_run.
  destruct (ensureFolder (outFolder cfg) w) as [[[] | e] w0']; [| reflexivity].
  rewrite bind_run.
  destruct (ensureFolder (tmpFolder cfg) w0') as [[[] | e] w0]; [| reflexivity].
  rewrite bind_run. unfold lift.
  destruct (attach_attributes cfg src (bandInfoList cfg)) as [bands | e];
    [| reflexivity].
  rewrite bind_run.
  destruct (bandLoop cfg (ncattrs src) bands [] w0) as [[[outs t] | e] w1];
    [| reflexivity].
  rewrite bind_run.
  now destruct (removeTempFiles t w1) as [[[] | e] w2].
Qed.

Lemma bandLoop_cons (cfg : CogCfg) (attrs : dict) (ba : BandInfo * dict)
  (rest : list (BandInfo * dict)) (t : list string) (w : World) :
  bandLoop cfg attrs (ba :: rest) t w =
  match processBand cfg attrs ba t w with
  | (Raise e, w1) => (Raise e, w1)
  | (Ok (o, t1), w1) =>
      match bandLoop cfg attrs rest t1 w1 with
      | (Raise e, w2) => (Raise e, w2)
      | (Ok (os, t2), w2) => (Ok (o :: os, t2), w2)
      end
  end.
Proof.
  cbn [bandLoop]. rewrite bind_run.
  destruct (processBand cfg attrs ba t w) as [[[o t1] | e] w1]; [| reflexivity].
  rewrite bind_run.
  now destruct (bandLoop cfg attrs rest t1 w1) as [[[os t2] | e] w2].
Qed.

(** A band that fails ends the loop: the bands after it are not run. *)
Lemma bandLoop_app_raise (cfg : CogCfg) (attrs : dict)
  (bands post : list (BandInfo * dict)) :
  forall t w e w',
    bandLoop cfg attrs bands t w = (Raise e, w') ->
    bandLoop cfg attrs (bands ++ post) t w = (Raise e, w').
Proof.
  induction bands as [|ba bands IH]; intros t w e w' Hrun; [discriminate |].
  rewrite <- app_comm_cons, bandLoop_cons. rewrite bandLoop_cons in Hrun.
  destruct (processBand cfg attrs ba t w) as [[[o t1] | e1] w1]; [| exact Hrun].
  destruct (bandLoop cfg attrs bands t1 w1) as [[[os t2] | e2] w2] eqn:Hrest;
    [discriminate |].
  injection Hrun as <- <-. now rewrite (IH _ _ _ _ Hrest).
Qed.

Lemma attach_attributes_app (cfg : CogCfg) (src : Dataset) (l1 l2 : list BandInfo) :
  attach_attributes cfg src (l1 ++ l2) =
  (a ← attach_attributes cfg src l1;
   b ← attach_attributes cfg src l2;
   Ok (a ++ b)).
Proof.
  induction l1 as [|b l1 IH]; simpl.
  - now destruct (attach_attributes cfg src l2).
  - destruct (variable_attributes _ _); [| reflexivity].
    rewrite IH. destruct (attach_attributes cfg src l1); [| reflexivity].
    simpl. now destruct (attach_attributes cfg src l2).
Qed.

Lemma attach_attributes_found (cfg : CogCfg) (src : Dataset) (l : list BandInfo) :
  (forall b, b ∈ l -> is_Some (variable_attributes (inBand b) (variables src))) ->
  is_ok (attach_attributes cfg src l) = true.
Proof.
  induction l as [|b l IH]; intros H; [reflexivity |]. simpl.
  destruct (H b) as [a ->]; [now left |].
  destruct (attach_attributes cfg src l) eqn:Hl; [reflexivity |].
  discriminate IH. intros b' Hb'. apply H. now right.
Qed.

Lemma attach_attributes_fst (cfg : CogCfg) (src : Dataset) (l : list BandInfo) :
  forall bands, attach_attributes cfg src l = Ok bands -> map fst bands = l.
Proof.
  induction l as [|b l IH]; intros bands H; simpl in H.
  - now injection H as <-.
  - destruct (variable_attributes _ _); [| discriminate].
    destruct (attach_attributes cfg src l) as [rest |]; [| discriminate].
    injection H as <-. simpl. now rewrite (IH rest).
Qed.

Lemma attach_attributes_with_bands (cfg : CogCfg) (src : Dataset)
  (l l' : list BandInfo) :
  attach_attributes (with_bands cfg l') src l = attach_attributes cfg src l.
Proof. induction l as [|b l IH]; simpl; [reflexivity | now rewrite IH]. Qed.

Lemma bandLoop_with_bands (cfg : CogCfg) (attrs : dict) (l' : list BandInfo)
  (bands : list (BandInfo * dict)) :
  forall t w, bandLoop (with_bands cfg l') attrs bands t w = bandLoop cfg attrs bands t w.
Proof.
  induction bands as [|ba bands IH]; intros t w; [reflexivity |].
  rewrite !bandLoop_cons.
  change (processBand (with_bands cfg l') attrs ba t w)
    with (processBand cfg attrs ba t w).
  destruct (processBand cfg attrs ba t w) as [[[o t1] | e] w1]; [| reflexivity].
  now rewrite IH.
Qed.

(** The clean-up fails with an error of the operating system only. *)
Lemma removeTempFiles_raise (l : list string) :
  forall w e w', removeTempFiles l w = (Raise e, w') ->
  forall cmd, e <> CalledProcessError cmd.
Proof.
  induction l as [|p l IH]; intros w e w' Hrun cmd; simpl in Hrun; [discriminate |].
  rewrite bind_run in Hrun.
  destruct (os_remove p w) as [[[] | e1] w1] eqn:Hrm; [now apply (IH _ _ _ Hrun) |].
  injection Hrun as <- <-. rewrite os_remove_run in Hrm.
  destruct (fault (calls w)); [now injection Hrm as <- |].
  destruct (files w !! p); [discriminate | now injection Hrm as <-].
Qed.

End Pipeline.

Section Abort.
Context `{E : Env}.

(** *** No failure of a command is swallowed *)

Lemma strict_still {A} (w : World) (r : result A) (w' : World) :
  ran w' = ran w -> cmds w' = cmds w -> no_failure_swallowed w r w'.
Proof.
  intros Hr Hc. exists []. rewrite Hr, Hc, !app_nil_r.
  split; [reflexivity |]. split; [reflexivity |]. left. constructor.
Qed.

Lemma M_still_strict {A} (m : M A) : M_still m -> M_strict m.
Proof. intros Hm w r w' Hrun. destruct (Hm w r w' Hrun). now apply strict_still. Qed.

Lemma M_strict_bind {A B} (m : M A) (k : A -> M B) :
  M_strict m -> (forall a, M_strict (k a)) -> M_strict (m ≫= k).
Proof.
  intros Hm Hk w r w' Hrun. rewrite bind_run in Hrun.
  destruct (m w) as [[a | e] w1] eqn:Hmw.
  - destruct (Hm w _ w1 Hmw) as (l1 & Hr1 & Hc1 & Hl1).
    assert (Hok1 : Forall (fun c : string * bool => snd c = true) l1).
    { destruct Hl1 as [Hok | (l0 & cmd & e & _ & _ & He & _)];
        [exact Hok | discriminate]. }
    destruct (Hk a w1 r w' Hrun) as (l2 & Hr2 & Hc2 & Hl2).
    exists (l1 ++ l2). split; [now rewrite Hr2, Hr1, app_assoc |].
    split; [now rewrite Hc2, Hc1, map_app, app_assoc |].
    destruct Hl2 as [Hok2 | (l0 & cmd & e & -> & Hok0 & He & Hkind)].
    + left. now apply Forall_app.
    + right. exists (l1 ++ l0), cmd, e. rewrite app_assoc.
      split; [reflexivity |]. split; [now apply Forall_app | auto].
  - injection Hrun as <- <-.
    destruct (Hm w _ w1 Hmw) as (l1 & Hr1 & Hc1 & Hl1).
    exists l1. split; [exact Hr1 |]. split; [exact Hc1 |].
    destruct Hl1 as [Hok | (l0 & cmd & e' & Hl & Hok0 & He & Hkind)];
      [now left | right].
    exists l0, cmd, e'. injection He as ->. auto.
Qed.

Lemma M_still_ret {A} (a : A) : M_still (mret a).
Proof. now intros w r w' [= <- <-]. Qed.

Lemma M_still_lift {A} (r : result A) : M_still (lift r).
Proof. now intros w r' w' [= <- <-]. Qed.

Lemma M_still_bind {A B} (m : M A) (k : A -> M B) :
  M_still m -> (forall a, M_still (k a)) -> M_still (m ≫= k).
Proof.
  intros Hm Hk w r w' Hrun. rewrite bind_run in Hrun.
  destruct (m w) as [[a | e] w1] eqn:Hmw.
  - destruct (Hk a _ _ _ Hrun) as [-> ->]. eapply Hm; eauto.
  - injection Hrun as <- <-. eapply Hm; eauto.
Qed.

Lemma M_still_syscall {A} (act : M A) : M_still act -> M_still (syscall act).
Proof.
  intros Hact w r w' Hrun. unfold syscall in Hrun.
  destruct (fault (calls w)); [now injection Hrun as <- <- |].
  now destruct (Hact _ _ _ Hrun) as [-> ->].
Qed.

Lemma M_still_isfile (p : string) : M_still (os_path_isfile p).
Proof. now intros w r w' [= <- <-]. Qed.

Lemma M_still_isdir (p : string) : M_still (os_path_isdir p).
Proof. now intros w r w' [= <- <-]. Qed.

Lemma M_still_remove (p : string) : M_still (os_remove p).
Proof.
  apply M_still_syscall. intros w r w' Hrun.
  now destruct (files w !! p); injection Hrun as <- <-.
Qed.

Lemma M_still_rename (a b : string) : M_still (os_rename a b).
Proof.
  apply M_still_syscall. intros w r w' Hrun.
  now destruct (files w !! a); injection Hrun as <- <-.
Qed.

Lemma M_still_chmod (p : string) (m : N) : M_still (os_chmod p m).
Proof.
  apply M_still_syscall. intros w r w' Hrun.
  now destruct (files w !! p); injection Hrun as <- <-.
Qed.

Lemma M_still_makedirs (d : string) (m : N) : M_still (os_makedirs d m).
Proof.
  intros w r w' Hrun. unfold os_makedirs in Hrun.
  destruct (fault (calls w)); injection Hrun as <- <-;
    now rewrite add_dirs_ran, add_dirs_cmds.
Qed.

Lemma log_write_chunks (dst c : string) (m : N) (j : nat) (w : World) :
  ran (write_chunks dst c m j w) = ran w /\ cmds (write_chunks dst c m j w) = cmds w.
Proof. induction j as [|j IH]; simpl; [auto | exact IH]. Qed.

Lemma M_still_copy (src dst : string) : M_still (shutil_copy src dst).
Proof.
  intros w r w' Hrun. unfold shutil_copy in Hrun.
  destruct (files (tick w) !! src) as [f |]; [| now injection Hrun as <- <-].
  destruct (bool_decide (src = dst)); [now injection Hrun as <- <- |].
  destruct (fault (calls w)); injection Hrun as <- <-; simpl;
    match goal with
    | |- context [write_chunks ?d ?c ?m ?j ?w0] =>
        destruct (log_write_chunks d c m j w0) as [-> ->]
    end; auto.
Qed.

Lemma M_still_gdal (tiffFile : string) (md bmd : dict) (desc : string) :
  M_still (gdal_set_metadata tiffFile md bmd desc).
Proof.
  apply M_still_syscall. intros w r w' Hrun.
  now destruct (files w !! tiffFile); injection Hrun as <- <-.
Qed.

Lemma M_still_safeMove (src dst : string) (mod_ : N) :
  M_still (_safeMove src dst mod_).
Proof.
  unfold _safeMove.
  apply M_still_bind; [apply M_still_isfile | intros stale].
  apply M_still_bind; [destruct stale; [apply M_still_remove | apply M_still_ret] |].
  intros _. apply M_still_bind; [apply M_still_copy | intros _].
  apply M_still_bind; [apply M_still_isfile | intros present].
  apply M_still_bind; [destruct present; [apply M_still_remove | apply M_still_ret] |].
  intros _. apply M_still_bind; [apply M_still_rename | intros _].
  apply M_still_bind; [apply M_still_chmod | intros _]. apply M_still_remove.
Qed.

Lemma M_still_safeMakeDirs_retry (n : nat) (d : string) (m : N) :
  M_still (_safeMakeDirs_retry n d m).
Proof.
  induction n as [|n IH]; intros w r w' Hrun; simpl in Hrun.
  - destruct (os_makedirs d m w) as [[[] | e] w1] eqn:Hmk;
      injection Hrun as <- <-; eapply M_still_makedirs; eauto.
  - destruct (os_makedirs d m w) as [[[] | e] w1] eqn:Hmk.
    + injection Hrun as <- <-. eapply M_still_makedirs; eauto.
    + destruct (M_still_makedirs d m _ _ _ Hmk) as [<- <-].
      rewrite bind_run in Hrun. simpl in Hrun. rewrite bind_run in Hrun.
      simpl in Hrun. destruct (bool_decide (d ∈ dirs w1)).
      * now injection Hrun as <- <-.
      * eapply IH; eauto.
Qed.

Lemma M_still_prelude (cfg : CogCfg) : M_still (prelude cfg).
Proof.
  assert (Hfolder : forall d, M_still (ensureFolder d)).
  { intros d. unfold ensureFolder.
    apply M_still_bind; [apply M_still_isdir | intros isdir].
    destruct isdir; [apply M_still_ret | apply M_still_safeMakeDirs_retry]. }
  unfold prelude. apply M_still_bind; [apply Hfolder | intros _; apply Hfolder].
Qed.

Lemma M_still_removeTempFiles (l : list string) : M_still (removeTempFiles l).
Proof.
  induction l as [|p l IH]; cbn [removeTempFiles]; [apply M_still_ret |].
  apply M_still_bind; [apply M_still_remove | intros _; exact IH].
Qed.

(** What [_runShellCmd] returns and records, by the exit of the command. *)
Lemma runShellCmd_exit (cmd target : string) (w : World) :
  ran (snd (_runShellCmd cmd target w))
  = ran w ++ [(cmd, exited_zero (toolchain cmd (files w)))]
  /\ cmds (snd (_runShellCmd cmd target w)) = cmds w ++ [cmd]
  /\ fst (_runShellCmd cmd target w)
     = if exited_zero (toolchain cmd (files w))
       then decode_output (console cmd (files w))
       else (_ ← decode_output (console cmd (files w));
             Raise (CalledProcessError cmd)).
Proof.
  unfold _runShellCmd.
  destruct (toolchain cmd (files w)) as [out | [out |]]; simpl; auto.
Qed.

Lemma M_strict_runShellCmd (cmd target : string) :
  M_strict (_runShellCmd cmd target).
Proof.
  intros w r w' Hrun.
  destruct (runShellCmd_exit cmd target w) as (Hran & Hcmds & Hres).
  rewrite Hrun in Hran, Hcmds, Hres. simpl in Hran, Hcmds, Hres.
  exists [(cmd, exited_zero (toolchain cmd (files w)))].
  split; [exact Hran |]. split; [exact Hcmds |].
  destruct (exited_zero (toolchain cmd (files w))).
  - left. now constructor.
  - right. exists [], cmd. unfold decode_output in Hres.
    destruct (forallb Py.utf8_valid (Py.splitlines (console cmd (files w))));
      simpl in Hres; subst r; eexists; (split; [reflexivity |]);
      (split; [constructor |]); (split; [reflexivity |]); auto.
Qed.

(** The turn of a band swallows no failure of its commands: not that of the
    extraction, of the cleaning or the building of the overviews, nor that
    of the final encoding. *)
Lemma M_strict_processBand (cfg : CogCfg) (attrs : dict) (ba : BandInfo * dict)
  (t : list string) :
  M_strict (processBand cfg attrs ba t).
Proof.
  destruct ba as [b a]. unfold processBand.
  apply M_strict_bind; [apply M_still_strict, M_still_lift | intros f].
  apply M_strict_bind; [apply M_still_strict, M_still_isfile | intros present].
  destruct (negb (overwriteExistingFiles cfg) && present);
    [apply M_still_strict, M_still_ret |].
  apply M_strict_bind; [apply M_strict_runShellCmd | intros _].
  apply M_strict_bind; [| intros t'].
  { destruct (nonempty (cogOverviews cfg)); [| apply M_still_strict, M_still_ret].
    apply M_strict_bind; [apply M_strict_runShellCmd | intros _].
    apply M_strict_bind; [apply M_strict_runShellCmd | intros _].
    apply M_still_strict, M_still_ret. }
  apply M_strict_bind; [apply M_still_strict, M_still_lift | intros md].
  apply M_strict_bind; [apply M_still_strict, M_still_lift | intros bmd].
  apply M_strict_bind; [apply M_still_strict, M_still_gdal | intros _].
  apply M_strict_bind; [apply M_strict_runShellCmd | intros _].
  apply M_strict_bind; [apply M_still_strict, M_still_safeMove | intros _].
  apply M_still_strict, M_still_ret.
Qed.

Lemma M_strict_bandLoop (cfg : CogCfg) (attrs : dict)
  (bands : list (BandInfo * dict)) :
  forall t, M_strict (bandLoop cfg attrs bands t).
Proof.
  induction bands as [|ba bands IH]; intros t; cbn [bandLoop].
  - apply M_still_strict, M_still_ret.
  - apply M_strict_bind; [apply M_strict_processBand | intros [o t1]].
    apply M_strict_bind; [apply IH | intros [os t2]].
    apply M_still_strict, M_still_ret.
Qed.

Lemma M_strict_cogProcessor (cfg : CogCfg) (src : Dataset) :
  M_strict (cogProcessor cfg src).
Proof.
  unfold cogProcessor.
  apply M_strict_bind; [apply M_still_strict, M_still_bind | intros _].
  { apply M_still_isdir. }
  { intros isdir. destruct isdir; [apply M_still_ret |].
    apply M_still_safeMakeDirs_retry. }
  apply M_strict_bind; [apply M_still_strict, M_still_bind | intros _].
  { apply M_still_isdir. }
  { intros isdir. destruct isdir; [apply M_still_ret |].
    apply M_still_safeMakeDirs_retry. }
  apply M_strict_bind; [apply M_still_strict, M_still_lift | intros bands].
  apply M_strict_bind; [apply M_strict_bandLoop | intros [outs tl]].
  apply M_strict_bind; [apply M_still_strict, M_still_removeTempFiles | intros _].
  apply M_still_strict, M_still_ret.
Qed.

Lemma removeTempFiles_raise_kind (l : list string) :
  forall w e w', removeTempFiles l w = (Raise e, w') ->
  e <> UnicodeDecodeError.
Proof.
  induction l as [|p l IH]; intros w e w' Hrun; simpl in Hrun; [discriminate |].
  rewrite bind_run in Hrun.
  destruct (os_remove p w) as [[[] | e1] w1] eqn:Hrm; [now apply (IH _ _ _ Hrun) |].
  injection Hrun as <- <-. rewrite os_remove_run in Hrm.
  destruct (fault (calls w)); [now injection Hrm as <- |].
  destruct (files w !! p); [discriminate | now injection Hrm as <-].
Qed.

(** C1, as amended: a command that exits with a failure makes
    [_runShellCmd] raise (its [CalledProcessError], or the
    [UnicodeDecodeError] of the logging of its output); whichever command of
    whichever band it is, the turn of the band, the loop and [cogProcessor]
    raise that error and run nothing after it; the loop ends at the band
    that fails, and the bands configured after it are not processed (a job
    with further bands appended ends with the same error in the same
    state). *)
Theorem toolchain_failure_aborts (cfg : CogCfg) (src : Dataset) (w : World) :
  (forall cmd target,
     exited_zero (toolchain cmd (files w)) = false ->
     fst (_runShellCmd cmd target w)
     = (_ ← decode_output (console cmd (files w)); Raise (CalledProcessError cmd))
     /\ ran (snd (_runShellCmd cmd target w)) = ran w ++ [(cmd, false)])
  /\ (forall cmd target,
        exited_zero (toolchain cmd (files w)) = true ->
        ran (snd (_runShellCmd cmd target w)) = ran w ++ [(cmd, true)])
  /\ (forall attrs ba t,
        no_failure_swallowed w (fst (processBand cfg attrs ba t w))
          (snd (processBand cfg attrs ba t w)))
  /\ (forall attrs bands t,
        no_failure_swallowed w (fst (bandLoop cfg attrs bands t w))
          (snd (bandLoop cfg attrs bands t w)))
  /\ no_failure_swallowed w (fst (cogProcessor cfg src w))
       (snd (cogProcessor cfg src w))
  /\ (forall attrs ba rest t e,
        fst (processBand cfg attrs ba t w) = Raise e ->
        bandLoop cfg attrs (ba :: rest) t w
        = (Raise e, snd (processBand cfg attrs ba t w)))
  /\ (forall post e,
        fst (cogProcessor cfg src w) = Raise e ->
        (exists cmd, e = CalledProcessError cmd) \/ e = UnicodeDecodeError ->
        (forall b, b ∈ post ->
           is_Some (variable_attributes (inBand b) (variables src))) ->
        cogProcessor (with_bands cfg (bandInfoList cfg ++ post)) src w
        = cogProcessor cfg src w).
Proof.
  split; [| split; [| split; [| split; [| split; [| split]]]]].
  - intros cmd target Hexit.
    destruct (runShellCmd_exit cmd target w) as (Hran & _ & Hres).
    rewrite Hexit in Hran, Hres. auto.
  - intros cmd target Hexit.
    destruct (runShellCmd_exit cmd target w) as (Hran & _ & _).
    now rewrite Hexit in Hran.
  - intros attrs ba t.
    apply (M_strict_processBand cfg attrs ba t w). apply surjective_pairing.
  - intros attrs bands t.
    apply (M_strict_bandLoop cfg attrs bands t w). apply surjective_pairing.
  - apply (M_strict_cogProcessor cfg src w). apply surjective_pairing.
  - intros attrs ba rest t e Hraise. rewrite bandLoop_cons.
    destruct (processBand cfg attrs ba t w) as [[[o t1] | e1] w1];
      [discriminate |]. simpl in Hraise. now injection Hraise as ->.
  - intros post e Hraise Hkind Hfound.
    rewrite !cogProcessor_run in *.
    change (prelude (with_bands cfg (bandInfoList cfg ++ post)) w)
      with (prelude cfg w).
    destruct (prelude cfg w) as [[[] | e0] w0]; [| reflexivity].
    cbn [bandInfoList with_bands].
    rewrite attach_attributes_with_bands, attach_attributes_app.
    destruct (attach_attributes cfg src (bandInfoList cfg)) as [bands | e1];
      [| reflexivity].
    apply (attach_attributes_found cfg) in Hfound.
    destruct (attach_attributes cfg src post) as [bands' |]; [| discriminate].
    cbn [mbind result_bind]. rewrite bandLoop_with_bands.
    destruct (bandLoop cfg (ncattrs src) bands [] w0) as [[[outs tl] | e2] w1] eqn:Hloop.
    + destruct (removeTempFiles tl w1) as [[[] | e3] w2] eqn:Hclean;
        [discriminate |].
      simpl in Hraise. injection Hraise as ->. exfalso.
      destruct Hkind as [[cmd ->] | ->].
      * now apply (removeTempFiles_raise _ _ _ _ Hclean cmd).
      * now apply (removeTempFiles_raise_kind _ _ _ _ Hclean).
    + now rewrite (bandLoop_app_raise cfg _ bands bands' _ _ _ _ Hloop).
Qed.

End Abort.

Lemma toolchain_failure_aborts_witness :
  (fst (@cogProcessor env_broken (cfg_ndvi [band_ndvi]) src_ndvi (world_of ∅))
   = Raise (CalledProcessError
              (cmd_base (cfg_ndvi [band_ndvi]) band_ndvi
                 "/tmp/cog/c_gls_NDVI300-NDVI_202404010000_GLOBE_OLCI_V2.0.1_base.tiff"))
   /\ forall b, b ∈ [band_unc] ->
        is_Some (variable_attributes (inBand b) (variables src_ndvi)))
  /\ @cogProcessor env_broken
       (with_bands (cfg_ndvi [band_ndvi]) (bandInfoList (cfg_ndvi [band_ndvi]) ++ [band_unc]))
       src_ndvi (world_of ∅)
     = @cogProcessor env_broken (cfg_ndvi [band_ndvi]) src_ndvi (world_of ∅).
Proof.
  assert (H1 : fst (@cogProcessor env_broken (cfg_ndvi [band_ndvi]) src_ndvi (world_of ∅))
    = Raise (CalledProcessError
               (cmd_base (cfg_ndvi [band_ndvi]) band_ndvi
                  "/tmp/cog/c_gls_NDVI300-NDVI_202404010000_GLOBE_OLCI_V2.0.1_base.tiff")))
    by (vm_compute; reflexivity).
  assert (H2 : forall b, b ∈ [band_unc] ->
                 is_Some (variable_attributes (inBand b) (variables src_ndvi))).
  { intros b Hb. apply list_elem_of_singleton in Hb. subst b.
    exists attrs_scalars. reflexivity. }
  split; [now split |].
  exact (proj2 (proj2 (proj2 (proj2 (proj2 (proj2
           (@toolchain_failure_aborts env_broken (cfg_ndvi [band_ndvi])
              src_ndvi (world_of ∅)))))))
           [band_unc] _ H1 (or_introl (ex_intro _ _ eq_refl)) H2).
Defined.

(** A failure of the cleaning of the overviews, after the extraction went
    well, ends the job in the same way: two commands were run, the second
    failed, and its error comes out. *)
Example overview_failure_sample :
  let cfg := cfg_ndvi [band_ndvi; band_unc] in
  let run := @cogProcessor env_clean_fails cfg src_ndvi (world_of ∅) in
  fst run
  = Raise (CalledProcessError
             (cmd_clean
                "/tmp/cog/c_gls_NDVI300-NDVI_202404010000_GLOBE_OLCI_V2.0.1_base.tiff"))
  /\ map snd (ran (snd run)) = [true; false]
  /\ band_attempted cfg band_unc (snd run) = false.
Proof. vm_compute. repeat split; reflexivity. Qed.

(** A command that exits with 0 and prints a byte that is not UTF-8 ends
    the job as well, on the logging of its output. *)
Example garbled_output_sample :
  let cfg := cfg_ndvi [band_ndvi; band_unc] in
  let run := @cogProcessor env_garbled cfg src_ndvi (world_of ∅) in
  fst run = Raise UnicodeDecodeError
  /\ map snd (ran (snd run)) = [true].
Proof. vm_compute. repeat split; reflexivity. Qed.

(** C1, as stated, fails: with a toolchain that fails, the job of two bands
    ends on the error of the first; the second band is never attempted. *)
Lemma toolchain_failure_stops_job :
  let cfg := cfg_ndvi [band_ndvi; band_unc] in
  let run := @cogProcessor env_broken cfg src_ndvi (world_of ∅) in
  fst run
  = Raise (CalledProcessError
             (cmd_base cfg band_ndvi
                "/tmp/cog/c_gls_NDVI300-NDVI_202404010000_GLOBE_OLCI_V2.0.1_base.tiff"))
  /\ band_attempted cfg band_ndvi (snd run) = true
  /\ band_attempted cfg band_unc (snd run) = false
  /\ length (cmds (snd run)) = 1.
Proof. vm_compute. repeat split; reflexivity. Qed.

Section Cleanup.
Context `{E : Env}.

(** How a turn of the loop that does not fail ends. *)
Lemma processBand_ok (cfg : CogCfg) (attrs : dict) (b : BandInfo) (a : dict)
  (t t' : list string) (w w' : World) (o : outcome) :
  processBand cfg attrs (b, a) t w = (Ok (o, t'), w') ->
  exists f, cogFile_of cfg b = Ok f
    /\ match o with
       | Skipped =>
           t' = t /\ w' = w
           /\ overwriteExistingFiles cfg = false
           /\ is_Some (files w !! cogPath_of cfg f)
       | Published =>
           t' = t ++ recorded_temps cfg f
           /\ (cogTmpFile_of cfg f <> cogPath_of cfg f ->
               is_Some (files w' !! cogPath_of cfg f))
       end.
Proof.
  intros Hrun. unfold processBand in Hrun.
  rewrite bind_run in Hrun. unfold lift in Hrun.
  destruct (cogFile_of cfg b) as [f |]; [| discriminate].
  exists f. split; [reflexivity |].
  rewrite bind_run in Hrun. unfold os_path_isfile in Hrun.
  destruct (negb (overwriteExistingFiles cfg)
            && bool_decide (is_Some (files w !! cogPath_of cfg f))) eqn:Hskip.
  { injection Hrun as <- <- <-. apply andb_prop in Hskip as [Hov Hpres].
    apply negb_true_iff in Hov. apply bool_decide_eq_true in Hpres. auto. }
  run_step Hrun u1 w1 H1.
  run_step Hrun tfl w2 H2.
  assert (Htl : tfl = t ++ recorded_temps cfg f).
  { unfold recorded_temps, tiffFile_of.
    destruct (nonempty (cogOverviews cfg)).
    - run_step H2 u2 w21 H21. run_step H2 u3 w22 H22.
      injection H2 as <- <-. now rewrite <- app_assoc.
    - now injection H2 as <- <-. }
  rewrite bind_run in Hrun. unfold lift in Hrun.
  destruct (_convertFileAttributes attrs (attributeConversion cfg) f) as [md |];
    [| discriminate].
  rewrite bind_run in Hrun.
  destruct (_convertBandAttributes a (attributeConversion cfg)) as [bmd |];
    [| discriminate].
  run_step Hrun u4 w3 H3.
  run_step Hrun u5 w4 H4.
  run_step Hrun u6 w5 H5.
  injection Hrun as <- <- <-. split; [exact Htl |].
  intros Hne.
  pose proof (safeMove_behaviour (cogTmpFile_of cfg f) (cogPath_of cfg f) 420%N w4)
    as Hmove.
  cbv zeta in Hmove. fold (cogTmpFile_of cfg f) in H5. rewrite H5 in Hmove.
  destruct Hmove as (_ & _ & _ & Hok). destruct u6.
  destruct (Hok eq_refl Hne) as (_ & f0 & _ & Hdst). simpl in Hdst.
  rewrite Hdst. now eexists.
Qed.

(** The loop records the temporary files of every band it published. *)
Lemma bandLoop_ok (cfg : CogCfg) (attrs : dict) (bands : list (BandInfo * dict)) :
  forall t w outs t' w',
    bandLoop cfg attrs bands t w = (Ok (outs, t'), w') ->
    length outs = length bands
    /\ (forall p, p ∈ t -> p ∈ t')
    /\ (forall i ba f,
          bands !! i = Some ba -> outs !! i = Some Published ->
          cogFile_of cfg (fst ba) = Ok f ->
          forall p, p ∈ recorded_temps cfg f -> p ∈ t').
Proof.
  induction bands as [|[b a] bands IH]; intros t w outs t' w' Hrun.
  - injection Hrun as <- <- <-. split; [reflexivity |]. split; [auto |].
    intros i ba f Hi. discriminate.
  - rewrite bandLoop_cons in Hrun.
    destruct (processBand cfg attrs (b, a) t w) as [[[o t1] | e] w1] eqn:Hband;
      [| discriminate].
    destruct (bandLoop cfg attrs bands t1 w1) as [[[os t2] | e] w2] eqn:Hrest;
      [| discriminate].
    injection Hrun as <- <- <-.
    destruct (IH _ _ _ _ _ Hrest) as (Hlen & Hkeep & Hrec).
    apply processBand_ok in Hband as (f & Hf & Ho).
    assert (Ht1 : forall p, p ∈ t -> p ∈ t1).
    { intros p Hp. destruct o.
      - destruct Ho as (-> & _). exact Hp.
      - destruct Ho as (-> & _). apply elem_of_app. now left. }
    split; [simpl; now rewrite Hlen |]. split; [auto |].
    intros [|i] ba f' Hi Hout Hf' p Hp; simpl in Hi, Hout.
    + injection Hi as <-. injection Hout as ->. simpl in Hf'.
      rewrite Hf in Hf'. injection Hf' as <-.
      destruct Ho as (-> & _). apply Hkeep, elem_of_app. now right.
    + eapply Hrec; eauto.
Qed.

(** C5, as amended: after a run that ends without a failure, every band
    having been published or skipped, the base raster and the overview file
    of every band that was published are gone. *)
Theorem cleanup_after_success (cfg : CogCfg) (src : Dataset) (w : World)
  (outs : list outcome) :
  fst (cogProcessor cfg src w) = Ok outs ->
  length outs = length (bandInfoList cfg)
  /\ forall i b f,
       bandInfoList cfg !! i = Some b ->
       outs !! i = Some Published ->
       cogFile_of cfg b = Ok f ->
       files (snd (cogProcessor cfg src w)) !! tiffFile_of cfg f = None
       /\ (cogOverviews cfg <> [] ->
           files (snd (cogProcessor cfg src w)) !! (tiffFile_of cfg f +:+ ".ovr")
           = None).
Proof.
  rewrite cogProcessor_run. intros Hrun.
  destruct (prelude cfg w) as [[[] | e0] w0]; [| discriminate].
  destruct (attach_attributes cfg src (bandInfoList cfg)) as [bands | e1] eqn:Hatt;
    [| discriminate].
  destruct (bandLoop cfg (ncattrs src) bands [] w0) as [[[outs' tl] | e2] w1] eqn:Hloop;
    [| discriminate].
  destruct (removeTempFiles tl w1) as [[[] | e3] w2] eqn:Hclean; [| discriminate].
  simpl in Hrun. injection Hrun as ->. simpl snd.
  apply attach_attributes_fst in Hatt.
  destruct (bandLoop_ok _ _ _ _ _ _ _ _ Hloop) as (Hlen & _ & Hrec).
  split; [now rewrite Hlen, <- Hatt, length_map |].
  intros i b f Hi Hout Hf.
  assert (Hba : exists ba, bands !! i = Some ba /\ fst ba = b).
  { rewrite <- Hatt in Hi. rewrite list_lookup_fmap in Hi.
    destruct (bands !! i) as [ba |]; [| discriminate].
    injection Hi as <-. now exists ba. }
  destruct Hba as (ba & Hbi & <-).
  assert (Hgone : forall p, p ∈ recorded_temps cfg f -> files w2 !! p = None).
  { intros p Hp. apply (removeTempFiles_absent tl w1 w2 p Hclean).
    eapply Hrec; eauto. }
  split.
  - apply Hgone. unfold recorded_temps. now left.
  - intros Hov. apply Hgone. unfold recorded_temps.
    destruct (cogOverviews cfg); [contradiction |]. right; now left.
Qed.

End Cleanup.

Lemma cleanup_after_success_witness :
  fst (@cogProcessor env_fine (cfg_ndvi [band_ndvi; band_unc]) src_ndvi (world_of ∅))
  = Ok [Published; Published]
  /\ (let w' := snd (@cogProcessor env_fine (cfg_ndvi [band_ndvi; band_unc])
                      src_ndvi (world_of ∅)) in
      files w' !! "/tmp/cog/c_gls_NDVI300-UNC_202404010000_GLOBE_OLCI_V2.0.1_base.tiff"
      = None
      /\ files w' !! "/tmp/cog/c_gls_NDVI300-UNC_202404010000_GLOBE_OLCI_V2.0.1_base.tiff.ovr"
         = None).
Proof.
  assert (Hrun :
    fst (@cogProcessor env_fine (cfg_ndvi [band_ndvi; band_unc]) src_ndvi (world_of ∅))
    = Ok [Published; Published]) by (vm_compute; reflexivity).
  split; [exact Hrun |].
  destruct (proj2 (@cleanup_after_success env_fine _ _ _ _ Hrun) 1 band_unc
              "c_gls_NDVI300-UNC_202404010000_GLOBE_OLCI_V2.0.1.tiff"
              eq_refl eq_refl eq_refl) as [Hbase Hovr].
  split; [exact Hbase |]. apply Hovr. discriminate.
Defined.

(** C5, as stated, fails: when the toolchain fails after the base raster of
    a band was extracted, the job ends on that error and the base raster is
    left in the temporary folder. *)
Lemma failure_leaves_temp_files :
  let cfg := cfg_ndvi [band_ndvi; band_unc] in
  let run := @cogProcessor env_encode_fails cfg src_ndvi (world_of ∅) in
  is_ok (fst run) = false
  /\ files (snd run) !! "/tmp/cog/c_gls_NDVI300-NDVI_202404010000_GLOBE_OLCI_V2.0.1_base.tiff"
     = Some (mkfile "BASE RASTER" 436)
  /\ tiffFile_of cfg "c_gls_NDVI300-NDVI_202404010000_GLOBE_OLCI_V2.0.1.tiff"
     = "/tmp/cog/c_gls_NDVI300-NDVI_202404010000_GLOBE_OLCI_V2.0.1_base.tiff".
Proof. vm_compute. repeat split; reflexivity. Qed.

(** ** Skipping and running again *)

Section Rerun.
Context `{E : Env}.

Lemma M_touches_safeMakeDirs_retry (n : nat) (d : string) (m : N) :
  M_touches [] (_safeMakeDirs_retry n d m).
Proof.
  induction n as [|n IH]; intros w r w' Hrun; simpl in Hrun.
  - destruct (os_makedirs d m w) as [[[] | e] w1] eqn:Hmk;
      injection Hrun as <- <-; eapply M_touches_makedirs; eauto.
  - destruct (os_makedirs d m w) as [[[] | e] w1] eqn:Hmk.
    + injection Hrun as <- <-. eapply M_touches_makedirs; eauto.
    + eapply touches_trans; [eapply M_touches_makedirs; eauto |].
      rewrite bind_run in Hrun. simpl in Hrun. rewrite bind_run in Hrun.
      simpl in Hrun. destruct (bool_decide (d ∈ dirs w1)).
      * injection Hrun as <- <-. apply touches_refl.
      * eapply IH; eauto.
Qed.

Lemma M_touches_ensureFolder (d : string) : M_touches [] (ensureFolder d).
Proof.
  unfold ensureFolder.
  apply M_touches_bind; [apply M_touches_isdir | intros isdir].
  destruct isdir; [apply M_touches_ret | apply M_touches_safeMakeDirs_retry].
Qed.

Lemma safeMakeDirs_retry_ok (n : nat) (d : string) (m : N) :
  forall w w', _safeMakeDirs_retry n d m w = (Ok tt, w') -> d ∈ dirs w'.
Proof.
  assert (Hmade : forall w0 : World,
            d ∈ dirs (add_dirs (missing_parents d w0 ++ [d]) (tick w0))).
  { intros w0. apply add_dirs_dirs. left. apply elem_of_app. right. now left. }
  induction n as [|n IH]; intros w w' Hrun; simpl in Hrun.
  - unfold os_makedirs in Hrun. destruct (fault (calls w)); [discriminate |].
    injection Hrun as <-. apply Hmade.
  - unfold os_makedirs at 1 in Hrun.
    destruct (fault (calls w)) as [k |].
    + rewrite bind_run in Hrun. simpl in Hrun. rewrite bind_run in Hrun.
      simpl in Hrun.
      destruct (bool_decide_reflect
                  (d ∈ dirs (add_dirs (firstn k (missing_parents d w)) (tick w))))
        as [Hd | Hd].
      * now injection Hrun as <-.
      * eapply IH; eauto.
    + injection Hrun as <-. apply Hmade.
Qed.

Lemma ensureFolder_ok (d : string) (w w' : World) :
  ensureFolder d w = (Ok tt, w') -> d ∈ dirs w'.
Proof.
  unfold ensureFolder. rewrite bind_run. simpl.
  destruct (bool_decide_reflect (d ∈ dirs w)) as [Hd | Hd].
  - now intros [= <-].
  - apply safeMakeDirs_retry_ok.
Qed.

Lemma ensureFolder_present (d : string) (w : World) :
  d ∈ dirs w -> ensureFolder d w = (Ok tt, w).
Proof.
  intros Hd. unfold ensureFolder. rewrite bind_run. simpl.
  now rewrite (bool_decide_eq_true_2 _ Hd).
Qed.

Lemma prelude_ok (cfg : CogCfg) (w w' : World) :
  prelude cfg w = (Ok tt, w') ->
  touches [] w w' /\ outFolder cfg ∈ dirs w' /\ tmpFolder cfg ∈ dirs w'.
Proof.
  unfold prelude. rewrite bind_run.
  destruct (ensureFolder (outFolder cfg) w) as [[[] | e] w0] eqn:Hout; [| discriminate].
  intros Htmp.
  pose proof (M_touches_ensureFolder _ _ _ _ Hout) as T1.
  pose proof (M_touches_ensureFolder _ _ _ _ Htmp) as T2.
  split; [eapply touches_trans; eauto |]. split.
  - destruct T2 as (_ & _ & Hd). apply Hd. eapply ensureFolder_ok; eauto.
  - eapply ensureFolder_ok; eauto.
Qed.

Lemma prelude_present (cfg : CogCfg) (w : World) :
  outFolder cfg ∈ dirs w -> tmpFolder cfg ∈ dirs w -> prelude cfg w = (Ok tt, w).
Proof.
  intros Ho Ht. unfold prelude. rewrite bind_run.
  rewrite (ensureFolder_present _ _ Ho). now apply ensureFolder_present.
Qed.

(** A band whose output is there is skipped, and nothing happens. *)
Lemma processBand_skip (cfg : CogCfg) (attrs : dict) (b : BandInfo) (a : dict)
  (t : list string) (w : World) (f : string) :
  overwriteExistingFiles cfg = false ->
  cogFile_of cfg b = Ok f ->
  is_Some (files w !! cogPath_of cfg f) ->
  processBand cfg attrs (b, a) t w = (Ok (Skipped, t), w).
Proof.
  intros Hov Hf Hpres. unfold processBand.
  rewrite bind_run. unfold lift. rewrite Hf. rewrite bind_run.
  unfold os_path_isfile. rewrite Hov.
  now rewrite (bool_decide_eq_true_2 _ Hpres).
Qed.

Lemma bandLoop_all_skipped (cfg : CogCfg) (attrs : dict)
  (bands : list (BandInfo * dict)) (t : list string) (w : World) :
  overwriteExistingFiles cfg = false ->
  (forall ba, ba ∈ bands ->
     exists f, cogFile_of cfg (fst ba) = Ok f
       /\ is_Some (files w !! cogPath_of cfg f)) ->
  bandLoop cfg attrs bands t w = (Ok (repeat Skipped (length bands), t), w).
Proof.
  intros Hov. induction bands as [|[b a] bands IH]; intros Hall; [reflexivity |].
  rewrite bandLoop_cons.
  destruct (Hall (b, a)) as (f & Hf & Hpres); [now left |]. simpl in Hf.
  rewrite (processBand_skip cfg attrs b a t w f Hov Hf Hpres).
  rewrite IH; [reflexivity |]. intros ba Hba. apply Hall. now right.
Qed.

(** Through the loop the outputs reached so far stay, every band gets its
    output, and the temporary files recorded are temporary paths of the
    job. *)
Lemma bandLoop_establishes (cfg : CogCfg) (attrs : dict) (T : list string)
  (bands : list (BandInfo * dict)) :
  (forall ba, ba ∈ bands -> forall p, p ∈ band_temps cfg (fst ba) -> p ∈ T) ->
  (forall ba, ba ∈ bands -> forall p, p ∈ band_output cfg (fst ba) -> p ∉ T) ->
  forall (D t : list string) w outs (t' : list string) w',
    (forall p, p ∈ D -> p ∉ T) ->
    (forall p, p ∈ D -> is_Some (files w !! p)) ->
    (forall p, p ∈ t -> p ∈ T) ->
    bandLoop cfg attrs bands t w = (Ok (outs, t'), w') ->
    (forall p, p ∈ D -> is_Some (files w' !! p))
    /\ (forall ba, ba ∈ bands ->
          exists f, cogFile_of cfg (fst ba) = Ok f
            /\ is_Some (files w' !! cogPath_of cfg f))
    /\ (forall p, p ∈ t' -> p ∈ T)
    /\ dirs w ⊆ dirs w'.
Proof.
  induction bands as [|[b a] bands IH]; intros Htemps Houts D t w outs t' w' HD Hex Ht Hrun.
  - injection Hrun as <- <- <-. split; [auto |]. split; [| auto].
    intros ba Hba. now apply elem_of_nil in Hba.
  - rewrite bandLoop_cons in Hrun.
    destruct (processBand cfg attrs (b, a) t w) as [[[o t1] | e] w1] eqn:Hband;
      [| discriminate].
    destruct (bandLoop cfg attrs bands t1 w1) as [[[os t2] | e] w2] eqn:Hrest;
      [| discriminate].
    injection Hrun as <- <- <-.
    pose proof (M_touches_processBand cfg attrs b a t _ _ _ Hband)
      as (Hframe & _ & Hdirs).
    apply processBand_ok in Hband as (f & Hf & Ho).
    destruct (band_paths_of cfg b f Hf) as [Hbo Hbt].
    rewrite Hbo, Hbt in Hframe.
    assert (HoutT : cogPath_of cfg f ∉ T).
    { apply (Houts (b, a)); [now left |]. simpl. rewrite Hbo. now left. }
    assert (HtmpT : forall p, p ∈ temp_paths cfg f -> p ∈ T).
    { intros p Hp. apply (Htemps (b, a)); [now left |]. simpl. now rewrite Hbt. }
    assert (Hnow : is_Some (files w1 !! cogPath_of cfg f)).
    { destruct o.
      - destruct Ho as (_ & -> & _ & Hpres). exact Hpres.
      - destruct Ho as (_ & Hpub). apply Hpub. intros Heq. apply HoutT.
        rewrite <- Heq. apply HtmpT. unfold temp_paths. set_solver. }
    assert (Ht1 : forall p, p ∈ t1 -> p ∈ T).
    { intros p Hp. destruct o.
      - destruct Ho as (-> & _). auto.
      - destruct Ho as (-> & _). apply elem_of_app in Hp as [Hp | Hp]; [auto |].
        apply HtmpT. unfold recorded_temps in Hp. unfold temp_paths.
        destruct (nonempty (cogOverviews cfg)); set_solver. }
    assert (HD1 : forall p, p ∈ cogPath_of cfg f :: D -> is_Some (files w1 !! p)).
    { intros p Hp. apply elem_of_cons in Hp as [-> | Hp]; [exact Hnow |].
      destruct (decide (p = cogPath_of cfg f)) as [-> | Hne]; [exact Hnow |].
      rewrite Hframe; [now apply Hex |].
      intros Hin. apply elem_of_app in Hin as [Hin | Hin].
      - apply list_elem_of_singleton in Hin. contradiction.
      - now apply (HD p Hp), HtmpT. }
    assert (HD1T : forall p, p ∈ cogPath_of cfg f :: D -> p ∉ T).
    { intros p Hp. apply elem_of_cons in Hp as [-> | Hp]; auto. }
    destruct (IH (fun ba Hba => Htemps ba (list_elem_of_further _ _ _ Hba))
                 (fun ba Hba => Houts ba (list_elem_of_further _ _ _ Hba))
                 _ _ _ _ _ _ HD1T HD1 Ht1 Hrest)
      as (HDend & Hbands & Htend & Hdirs2).
    split; [| split; [| split]].
    + intros p Hp. apply HDend. now right.
    + intros ba Hba. apply elem_of_cons in Hba as [-> | Hba]; [| now apply Hbands].
      exists f. split; [exact Hf |]. apply HDend. now left.
    + exact Htend.
    + now transitivity (dirs w1).
Qed.

Lemma separated_spec (cfg : CogCfg) :
  separated cfg = true ->
  forall p, p ∈ job_outputs cfg -> p ∉ job_temps cfg.
Proof.
  unfold separated. intros H p Hp.
  rewrite forallb_forall in H. specialize (H p).
  apply in_list_false, negb_true_iff, H. now apply list_elem_of_In.
Qed.

(** C3, as amended: with overwrite disabled, a band whose output file
    exists ends as Skipped, nothing having been done; and when a run ends
    without failure for a job none of whose output paths is one of its
    temporary paths, running the job again gives Skipped for every band and
    changes nothing, the outputs of the first run least of all. *)
Theorem skip_existing_and_rerun (cfg : CogCfg) (src : Dataset) (w : World) :
  (forall attrs b a t f,
     overwriteExistingFiles cfg = false ->
     cogFile_of cfg b = Ok f ->
     is_Some (files w !! cogPath_of cfg f) ->
     processBand cfg attrs (b, a) t w = (Ok (Skipped, t), w))
  /\ (forall outs,
        overwriteExistingFiles cfg = false ->
        separated cfg = true ->
        fst (cogProcessor cfg src w) = Ok outs ->
        cogProcessor cfg src (snd (cogProcessor cfg src w))
        = (Ok (repeat Skipped (length (bandInfoList cfg))),
           snd (cogProcessor cfg src w))).
Proof.
  split; [intros attrs b a t f; apply processBand_skip |].
  intros outs Hov Hsep Hrun. pose proof (separated_spec cfg Hsep) as Hdisj.
  rewrite cogProcessor_run in Hrun. rewrite (cogProcessor_run cfg src w).
  destruct (prelude cfg w) as [[[] | e0] w0] eqn:Hpre; [| discriminate].
  destruct (attach_attributes cfg src (bandInfoList cfg)) as [bands | e1] eqn:Hatt;
    [| discriminate].
  destruct (bandLoop cfg (ncattrs src) bands [] w0) as [[[outs' tl] | e2] w1] eqn:Hloop;
    [| discriminate].
  destruct (removeTempFiles tl w1) as [[[] | e3] w2] eqn:Hclean; [| discriminate].
  simpl snd. clear Hrun.
  apply prelude_ok in Hpre as (_ & Hout0 & Htmp0).
  pose proof (attach_attributes_fst _ _ _ _ Hatt) as Hfst.
  assert (Hin : forall ba, ba ∈ bands -> fst ba ∈ bandInfoList cfg).
  { intros ba Hba. rewrite <- Hfst. apply list_elem_of_fmap. now exists ba. }
  assert (Htemps : forall ba, ba ∈ bands ->
            forall p, p ∈ band_temps cfg (fst ba) -> p ∈ job_temps cfg).
  { intros ba Hba p Hp. unfold job_temps. apply list_elem_of_In, in_flat_map.
    exists (fst ba). split; apply list_elem_of_In; auto. }
  assert (Houts : forall ba, ba ∈ bands ->
            forall p, p ∈ band_output cfg (fst ba) -> p ∉ job_temps cfg).
  { intros ba Hba p Hp. apply Hdisj. unfold job_outputs.
    apply list_elem_of_In, in_flat_map.
    exists (fst ba). split; apply list_elem_of_In; auto. }
  destruct (bandLoop_establishes cfg (ncattrs src) (job_temps cfg) bands Htemps Houts
              [] [] w0 outs' tl w1) as (_ & Hbands & Htl & Hdirs1); auto.
  { intros p Hp. now apply elem_of_nil in Hp. }
  { intros p Hp. now apply elem_of_nil in Hp. }
  { intros p Hp. now apply elem_of_nil in Hp. }
  pose proof (M_touches_removeTempFiles tl _ _ _ Hclean) as (Hframe & _ & Hdirs2).
  assert (Hbands2 : forall ba, ba ∈ bands ->
            exists f, cogFile_of cfg (fst ba) = Ok f
              /\ is_Some (files w2 !! cogPath_of cfg f)).
  { intros ba Hba. destruct (Hbands ba Hba) as (f & Hf & Hpres).
    exists f. split; [exact Hf |]. rewrite Hframe; [exact Hpres |].
    intros Hc. apply (Houts ba Hba (cogPath_of cfg f)).
    - unfold band_output. rewrite Hf. now left.
    - now apply Htl. }
  rewrite cogProcessor_run, prelude_present, Hatt.
  - rewrite (bandLoop_all_skipped cfg (ncattrs src) bands [] w2 Hov Hbands2).
    cbn [removeTempFiles]. rewrite <- Hfst, length_map. reflexivity.
  - apply Hdirs2, Hdirs1, Hout0.
  - apply Hdirs2, Hdirs1, Htmp0.
Qed.

End Rerun.


Lemma skip_existing_and_rerun_witness :
  (overwriteExistingFiles (cfg_ndvi [band_ndvi; band_unc]) = false
   /\ separated (cfg_ndvi [band_ndvi; band_unc]) = true
   /\ fst (@cogProcessor env_fine (cfg_ndvi [band_ndvi; band_unc]) src_ndvi (world_of ∅))
      = Ok [Published; Published])
  /\ @cogProcessor env_fine (cfg_ndvi [band_ndvi; band_unc]) src_ndvi
       (snd (@cogProcessor env_fine (cfg_ndvi [band_ndvi; band_unc]) src_ndvi
               (world_of ∅)))
     = (Ok (repeat Skipped (length (bandInfoList (cfg_ndvi [band_ndvi; band_unc])))),
        snd (@cogProcessor env_fine (cfg_ndvi [band_ndvi; band_unc]) src_ndvi
               (world_of ∅))).
Proof.
  assert (Hsep : separated (cfg_ndvi [band_ndvi; band_unc]) = true)
    by (vm_compute; reflexivity).
  assert (Hrun :
    fst (@cogProcessor env_fine (cfg_ndvi [band_ndvi; band_unc]) src_ndvi (world_of ∅))
    = Ok [Published; Published]) by (vm_compute; reflexivity).
  split; [split; [reflexivity | split; [exact Hsep | exact Hrun]] |].
  exact (proj2 (@skip_existing_and_rerun env_fine (cfg_ndvi [band_ndvi; band_unc])
                  src_ndvi (world_of ∅))
           [Published; Published] eq_refl Hsep Hrun).
Defined.
(** C3, as stated, fails in its second half.  In [cfg_clash] the temporary
    folder is the output folder and the base raster of the second band has
    the path of the output of the first: the first run publishes both bands
    and its clean-up removes the output of the first, so that a second run
    does not skip it. *)
Lemma rerun_not_all_skipped :
  let first := @cogProcessor env_fine cfg_clash src_clash (world_of ∅) in
  let second := @cogProcessor env_fine cfg_clash src_clash (snd first) in
  overwriteExistingFiles cfg_clash = false
  /\ fst first = Ok [Published; Published]
  /\ job_outputs cfg_clash
     = ["d/c_gls_P-X_base_base_base_base_base.tiff";
        "d/c_gls_P-X_base_base_base_base.tiff"]
  /\ files (snd first) !! "d/c_gls_P-X_base_base_base_base_base.tiff" = None
  /\ fst second = Ok [Published; Skipped]
  /\ separated cfg_clash = false.
Proof. vm_compute. repeat split; reflexivity. Qed.

(** Nor is every band skipped after a first run that failed. *)
Example rerun_after_failure :
  let cfg := cfg_ndvi [band_ndvi; band_unc] in
  let first := @cogProcessor env_encode_fails cfg src_ndvi (world_of ∅) in
  let second := @cogProcessor env_fine cfg src_ndvi (snd first) in
  is_ok (fst first) = false
  /\ fst second = Ok [Published; Published].
Proof. vm_compute. split; reflexivity. Qed.

Example rerun_sample :
  let first := @cogProcessor env_fine (cfg_ndvi [band_ndvi; band_unc]) src_ndvi
                 (world_of ∅) in
  let second := @cogProcessor env_fine (cfg_ndvi [band_ndvi; band_unc]) src_ndvi
                  (snd first) in
  fst second = Ok [Skipped; Skipped]
  /\ cmds (snd second) = cmds (snd first)
  /\ files (snd second) !! "/data/cog/c_gls_NDVI300-NDVI_202404010000_GLOBE_OLCI_V2.0.1.tiff"
     = files (snd first) !! "/data/cog/c_gls_NDVI300-NDVI_202404010000_GLOBE_OLCI_V2.0.1.tiff"
  /\ is_Some (files (snd first)
                !! "/data/cog/c_gls_NDVI300-NDVI_202404010000_GLOBE_OLCI_V2.0.1.tiff").
Proof. vm_compute. repeat split; try reflexivity. now eexists. Qed.

(** * Further properties *)

(** ** Attribute translators: keys and values *)

Lemma dict_set_fresh (k : string) (v : pyval) (d : dict) :
  k ∉ keys d -> dict_set k v d = d ++ [(k, v)].
Proof.
  induction d as [|[k' v'] d IH]; intros Hk; simpl; [reflexivity |].
  simpl in Hk. apply not_elem_of_cons in Hk as [Hne Hk].
  destruct (String.eqb_spec k' k); [congruence |]. now rewrite IH.
Qed.

Lemma keys_app (d1 d2 : dict) : keys (d1 ++ d2) = keys d1 ++ keys d2.
Proof. unfold keys. apply map_app. Qed.

Lemma dict_get_None (k : string) (d : dict) : k ∉ keys d -> dict_get k d = None.
Proof.
  induction d as [|[k' v'] d IH]; intros Hk; simpl; [reflexivity |].
  simpl in Hk. apply not_elem_of_cons in Hk as [Hne Hk].
  destruct (String.eqb_spec k' k); [congruence | auto].
Qed.

Lemma dict_get_elem (k : string) (v : pyval) (d : dict) :
  NoDup (keys d) -> (k, v) ∈ d -> dict_get k d = Some v.
Proof.
  induction d as [|[k' v'] d IH]; intros Hnd Hin.
  - now apply elem_of_nil in Hin.
  - simpl in Hnd. apply NoDup_cons in Hnd as [Hk' Hnd]. simpl.
    apply elem_of_cons in Hin as [Heq | Hin].
    + injection Heq as <- <-. now rewrite String.eqb_refl.
    + destruct (String.eqb_spec k' k) as [-> | Hne]; [| auto].
      exfalso. apply Hk'. eapply elem_of_keys; eauto.
Qed.

(** The keys the band loop adds, in the order it visits them. *)
Lemma band_loop_keys (conv : AttributeConversion) (items : dict) :
  forall md m,
    NoDup (keys md ++ keys items) ->
    _convertBandAttributes_loop items conv md = Ok m ->
    keys m = keys md ++ List.filter (converted conv) (keys items).
Proof.
  induction items as [|[k0 v0] items IH]; intros md m Hnd Hrun.
  - simpl in Hrun. injection Hrun as <-. simpl. now rewrite app_nil_r.
  - rewrite band_loop_step in Hrun. simpl keys in *. simpl List.filter.
    unfold converted at 1.
    assert (Hk0 : k0 ∉ keys md).
    { apply NoDup_app in Hnd as (_ & Hdisj & _). intros Hc.
      apply (Hdisj k0 Hc). now left. }
    assert (Hnd' : NoDup (keys md ++ keys items)).
    { apply NoDup_app in Hnd as (H1 & Hdisj & H2). apply NoDup_cons in H2 as [_ H2].
      apply NoDup_app. repeat split; auto. intros x Hx Hc. apply (Hdisj x Hx). now right. }
    destruct (in_list k0 (removeAttributeLst conv)); simpl negb; cbv iota.
    + now apply IH.
    + destruct (band_value conv v0) as [v |]; [| discriminate]. simpl in Hrun.
      rewrite (dict_set_fresh _ _ _ Hk0) in Hrun.
      apply IH in Hrun.
      * rewrite Hrun, keys_app. simpl. now rewrite <- app_assoc.
      * rewrite keys_app. simpl. rewrite <- app_assoc. simpl.
        apply NoDup_app in Hnd as (H1 & Hdisj & H2).
        apply NoDup_app. repeat split; auto.
Qed.

(** X1: the translated band attributes hold exactly the keys of the input
    that are not on the removal list, in the order of the input. *)
Theorem convertBand_keys (attributeDict : dict) (conv : AttributeConversion)
  (m : dict) :
  NoDup (keys attributeDict) ->
  _convertBandAttributes attributeDict conv = Ok m ->
  keys m = List.filter (converted conv) (keys attributeDict)
  /\ NoDup (keys m)
  /\ forall key, key ∈ removeAttributeLst conv -> dict_get key m = None.
Proof.
  intros Hnd Hrun.
  assert (Hkeys : keys m = List.filter (converted conv) (keys attributeDict))
    by (apply (band_loop_keys conv attributeDict [] m); auto).
  split; [exact Hkeys |]. split.
  - rewrite Hkeys. apply NoDup_ListNoDup, List.NoDup_filter, NoDup_ListNoDup, Hnd.
  - intros key Hkey. apply dict_get_None. rewrite Hkeys. intros Hc.
    apply list_elem_of_In, filter_In in Hc as [_ Hc]. unfold converted in Hc.
    apply in_list_true in Hkey. rewrite Hkey in Hc. discriminate.
Qed.

Lemma convertBand_keys_witness :
  (NoDup (keys attrs_flags)
   /\ _convertBandAttributes attrs_flags (conv_with "{}")
      = Ok [("long_name", VStr "Quality flags"); ("flag_values", VStr "{1,2,3}")])
  /\ keys [("long_name", VStr "Quality flags"); ("flag_values", VStr "{1,2,3}")]
     = List.filter (converted (conv_with "{}")) (keys attrs_flags).
Proof.
  assert (Hnd : NoDup (keys attrs_flags)) by by_compute.
  split; [split; [exact Hnd | reflexivity] |].
  exact (proj1 (convertBand_keys attrs_flags (conv_with "{}") _ Hnd eq_refl)).
Defined.

Section FileTranslation.
Context `{E : Env}.
Variables (attributeDict : dict) (conv : AttributeConversion) (filename : string).

(** The file loop appends, for every item it converts, the key with its new
    value. *)
Lemma file_loop_map (items : dict) :
  forall md m,
    NoDup (keys md ++ keys items) ->
    _convertFileAttributes_loop items attributeDict conv filename md = Ok m ->
    m = md ++ map (file_item attributeDict conv filename)
                  (List.filter (converted_item conv) items).
Proof.
  induction items as [|[k0 v0] items IH]; intros md m Hnd Hrun.
  - simpl in Hrun. injection Hrun as <-. simpl. now rewrite app_nil_r.
  - cbn [_convertFileAttributes_loop] in Hrun. simpl keys in Hnd.
    cbn [List.filter]. unfold converted_item at 1, converted. cbn [fst].
    assert (Hk0 : k0 ∉ keys md).
    { apply NoDup_app in Hnd as (_ & Hdisj & _). intros Hc.
      apply (Hdisj k0 Hc). now left. }
    assert (Hnd' : NoDup (keys md ++ keys items)).
    { apply NoDup_app in Hnd as (H1 & Hdisj & H2). apply NoDup_cons in H2 as [_ H2].
      apply NoDup_app. repeat split; auto. intros x Hx Hc. apply (Hdisj x Hx). now right. }
    assert (Hnext : forall v, NoDup (keys (md ++ [(k0, v)]) ++ keys items)).
    { intros v. rewrite keys_app. simpl. rewrite <- app_assoc. simpl.
      apply NoDup_app in Hnd as (H1 & Hdisj & H2).
      apply NoDup_app. repeat split; auto. }
    destruct (in_list k0 (removeAttributeLst conv)); simpl negb; cbv iota.
    { now apply IH. }
    cbn [map]. unfold file_item at 1, file_value. cbn [fst snd].
    destruct (String.eqb k0 "history").
    { destruct v0; try discriminate.
      rewrite (dict_set_fresh _ _ _ Hk0) in Hrun.
      apply IH in Hrun; [| apply Hnext].
      rewrite Hrun, <- app_assoc. reflexivity. }
    destruct (String.eqb k0 "identifier").
    { destruct (dict_get "parent_identifier" attributeDict) as [parent |];
        [| discriminate].
      rewrite (dict_set_fresh _ _ _ Hk0) in Hrun.
      apply IH in Hrun; [| apply Hnext].
      rewrite Hrun, <- app_assoc. reflexivity. }
    rewrite (dict_set_fresh _ _ _ Hk0) in Hrun.
    apply IH in Hrun; [| apply Hnext].
    rewrite Hrun, <- app_assoc. reflexivity.
Qed.

(** When the file loop ends well. *)
Lemma file_loop_is_ok (items : dict) :
  forall md,
    is_ok (_convertFileAttributes_loop items attributeDict conv filename md)
    = history_ok items conv && identifier_ok items attributeDict conv.
Proof.
  induction items as [|[k0 v0] items IH]; intros md; [reflexivity |].
  cbn [_convertFileAttributes_loop]. unfold history_ok, identifier_ok in *.
  cbn [forallb fst snd].
  destruct (in_list k0 (removeAttributeLst conv)).
  { rewrite IH, !orb_true_r. reflexivity. }
  destruct (String.eqb_spec k0 "history") as [-> | Hh].
  { change (String.eqb "history" "identifier") with false. cbn [negb orb].
    destruct v0; try reflexivity. now rewrite IH. }
  destruct (String.eqb k0 "identifier").
  { cbn [negb orb andb].
    destruct (dict_get "parent_identifier" attributeDict) as [parent |].
    - rewrite IH. rewrite bool_decide_eq_true_2 by (now eexists). reflexivity.
    - rewrite bool_decide_eq_false_2 by (now intros [? ?]).
      cbn [is_ok andb]. now rewrite andb_false_r. }
  cbn [negb orb andb]. now rewrite IH.
Qed.

Lemma file_loop_errors (items : dict) :
  forall md e,
    _convertFileAttributes_loop items attributeDict conv filename md = Raise e ->
    e = TypeError \/ e = KeyError "parent_identifier".
Proof.
  induction items as [|[k0 v0] items IH]; intros md e Hrun; [discriminate |].
  cbn [_convertFileAttributes_loop] in Hrun.
  destruct (in_list k0 (removeAttributeLst conv)); [eauto |].
  destruct (String.eqb k0 "history").
  { destruct v0; try (injection Hrun as <-; now left). eauto. }
  destruct (String.eqb k0 "identifier"); [| eauto].
  destruct (dict_get "parent_identifier" attributeDict); [eauto |].
  injection Hrun as <-. now right.
Qed.

End FileTranslation.

(** X2: the translated file attributes are the items of the input that are
    not on the removal list, in the order of the input, each with its value
    as it was except for [history] (the templated line appended after a
    newline) and [identifier] (the derived identifier). *)
Theorem convertFile_map `{E : Env} (attributeDict : dict)
  (conv : AttributeConversion) (filename : string) (m : dict) :
  NoDup (keys attributeDict) ->
  _convertFileAttributes attributeDict conv filename = Ok m ->
  m = map (file_item attributeDict conv filename)
          (List.filter (converted_item conv) attributeDict).
Proof.
  intros Hnd Hrun.
  exact (file_loop_map attributeDict conv filename attributeDict [] m Hnd Hrun).
Qed.

Lemma convertFile_map_witness :
  (NoDup (keys attrs_file)
   /\ @_convertFileAttributes env_fine attrs_file (conv_with "{}")
        "c_gls_NDVI300-NDVI_202404010000_GLOBE_OLCI_V2.0.1.tiff"
      = Ok [("title", VStr "NDVI 300m");
            ("history", VStr ("2024-04-12 Processing line NDVI300" +:+ newline
                              +:+ "Converted to COG on 2024-09-04 by v1.0.0"));
            ("parent_identifier", VStr "urn:cgls:global:ndvi300_v2_333m");
            ("identifier",
             VStr "urn:cgls:global:ndvi300_v2_333m:NDVI300-NDVI_202404010000_GLOBE_OLCI_V2.0.1")])
  /\ [("title", VStr "NDVI 300m");
      ("history", VStr ("2024-04-12 Processing line NDVI300" +:+ newline
                        +:+ "Converted to COG on 2024-09-04 by v1.0.0"));
      ("parent_identifier", VStr "urn:cgls:global:ndvi300_v2_333m");
      ("identifier",
       VStr "urn:cgls:global:ndvi300_v2_333m:NDVI300-NDVI_202404010000_GLOBE_OLCI_V2.0.1")]
     = map (@file_item env_fine attrs_file (conv_with "{}")
              "c_gls_NDVI300-NDVI_202404010000_GLOBE_OLCI_V2.0.1.tiff")
           (List.filter (converted_item (conv_with "{}")) attrs_file).
Proof.
  assert (Hnd : NoDup (keys attrs_file)) by by_compute.
  assert (Hrun :
    @_convertFileAttributes env_fine attrs_file (conv_with "{}")
      "c_gls_NDVI300-NDVI_202404010000_GLOBE_OLCI_V2.0.1.tiff"
    = Ok [("title", VStr "NDVI 300m");
          ("history", VStr ("2024-04-12 Processing line NDVI300" +:+ newline
                            +:+ "Converted to COG on 2024-09-04 by v1.0.0"));
          ("parent_identifier", VStr "urn:cgls:global:ndvi300_v2_333m");
          ("identifier",
           VStr "urn:cgls:global:ndvi300_v2_333m:NDVI300-NDVI_202404010000_GLOBE_OLCI_V2.0.1")])
    by reflexivity.
  split; [split; [exact Hnd | exact Hrun] |].
  exact (@convertFile_map env_fine attrs_file (conv_with "{}")
           "c_gls_NDVI300-NDVI_202404010000_GLOBE_OLCI_V2.0.1.tiff" _ Hnd Hrun).
Defined.

(** X3: the translation of the file attributes ends well exactly when every
    converted [history] is text and every converted [identifier] finds
    [parent_identifier] in the input mapping; it fails with a [TypeError]
    (a [history] that is not text) or a [KeyError] (no
    [parent_identifier]) and with nothing else. *)
Theorem convertFile_succeeds_iff `{E : Env} (attributeDict : dict)
  (conv : AttributeConversion) (filename : string) :
  is_ok (_convertFileAttributes attributeDict conv filename)
  = history_ok attributeDict conv && identifier_ok attributeDict attributeDict conv
  /\ forall e, _convertFileAttributes attributeDict conv filename = Raise e ->
       e = TypeError \/ e = KeyError "parent_identifier".
Proof.
  split; [apply file_loop_is_ok | apply file_loop_errors].
Qed.

Example convertFile_history_not_text :
  @_convertFileAttributes env_fine [("history", VInt 3)] (conv_with "{}") "f.tiff"
  = Raise TypeError.
Proof. reflexivity. Qed.

(** ** The commands of a run *)

Section Commands.
Context `{E : Env}.

Lemma M_quiet_ret {A} (a : A) : M_quiet (mret a).
Proof. now intros w r w' [= <- <-]. Qed.

Lemma M_quiet_lift {A} (r : result A) : M_quiet (lift r).
Proof. now intros w r' w' [= <- <-]. Qed.

Lemma M_quiet_bind {A B} (m : M A) (k : A -> M B) :
  M_quiet m -> (forall a, M_quiet (k a)) -> M_quiet (m ≫= k).
Proof.
  intros Hm Hk w r w' Hrun. rewrite bind_run in Hrun.
  destruct (m w) as [[a | e] w1] eqn:Hmw.
  - rewrite (Hk a _ _ _ Hrun). eapply Hm; eauto.
  - injection Hrun as <- <-. eapply Hm; eauto.
Qed.

Lemma M_quiet_syscall {A} (act : M A) : M_quiet act -> M_quiet (syscall act).
Proof.
  intros Hact w r w' Hrun. unfold syscall in Hrun.
  destruct (fault (calls w)); [now injection Hrun as <- <- |].
  now rewrite (Hact _ _ _ Hrun).
Qed.

Lemma M_quiet_isfile (p : string) : M_quiet (os_path_isfile p).
Proof. now intros w r w' [= <- <-]. Qed.

Lemma M_quiet_isdir (p : string) : M_quiet (os_path_isdir p).
Proof. now intros w r w' [= <- <-]. Qed.

Lemma M_quiet_remove (p : string) : M_quiet (os_remove p).
Proof.
  apply M_quiet_syscall. intros w r w' Hrun.
  now destruct (files w !! p); injection Hrun as <- <-.
Qed.

Lemma M_quiet_rename (a b : string) : M_quiet (os_rename a b).
Proof.
  apply M_quiet_syscall. intros w r w' Hrun.
  now destruct (files w !! a); injection Hrun as <- <-.
Qed.

Lemma M_quiet_chmod (p : string) (m : N) : M_quiet (os_chmod p m).
Proof.
  apply M_quiet_syscall. intros w r w' Hrun.
  now destruct (files w !! p); injection Hrun as <- <-.
Qed.

Lemma M_quiet_makedirs (d : string) (m : N) : M_quiet (os_makedirs d m).
Proof. intros w r w' Hrun. now apply (M_still_makedirs d m w r w'). Qed.

Lemma cmds_write_chunks (dst c : string) (m : N) (j : nat) (w : World) :
  cmds (write_chunks dst c m j w) = cmds w.
Proof. induction j as [|j IH]; simpl; [reflexivity | exact IH]. Qed.

Lemma M_quiet_copy (src dst : string) : M_quiet (shutil_copy src dst).
Proof.
  intros w r w' Hrun. unfold shutil_copy in Hrun.
  destruct (files (tick w) !! src) as [f |]; [| now injection Hrun as <- <-].
  destruct (bool_decide (src = dst)); [now injection Hrun as <- <- |].
  destruct (fault (calls w)); injection Hrun as <- <-; simpl;
    now rewrite cmds_write_chunks.
Qed.

Lemma M_quiet_gdal (tiffFile : string) (md bmd : dict) (desc : string) :
  M_quiet (gdal_set_metadata tiffFile md bmd desc).
Proof.
  apply M_quiet_syscall. intros w r w' Hrun.
  now destruct (files w !! tiffFile); injection Hrun as <- <-.
Qed.

Lemma M_quiet_safeMove (src dst : string) (mod_ : N) :
  M_quiet (_safeMove src dst mod_).
Proof.
  unfold _safeMove.
  apply M_quiet_bind; [apply M_quiet_isfile | intros stale].
  apply M_quiet_bind; [destruct stale; [apply M_quiet_remove | apply M_quiet_ret] |].
  intros _. apply M_quiet_bind; [apply M_quiet_copy | intros _].
  apply M_quiet_bind; [apply M_quiet_isfile | intros present].
  apply M_quiet_bind; [destruct present; [apply M_quiet_remove | apply M_quiet_ret] |].
  intros _. apply M_quiet_bind; [apply M_quiet_rename | intros _].
  apply M_quiet_bind; [apply M_quiet_chmod | intros _]. apply M_quiet_remove.
Qed.

Lemma M_quiet_safeMakeDirs_retry (n : nat) (d : string) (m : N) :
  M_quiet (_safeMakeDirs_retry n d m).
Proof.
  induction n as [|n IH]; intros w r w' Hrun; simpl in Hrun.
  - destruct (os_makedirs d m w) as [[[] | e] w1] eqn:Hmk;
      injection Hrun as <- <-; eapply M_quiet_makedirs; eauto.
  - destruct (os_makedirs d m w) as [[[] | e] w1] eqn:Hmk.
    + injection Hrun as <- <-. eapply M_quiet_makedirs; eauto.
    + rewrite <- (M_quiet_makedirs _ _ _ _ _ Hmk).
      rewrite bind_run in Hrun. simpl in Hrun. rewrite bind_run in Hrun.
      simpl in Hrun. destruct (bool_decide (d ∈ dirs w1)).
      * now injection Hrun as <- <-.
      * eapply IH; eauto.
Qed.

Lemma M_quiet_prelude (cfg : CogCfg) : M_quiet (prelude cfg).
Proof.
  assert (Hens : forall d, M_quiet (ensureFolder d)).
  { intros d. unfold ensureFolder.
    apply M_quiet_bind; [apply M_quiet_isdir | intros isdir].
    destruct isdir; [apply M_quiet_ret | apply M_quiet_safeMakeDirs_retry]. }
  unfold prelude. apply M_quiet_bind; [apply Hens | intros _; apply Hens].
Qed.

Lemma M_quiet_removeTempFiles (l : list string) : M_quiet (removeTempFiles l).
Proof.
  induction l as [|p l IH]; simpl; [apply M_quiet_ret |].
  apply M_quiet_bind; [apply M_quiet_remove | intros _; exact IH].
Qed.

(** A command that is run is recorded, whether it succeeds or not; when it
    succeeds its output file holds what it produced. *)
Lemma runShellCmd_run (cmd target : string) (w w' : World) (r : result unit) :
  _runShellCmd cmd target w = (r, w') ->
  cmds w' = cmds w ++ [cmd]
  /\ (r = Ok tt ->
      exists out, toolchain cmd (files w) = Exit0 out
        /\ files w' !! target
           = Some (mkfile out (from_option mode newfile_mode (files w !! target)))).
Proof.
  unfold _runShellCmd. intros Hrun.
  destruct (toolchain cmd (files w)) as [out | [out |]]; injection Hrun as <- <-;
    (split; [reflexivity |]);
    try (destruct (decode_output (console cmd (files w))) as [[] |]; discriminate).
  intros _. exists out. split; [reflexivity |]. simpl. apply lookup_insert_eq.
Qed.

(** What a turn of the loop that publishes has done. *)
Lemma processBand_published (cfg : CogCfg) (attrs : dict) (b : BandInfo) (a : dict)
  (t t' : list string) (w w' : World) (f : string) :
  processBand cfg attrs (b, a) t w = (Ok (Published, t'), w') ->
  cogFile_of cfg b = Ok f ->
  cmds w' = cmds w ++ band_commands cfg b f
  /\ (overwriteExistingFiles cfg = true \/ files w !! cogPath_of cfg f = None)
  /\ (cogTmpFile_of cfg f <> cogPath_of cfg f ->
      exists out raster md bmd w3,
        band_prepare cfg attrs (b, a) f w = (Ok tt, w3)
        /\ _convertFileAttributes attrs (attributeConversion cfg) f = Ok md
        /\ _convertBandAttributes a (attributeConversion cfg) = Ok bmd
        /\ content <$> (files w3 !! tiffFile_of cfg f)
           = Some (embed_metadata raster md bmd (description b))
        /\ toolchain (cmd_cog cfg (tiffFile_of cfg f) (cogTmpFile_of cfg f)) (files w3)
           = Exit0 out
        /\ files w' !! cogPath_of cfg f = Some (mkfile out 420)
        /\ files w' !! cogTmpFile_of cfg f = None).
Proof.
  intros Hrun Hf. unfold processBand in Hrun.
  rewrite bind_run in Hrun. unfold lift in Hrun. rewrite Hf in Hrun.
  rewrite bind_run in Hrun. unfold os_path_isfile in Hrun.
  destruct (negb (overwriteExistingFiles cfg)
            && bool_decide (is_Some (files w !! cogPath_of cfg f))) eqn:Hskip;
    [discriminate |].
  fold (tiffFile_of cfg f) in Hrun. fold (cogTmpFile_of cfg f) in Hrun.
  run_step Hrun u1 w1 H1. destruct u1. pose proof H1 as P1.
  apply runShellCmd_run in H1 as [C1 _].
  run_step Hrun tfl w2 H2.
  assert (C2 : cmds w2 = cmds w1
            ++ (if nonempty (cogOverviews cfg)
                then [cmd_clean (tiffFile_of cfg f);
                      cmd_overviews cfg b (tiffFile_of cfg f)] else [])
          /\ (if nonempty (cogOverviews cfg) then
                 _ ← _runShellCmd (cmd_clean (tiffFile_of cfg f)) (tiffFile_of cfg f);
                 _runShellCmd (cmd_overviews cfg b (tiffFile_of cfg f))
                   (tiffFile_of cfg f +:+ ".ovr")
               else mret tt) w1 = (Ok tt, w2)).
  { destruct (nonempty (cogOverviews cfg)).
    - run_step H2 u2 w21 H21. run_step H2 u3 w22 H22. destruct u2, u3.
      injection H2 as <- <-. rewrite bind_run, H21, H22.
      apply runShellCmd_run in H21 as [C21 _]. apply runShellCmd_run in H22 as [C22 _].
      split; [now rewrite C22, C21, <- app_assoc | reflexivity].
    - injection H2 as <- <-. now rewrite app_nil_r. }
  destruct C2 as [C2 P2].
  rewrite bind_run in Hrun. unfold lift in Hrun.
  destruct (_convertFileAttributes attrs (attributeConversion cfg) f) as [md |] eqn:Hmd;
    [| discriminate].
  rewrite bind_run in Hrun.
  destruct (_convertBandAttributes a (attributeConversion cfg)) as [bmd |] eqn:Hbmd;
    [| discriminate].
  run_step Hrun u4 w3 H3. destruct u4. pose proof H3 as P3.
  apply M_quiet_gdal in H3 as C3.
  run_step Hrun u5 w4 H4. destruct u5.
  apply runShellCmd_run in H4 as [C4 Hout].
  run_step Hrun u6 w5 H5. destruct u6.
  injection Hrun as <- <-. apply M_quiet_safeMove in H5 as C5.
  split; [| split].
  - rewrite C5, C4, C3, C2, C1. unfold band_commands. now rewrite <- !app_assoc.
  - destruct (overwriteExistingFiles cfg); [now left | right].
    simpl in Hskip. apply bool_decide_eq_false in Hskip.
    destruct (files w !! cogPath_of cfg f); [| reflexivity].
    exfalso. apply Hskip. now eexists.
  - intros Hne. destruct (Hout eq_refl) as (out & Htool & Htmp).
    pose proof (safeMove_behaviour (cogTmpFile_of cfg f) (cogPath_of cfg f) 420%N w4)
      as Hmove.
    cbv zeta in Hmove. rewrite H5 in Hmove. destruct Hmove as (_ & _ & _ & Hok).
    destruct (Hok eq_refl Hne) as (Hgone & f0 & Hsrc & Hdst). simpl in Hgone, Hdst.
    rewrite Htmp in Hsrc. injection Hsrc as <-. simpl in Hdst.
    assert (Hprep : band_prepare cfg attrs (b, a) f w = (Ok tt, w3)).
    { unfold band_prepare. cbv zeta. rewrite bind_run, P1, bind_run, P2.
      rewrite bind_run. unfold lift. rewrite Hmd, bind_run, Hbmd. exact P3. }
    assert (Hmeta : exists raster,
              content <$> (files w3 !! tiffFile_of cfg f)
              = Some (embed_metadata raster md bmd (description b))).
    { unfold gdal_set_metadata, syscall in P3.
      destruct (fault (calls w2)); [discriminate |]. simpl in P3.
      destruct (files w2 !! tiffFile_of cfg f) as [f0 |]; [| discriminate].
      injection P3 as <-. exists (content f0). simpl.
      now rewrite lookup_insert_eq. }
    destruct Hmeta as [raster Hmeta].
    exists out, raster, md, bmd, w3. auto 10.
Qed.

End Commands.

Section Loop.
Context `{E : Env}.

(** The temporary files recorded and the commands run by a loop that ends
    well. *)
Lemma bandLoop_exact (cfg : CogCfg) (attrs : dict) (bands : list (BandInfo * dict)) :
  forall t w outs t' w',
    bandLoop cfg attrs bands t w = (Ok (outs, t'), w') ->
    length outs = length bands
    /\ t' = t ++ flat_map (temps_of cfg) (zip (map fst bands) outs)
    /\ cmds w' = cmds w ++ flat_map (commands_of cfg) (zip (map fst bands) outs)
    /\ (overwriteExistingFiles cfg = true -> Forall (eq Published) outs).
Proof.
  induction bands as [|[b a] bands IH]; intros t w outs t' w' Hrun.
  - injection Hrun as <- <- <-. simpl. now rewrite !app_nil_r.
  - rewrite bandLoop_cons in Hrun.
    destruct (processBand cfg attrs (b, a) t w) as [[[o t1] | e] w1] eqn:Hband;
      [| discriminate].
    destruct (bandLoop cfg attrs bands t1 w1) as [[[os t2] | e] w2] eqn:Hrest;
      [| discriminate].
    injection Hrun as <- <- <-.
    destruct (IH _ _ _ _ _ Hrest) as (Hlen & Ht & Hc & Hov).
    pose proof Hband as Hband'.
    apply processBand_ok in Hband' as (f & Hf & Ho).
    cbn [map zip zip_with flat_map length].
    unfold temps_of at 1, commands_of at 1. cbn [fst snd]. rewrite Hf.
    destruct o.
    + destruct Ho as (-> & -> & Hno & _). simpl.
      repeat split; auto; intros Hyes; congruence.
    + destruct Ho as (-> & _).
      destruct (processBand_published cfg attrs b a t _ w w1 f Hband Hf) as (Hc1 & _).
      rewrite Hc1 in Hc. rewrite <- !app_assoc in *.
      repeat split; auto; intros Hyes; constructor; auto.
Qed.

(** Removing a file that is not there does not end well. *)
Lemma removeTempFiles_missing (l : list string) (q : string) :
  forall w, q ∈ l -> files w !! q = None ->
  is_ok (fst (removeTempFiles l w)) = false.
Proof.
  induction l as [|p l IH]; intros w Hq Hnone; [now apply elem_of_nil in Hq |].
  cbn [removeTempFiles]. rewrite bind_run.
  destruct (os_remove p w) as [[[] | e] w1] eqn:Hrm; [| reflexivity].
  destruct (os_remove_absent p q _ _ _ Hrm) as [Hkeep Hgone].
  apply elem_of_cons in Hq as [-> | Hq].
  - rewrite os_remove_run in Hrm. destruct (fault (calls w)); [discriminate |].
    rewrite Hnone in Hrm. discriminate.
  - apply IH; auto.
Qed.

Lemma removeTempFiles_ok_NoDup (l : list string) :
  forall w, is_ok (fst (removeTempFiles l w)) = true ->
  NoDup l /\ forall p, p ∈ l -> is_Some (files w !! p).
Proof.
  induction l as [|p l IH]; intros w Hok.
  - split; [constructor |]. intros p Hp. now apply elem_of_nil in Hp.
  - cbn [removeTempFiles] in Hok. rewrite bind_run in Hok.
    destruct (os_remove p w) as [[[] | e] w1] eqn:Hrm; [| discriminate].
    destruct (IH _ Hok) as [Hnd Hall].
    assert (Hgone : files w1 !! p = None) by (eapply os_remove_absent; eauto).
    assert (Hp : p ∉ l).
    { intros Hc. pose proof (removeTempFiles_missing l p w1 Hc Hgone) as Hno.
      rewrite Hno in Hok. discriminate. }
    split; [now constructor |].
    intros q Hq.
    destruct (files w !! q) eqn:Hwq; [now eexists |].
    pose proof (removeTempFiles_missing (p :: l) q w Hq Hwq) as Hno.
    cbn [removeTempFiles] in Hno. rewrite bind_run, Hrm in Hno.
    rewrite Hno in Hok. discriminate.
Qed.

Lemma removeTempFiles_present (Hff : fault_free) (l : list string) :
  forall w, NoDup l -> (forall p, p ∈ l -> is_Some (files w !! p)) ->
  is_ok (fst (removeTempFiles l w)) = true.
Proof.
  induction l as [|p l IH]; intros w Hnd Hall; [reflexivity |].
  apply NoDup_cons in Hnd as [Hp Hnd].
  cbn [removeTempFiles]. rewrite bind_run, os_remove_run, Hff.
  destruct (Hall p) as [f Hf]; [now left |]. rewrite Hf.
  apply IH; [exact Hnd |]. intros q Hq. simpl.
  rewrite lookup_delete_ne; [apply Hall; now right |].
  intros ->. contradiction.
Qed.

Lemma flat_map_twice {A} (g : A -> list string) (l : list A) (i j : nat)
  (a b : A) (x : string) :
  i <> j -> l !! i = Some a -> l !! j = Some b -> x ∈ g a -> x ∈ g b ->
  ~ NoDup (flat_map g l).
Proof.
  assert (Hlt : forall (l : list A) i j a b,
    i < j -> l !! i = Some a -> l !! j = Some b -> x ∈ g a -> x ∈ g b ->
    ~ NoDup (flat_map g l)).
  { clear. intros l. induction l as [|c l IH]; intros i j a b Hij Hi Hj Ha Hb Hnd;
      [discriminate |].
    cbn [flat_map] in Hnd. apply NoDup_app in Hnd as (_ & Hdisj & Hnd).
    destruct j as [|j]; [lia |]. simpl in Hj.
    destruct i as [|i].
    - injection Hi as ->. apply (Hdisj x Ha).
      apply list_elem_of_In, in_flat_map. exists b. split; apply list_elem_of_In; auto.
      eapply list_elem_of_lookup_2; eauto.
    - simpl in Hi. apply (IH i j a b); auto. lia. }
  intros Hij Hi Hj Ha Hb.
  destruct (Nat.lt_ge_cases i j) as [H | H].
  - now apply (Hlt l i j a b).
  - apply (Hlt l j i b a); auto. lia.
Qed.

End Loop.

Section Job.
Context `{E : Env}.

(** The stages of a run that ends well. *)
Lemma cogProcessor_ok (cfg : CogCfg) (src : Dataset) (w : World) (outs : list outcome) :
  fst (cogProcessor cfg src w) = Ok outs ->
  exists w0 bands tl w1,
    prelude cfg w = (Ok tt, w0)
    /\ attach_attributes cfg src (bandInfoList cfg) = Ok bands
    /\ map fst bands = bandInfoList cfg
    /\ bandLoop cfg (ncattrs src) bands [] w0 = (Ok (outs, tl), w1)
    /\ removeTempFiles tl w1 = (Ok tt, snd (cogProcessor cfg src w)).
Proof.
  rewrite cogProcessor_run. intros Hrun.
  destruct (prelude cfg w) as [[[] | e0] w0]; [| discriminate].
  destruct (attach_attributes cfg src (bandInfoList cfg)) as [bands | e1] eqn:Hatt;
    [| discriminate].
  destruct (bandLoop cfg (ncattrs src) bands [] w0) as [[[outs' tl] | e2] w1] eqn:Hloop;
    [| discriminate].
  destruct (removeTempFiles tl w1) as [[[] | e3] w2] eqn:Hclean; [| discriminate].
  simpl in Hrun. injection Hrun as ->. simpl snd.
  exists w0, bands, tl, w1. repeat split; auto.
  eapply attach_attributes_fst; eauto.
Qed.

(** X4: in a run that ends well the commands run are those of the bands
    that were published, band after band in the configured order: for each
    the extraction, then (when overviews are configured) the cleaning and
    the building of the overviews, then the final encoding; a band that is
    skipped runs none. *)
Theorem commands_in_order (cfg : CogCfg) (src : Dataset) (w : World)
  (outs : list outcome) :
  fst (cogProcessor cfg src w) = Ok outs ->
  cmds (snd (cogProcessor cfg src w))
  = cmds w ++ flat_map (commands_of cfg) (zip (bandInfoList cfg) outs).
Proof.
  intros Hrun.
  destruct (cogProcessor_ok cfg src w outs Hrun)
    as (w0 & bands & tl & w1 & Hpre & _ & Hfst & Hloop & Hclean).
  rewrite (M_quiet_removeTempFiles _ _ _ _ Hclean).
  destruct (bandLoop_exact _ _ _ _ _ _ _ _ Hloop) as (_ & _ & Hc & _).
  rewrite Hc, Hfst. now rewrite (M_quiet_prelude _ _ _ _ Hpre).
Qed.

(** X5: a band that is published leaves its output file with the content
    the final encoding produced in this very turn and the permissions
    0o644, and the encoded temporary file is gone (the two paths being
    different).  The encoding ran on the files as the statements before it
    left them ([band_prepare]: extraction, overviews, metadata), where the
    base raster holds the translated file and band attributes and the
    description of the band. *)
Theorem published_output (cfg : CogCfg) (attrs : dict) (b : BandInfo) (a : dict)
  (t t' : list string) (w : World) (f : string) :
  let run := processBand cfg attrs (b, a) t w in
  let ready := band_prepare cfg attrs (b, a) f w in
  fst run = Ok (Published, t') ->
  cogFile_of cfg b = Ok f ->
  cogTmpFile_of cfg f <> cogPath_of cfg f ->
  exists out raster md bmd,
    fst ready = Ok tt
    /\ _convertFileAttributes attrs (attributeConversion cfg) f = Ok md
    /\ _convertBandAttributes a (attributeConversion cfg) = Ok bmd
    /\ content <$> (files (snd ready) !! tiffFile_of cfg f)
       = Some (embed_metadata raster md bmd (description b))
    /\ toolchain (cmd_cog cfg (tiffFile_of cfg f) (cogTmpFile_of cfg f))
         (files (snd ready)) = Exit0 out
    /\ files (snd run) !! cogPath_of cfg f = Some (mkfile out 420)
    /\ files (snd run) !! cogTmpFile_of cfg f = None.
Proof.
  intros run ready Hrun Hf Hne. destruct run as [r w'] eqn:Hband.
  simpl in Hrun. subst r. simpl snd.
  destruct (processBand_published cfg attrs b a t t' w w' f Hband Hf)
    as (_ & _ & Hout).
  destruct (Hout Hne) as (out & raster & md & bmd & w3 & Hprep & Hrest).
  exists out, raster, md, bmd. subst ready. rewrite Hprep. exact (conj eq_refl Hrest).
Qed.

(** X6: with overwrite enabled no band is skipped: in a run that ends well
    every band was published, whether its output was there or not. *)
Theorem overwrite_never_skips (cfg : CogCfg) (src : Dataset) (w : World)
  (outs : list outcome) :
  overwriteExistingFiles cfg = true ->
  fst (cogProcessor cfg src w) = Ok outs ->
  outs = repeat Published (length (bandInfoList cfg)).
Proof.
  intros Hov Hrun.
  destruct (cogProcessor_ok cfg src w outs Hrun)
    as (w0 & bands & tl & w1 & _ & _ & Hfst & Hloop & _).
  destruct (bandLoop_exact _ _ _ _ _ _ _ _ Hloop) as (Hlen & _ & _ & Hall).
  rewrite <- Hfst, length_map, <- Hlen. specialize (Hall Hov).
  clear -Hall. induction Hall as [|o os <- _ IH]; [reflexivity |].
  simpl. now rewrite <- IH.
Qed.

(** X7: the clean-up, when no system call fails, ends well exactly when the
    recorded files are all different and all there; a file recorded twice or
    missing stops it with an error. *)
Theorem cleanup_succeeds_iff (l : list string) (w : World) :
  fault_free ->
  (is_ok (fst (removeTempFiles l w)) = true
   <-> NoDup l /\ forall p, p ∈ l -> is_Some (files w !! p)).
Proof.
  intros Hff. split.
  - apply removeTempFiles_ok_NoDup.
  - intros [Hnd Hall]. now apply removeTempFiles_present.
Qed.

(** X8: a job with overwrite enabled in which two bands are written under
    the same output name never ends well: both record the same base raster,
    and the clean-up fails on its second removal. *)
Theorem same_name_never_succeeds (cfg : CogCfg) (src : Dataset) (w : World)
  (i j : nat) (bi bj : BandInfo) (f : string) :
  overwriteExistingFiles cfg = true ->
  i <> j ->
  bandInfoList cfg !! i = Some bi ->
  bandInfoList cfg !! j = Some bj ->
  cogFile_of cfg bi = Ok f ->
  cogFile_of cfg bj = Ok f ->
  is_ok (fst (cogProcessor cfg src w)) = false.
Proof.
  intros Hov Hij Hi Hj Hfi Hfj.
  destruct (fst (cogProcessor cfg src w)) as [outs | e] eqn:Hrun; [| reflexivity].
  exfalso.
  destruct (cogProcessor_ok cfg src w outs Hrun)
    as (w0 & bands & tl & w1 & _ & _ & Hfst & Hloop & Hclean).
  destruct (bandLoop_exact _ _ _ _ _ _ _ _ Hloop) as (Hlen & Htl & _ & Hall).
  specialize (Hall Hov). rewrite Hfst in Htl. simpl in Htl.
  assert (Hnd : NoDup tl).
  { apply (removeTempFiles_ok_NoDup tl w1). now rewrite Hclean. }
  assert (Hlen' : length outs = length (bandInfoList cfg))
    by now rewrite Hlen, <- Hfst, length_map.
  assert (Hzip : forall k bk, bandInfoList cfg !! k = Some bk ->
            zip (bandInfoList cfg) outs !! k = Some (bk, Published)).
  { intros k bk Hk. apply lookup_zip_with_Some.
    destruct (outs !! k) as [o |] eqn:Ho.
    - exists bk, o. repeat split; auto.
      rewrite Forall_lookup in Hall. now rewrite <- (Hall k o Ho).
    - apply lookup_ge_None in Ho. apply lookup_lt_Some in Hk. lia. }
  rewrite Htl in Hnd.
  refine (flat_map_twice (temps_of cfg) (zip (bandInfoList cfg) outs) i j
            (bi, Published) (bj, Published) (tiffFile_of cfg f)
            Hij (Hzip _ _ Hi) (Hzip _ _ Hj) _ _ Hnd).
  - unfold temps_of. cbn [fst snd]. rewrite Hfi. unfold recorded_temps. now left.
  - unfold temps_of. cbn [fst snd]. rewrite Hfj. unfold recorded_temps. now left.
Qed.

End Job.

Lemma commands_in_order_witness :
  fst (@cogProcessor env_fine (cfg_ndvi [band_ndvi; band_unc]) src_ndvi (world_of ∅))
  = Ok [Published; Published]
  /\ cmds (snd (@cogProcessor env_fine (cfg_ndvi [band_ndvi; band_unc]) src_ndvi
                  (world_of ∅)))
     = cmds (world_of ∅)
       ++ flat_map (commands_of (cfg_ndvi [band_ndvi; band_unc]))
            (zip (bandInfoList (cfg_ndvi [band_ndvi; band_unc]))
                 [Published; Published]).
Proof.
  assert (Hrun :
    fst (@cogProcessor env_fine (cfg_ndvi [band_ndvi; band_unc]) src_ndvi (world_of ∅))
    = Ok [Published; Published]) by (vm_compute; reflexivity).
  split; [exact Hrun |].
  exact (@commands_in_order env_fine _ _ _ _ Hrun).
Defined.

Lemma fault_free_fine : @fault_free env_fine.
Proof. intros n. reflexivity. Qed.

Lemma cleanup_succeeds_iff_witness :
  @fault_free env_fine
  /\ (is_ok (fst (@removeTempFiles env_fine ["a"; "a"] (world_of (<["a" := mkfile "x" 420]> ∅))))
      = true
      <-> NoDup ["a"; "a"]
          /\ forall p, p ∈ ["a"; "a"] ->
               is_Some (files (world_of (<["a" := mkfile "x" 420]> ∅)) !! p)).
Proof.
  split; [exact fault_free_fine |].
  exact (@cleanup_succeeds_iff env_fine ["a"; "a"] _ fault_free_fine).
Defined.

Lemma overwrite_never_skips_witness :
  overwriteExistingFiles (with_bands cfg_same_name [band_ndvi]) = true
  /\ fst (@cogProcessor env_fine (with_bands cfg_same_name [band_ndvi]) src_ndvi
            (world_of (<["/data/cog/c_gls_NDVI300-NDVI_202404010000_GLOBE_OLCI_V2.0.1.tiff"
                         := mkfile "OLD" 420]> ∅)))
     = Ok [Published]
  /\ [Published]
     = repeat Published (length (bandInfoList (with_bands cfg_same_name [band_ndvi]))).
Proof.
  assert (Hrun :
    fst (@cogProcessor env_fine (with_bands cfg_same_name [band_ndvi]) src_ndvi
           (world_of (<["/data/cog/c_gls_NDVI300-NDVI_202404010000_GLOBE_OLCI_V2.0.1.tiff"
                        := mkfile "OLD" 420]> ∅)))
    = Ok [Published]) by (vm_compute; reflexivity).
  split; [reflexivity |]. split; [exact Hrun |].
  exact (@overwrite_never_skips env_fine (with_bands cfg_same_name [band_ndvi])
           _ _ _ eq_refl Hrun).
Defined.

Lemma same_name_never_succeeds_witness :
  (overwriteExistingFiles cfg_same_name = true
   /\ cogFile_of cfg_same_name
        {| inBand := "NDVI"; outBand := Some "Q"; resampleMethod := "average";
           description := "first" |}
      = Ok "c_gls_NDVI300-Q_202404010000_GLOBE_OLCI_V2.0.1.tiff"
   /\ cogFile_of cfg_same_name
        {| inBand := "NDVI_unc"; outBand := Some "Q"; resampleMethod := "average";
           description := "second" |}
      = Ok "c_gls_NDVI300-Q_202404010000_GLOBE_OLCI_V2.0.1.tiff")
  /\ is_ok (fst (@cogProcessor env_fine cfg_same_name src_ndvi (world_of ∅))) = false.
Proof.
  split; [repeat split; reflexivity |].
  refine (@same_name_never_succeeds env_fine cfg_same_name src_ndvi (world_of ∅)
            0 1 _ _ "c_gls_NDVI300-Q_202404010000_GLOBE_OLCI_V2.0.1.tiff"
            eq_refl _ eq_refl eq_refl eq_refl eq_refl).
  discriminate.
Defined.

Example same_name_sample :
  let run := @cogProcessor env_fine cfg_same_name src_ndvi (world_of ∅) in
  fst run
  = Raise (FileNotFoundError "/tmp/cog/c_gls_NDVI300-Q_202404010000_GLOBE_OLCI_V2.0.1_base.tiff")
  /\ is_Some (files (snd run)
                !! "/data/cog/c_gls_NDVI300-Q_202404010000_GLOBE_OLCI_V2.0.1.tiff").
Proof. vm_compute. split; [reflexivity | now eexists]. Qed.

Lemma published_output_witness :
  (fst (@processBand env_fine (cfg_ndvi [band_ndvi]) attrs_file (band_ndvi, attrs_flags)
          [] (world_of ∅))
   = Ok (Published,
         ["/tmp/cog/c_gls_NDVI300-NDVI_202404010000_GLOBE_OLCI_V2.0.1_base.tiff";
          "/tmp/cog/c_gls_NDVI300-NDVI_202404010000_GLOBE_OLCI_V2.0.1_base.tiff.ovr"])
   /\ cogFile_of (cfg_ndvi [band_ndvi]) band_ndvi
      = Ok "c_gls_NDVI300-NDVI_202404010000_GLOBE_OLCI_V2.0.1.tiff"
   /\ cogTmpFile_of (cfg_ndvi [band_ndvi])
        "c_gls_NDVI300-NDVI_202404010000_GLOBE_OLCI_V2.0.1.tiff"
      <> cogPath_of (cfg_ndvi [band_ndvi])
           "c_gls_NDVI300-NDVI_202404010000_GLOBE_OLCI_V2.0.1.tiff")
  /\ exists out,
       toolchain (Env := env_fine)
         (cmd_cog (cfg_ndvi [band_ndvi])
            (tiffFile_of (cfg_ndvi [band_ndvi])
               "c_gls_NDVI300-NDVI_202404010000_GLOBE_OLCI_V2.0.1.tiff")
            (cogTmpFile_of (cfg_ndvi [band_ndvi])
               "c_gls_NDVI300-NDVI_202404010000_GLOBE_OLCI_V2.0.1.tiff"))
         (files (snd (@band_prepare env_fine (cfg_ndvi [band_ndvi]) attrs_file
                        (band_ndvi, attrs_flags)
                        "c_gls_NDVI300-NDVI_202404010000_GLOBE_OLCI_V2.0.1.tiff"
                        (world_of ∅))))
       = Exit0 out
       /\ files (snd (@processBand env_fine (cfg_ndvi [band_ndvi]) attrs_file
                        (band_ndvi, attrs_flags) [] (world_of ∅)))
            !! cogPath_of (cfg_ndvi [band_ndvi])
                 "c_gls_NDVI300-NDVI_202404010000_GLOBE_OLCI_V2.0.1.tiff"
          = Some (mkfile out 420).
Proof.
  assert (Hrun :
    fst (@processBand env_fine (cfg_ndvi [band_ndvi]) attrs_file (band_ndvi, attrs_flags)
           [] (world_of ∅))
    = Ok (Published,
          ["/tmp/cog/c_gls_NDVI300-NDVI_202404010000_GLOBE_OLCI_V2.0.1_base.tiff";
           "/tmp/cog/c_gls_NDVI300-NDVI_202404010000_GLOBE_OLCI_V2.0.1_base.tiff.ovr"]))
    by (vm_compute; reflexivity).
  assert (Hne : cogTmpFile_of (cfg_ndvi [band_ndvi])
                  "c_gls_NDVI300-NDVI_202404010000_GLOBE_OLCI_V2.0.1.tiff"
                <> cogPath_of (cfg_ndvi [band_ndvi])
                     "c_gls_NDVI300-NDVI_202404010000_GLOBE_OLCI_V2.0.1.tiff")
    by (vm_compute; discriminate).
  split; [split; [exact Hrun | split; [reflexivity | exact Hne]] |].
  destruct (@published_output env_fine (cfg_ndvi [band_ndvi]) attrs_file band_ndvi
              attrs_flags [] _ (world_of ∅)
              "c_gls_NDVI300-NDVI_202404010000_GLOBE_OLCI_V2.0.1.tiff"
              Hrun eq_refl Hne)
    as (out & raster & md & bmd & _ & _ & _ & _ & Htool & Hout & _).
  exists out. exact (conj Htool Hout).
Defined.

Section JobFailures.
Context `{E : Env}.

Lemma touches_nothing (w w' : World) : touches [] w w' -> files w' = files w.
Proof.
  intros (Hframe & _). apply map_eq. intros q. apply Hframe.
  apply not_elem_of_nil.
Qed.

Lemma prelude_nothing (cfg : CogCfg) (w w' : World) (r : result unit) :
  prelude cfg w = (r, w') -> files w' = files w /\ cmds w' = cmds w.
Proof.
  intros Hrun. split; [| eapply M_quiet_prelude; eauto].
  apply touches_nothing. revert Hrun. unfold prelude.
  apply (M_touches_bind [] (ensureFolder (outFolder cfg))
           (fun _ => ensureFolder (tmpFolder cfg))).
  - apply M_touches_ensureFolder.
  - intros _. apply M_touches_ensureFolder.
Qed.

(** X9: a band of the list that the input file does not hold stops the job
    before any band is processed: the job fails, with the [ValueError] naming
    the first such band once the folders are there, no command has been run
    and no file has been created, changed or removed. *)
Theorem missing_band_fails_first (cfg : CogCfg) (src : Dataset) (w : World)
  (pre post : list BandInfo) (b : BandInfo) :
  bandInfoList cfg = pre ++ b :: post ->
  (forall b', b' ∈ pre -> is_Some (variable_attributes (inBand b') (variables src))) ->
  variable_attributes (inBand b) (variables src) = None ->
  is_ok (fst (cogProcessor cfg src w)) = false
  /\ files (snd (cogProcessor cfg src w)) = files w
  /\ cmds (snd (cogProcessor cfg src w)) = cmds w
  /\ (is_ok (fst (prelude cfg w)) = true ->
      fst (cogProcessor cfg src w) = Raise (band_not_found cfg src b)).
Proof.
  intros Hbands Hpre Hb. rewrite cogProcessor_run.
  destruct (prelude cfg w) as [[[] | e0] w0] eqn:Hprel.
  - destruct (prelude_nothing _ _ _ _ Hprel) as [Hf Hc].
    rewrite Hbands, attach_attributes_app.
    apply (attach_attributes_found cfg) in Hpre.
    destruct (attach_attributes cfg src pre) as [l |]; [| discriminate].
    cbn [mbind result_bind attach_attributes]. rewrite Hb. auto.
  - destruct (prelude_nothing _ _ _ _ Hprel) as [Hf Hc]. simpl.
    repeat split; auto. discriminate.
Qed.

(** X10: when the name of the input file does not parse, a job with at
    least one band fails before any command is run and any file is touched:
    the error of the parse comes out of the first turn of the loop. *)
Theorem bad_name_fails_first (cfg : CogCfg) (src : Dataset) (w : World) (e : exn) :
  _unpackNetCDFProductName (OsPath.basename (inFile cfg)) (hasTimeIndex cfg)
  = Raise e ->
  bandInfoList cfg <> [] ->
  is_ok (fst (cogProcessor cfg src w)) = false
  /\ files (snd (cogProcessor cfg src w)) = files w
  /\ cmds (snd (cogProcessor cfg src w)) = cmds w
  /\ (is_ok (fst (prelude cfg w)) = true ->
      is_ok (attach_attributes cfg src (bandInfoList cfg)) = true ->
      fst (cogProcessor cfg src w) = Raise e).
Proof.
  intros Hparse Hne. rewrite cogProcessor_run.
  destruct (prelude cfg w) as [[[] | e0] w0] eqn:Hprel;
    destruct (prelude_nothing _ _ _ _ Hprel) as [Hf Hc];
    [| simpl; repeat split; auto; discriminate].
  destruct (attach_attributes cfg src (bandInfoList cfg)) as [bands | e1] eqn:Hatt;
    [| simpl; repeat split; auto; discriminate].
  apply attach_attributes_fst in Hatt.
  destruct bands as [|[b a] bands]; [simpl in Hatt; congruence |].
  rewrite bandLoop_cons.
  assert (Hband : processBand cfg (ncattrs src) (b, a) [] w0 = (Raise e, w0)).
  { unfold processBand. rewrite bind_run. unfold lift, cogFile_of, createCogFileName.
    now rewrite Hparse. }
  rewrite Hband. simpl. auto.
Qed.

End JobFailures.

Lemma missing_band_fails_first_witness :
  (bandInfoList (cfg_ndvi [band_ndvi; band_unc]) = [band_ndvi] ++ band_unc :: []
   /\ (forall b', b' ∈ [band_ndvi] ->
         is_Some (variable_attributes (inBand b') [("NDVI", attrs_flags)]))
   /\ variable_attributes (inBand band_unc) [("NDVI", attrs_flags)] = None)
  /\ fst (@cogProcessor env_fine (cfg_ndvi [band_ndvi; band_unc])
            {| ncattrs := attrs_file; variables := [("NDVI", attrs_flags)] |}
            (world_of ∅))
     = Raise (band_not_found (cfg_ndvi [band_ndvi; band_unc])
                {| ncattrs := attrs_file; variables := [("NDVI", attrs_flags)] |}
                band_unc).
Proof.
  assert (Hpre : forall b', b' ∈ [band_ndvi] ->
            is_Some (variable_attributes (inBand b') [("NDVI", attrs_flags)])).
  { intros b' Hb'. apply list_elem_of_singleton in Hb'. subst b'.
    exists attrs_flags. reflexivity. }
  split; [split; [reflexivity | split; [exact Hpre | reflexivity]] |].
  refine (proj2 (proj2 (proj2 (@missing_band_fails_first env_fine
            (cfg_ndvi [band_ndvi; band_unc])
            {| ncattrs := attrs_file; variables := [("NDVI", attrs_flags)] |}
            (world_of ∅) [band_ndvi] [] band_unc eq_refl Hpre eq_refl))) _).
  vm_compute. reflexivity.
Defined.

Lemma bad_name_fails_first_witness :
  (_unpackNetCDFProductName (OsPath.basename (inFile cfg_bad_name))
     (hasTimeIndex cfg_bad_name)
   = Raise (incompatible "NDVI300-RT0-X-Y" true)
   /\ bandInfoList cfg_bad_name <> [])
  /\ is_ok (fst (@cogProcessor env_fine cfg_bad_name src_ndvi (world_of ∅))) = false.
Proof.
  assert (Hne : bandInfoList cfg_bad_name <> []) by discriminate.
  split; [split; [reflexivity | exact Hne] |].
  exact (proj1 (@bad_name_fails_first env_fine cfg_bad_name src_ndvi (world_of ∅)
                  (incompatible "NDVI300-RT0-X-Y" true) eq_refl Hne)).
Defined.


Section JobFrame.
Context `{E : Env}.

(** X11: whatever their outcome and whichever system call fails, the file
    operations the code performs itself stay on their own paths:
    [_safeMove] works on [src], [dst] and [dst.temp] only, and the clean-up
    on the recorded temporary files only; every other file is, at every
    moment of the operation, as it was before, and no directory is lost. *)
Theorem file_operations_frame (w : World) :
  (forall src dst mod_,
     touches [dst +:+ ".temp"; dst; src] w (snd (_safeMove src dst mod_ w)))
  /\ (forall l, touches l w (snd (removeTempFiles l w))).
Proof.
  split.
  - intros src dst mod_.
    apply (M_touches_safeMove src dst mod_ w (fst (_safeMove src dst mod_ w))).
    apply surjective_pairing.
  - intros l.
    apply (M_touches_removeTempFiles l w (fst (removeTempFiles l w))).
    apply surjective_pairing.
Qed.

(** X12: after a run that ends well, for a job none of whose output paths
    is one of its temporary paths, the output file of every band is
    there. *)
Theorem outputs_exist (cfg : CogCfg) (src : Dataset) (w : World)
  (outs : list outcome) :
  separated cfg = true ->
  fst (cogProcessor cfg src w) = Ok outs ->
  forall p, p ∈ job_outputs cfg ->
    is_Some (files (snd (cogProcessor cfg src w)) !! p).
Proof.
  intros Hsep Hrun p Hp. pose proof (separated_spec cfg Hsep) as Hdisj.
  destruct (cogProcessor_ok cfg src w outs Hrun)
    as (w0 & bands & tl & w1 & _ & _ & Hfst & Hloop & Hclean).
  assert (Hin : forall ba, ba ∈ bands -> fst ba ∈ bandInfoList cfg).
  { intros ba Hba. rewrite <- Hfst. apply list_elem_of_fmap. now exists ba. }
  assert (Htemps : forall ba, ba ∈ bands ->
            forall q, q ∈ band_temps cfg (fst ba) -> q ∈ job_temps cfg).
  { intros ba Hba q Hq. unfold job_temps. apply list_elem_of_In, in_flat_map.
    exists (fst ba). split; apply list_elem_of_In; auto. }
  assert (Houts : forall ba, ba ∈ bands ->
            forall q, q ∈ band_output cfg (fst ba) -> q ∉ job_temps cfg).
  { intros ba Hba q Hq. apply Hdisj. unfold job_outputs.
    apply list_elem_of_In, in_flat_map.
    exists (fst ba). split; apply list_elem_of_In; auto. }
  destruct (bandLoop_establishes cfg (ncattrs src) (job_temps cfg) bands Htemps Houts
              [] [] w0 outs tl w1) as (_ & Hbands & Htl & _); auto;
    try (intros q Hq; now apply elem_of_nil in Hq).
  pose proof (M_touches_removeTempFiles tl _ _ _ Hclean) as (Hframe & _).
  apply list_elem_of_In, in_flat_map in Hp as (b & Hb & Hpb).
  apply list_elem_of_In in Hb, Hpb. rewrite <- Hfst in Hb.
  apply list_elem_of_fmap in Hb as (ba & -> & Hba).
  destruct (Hbands ba Hba) as (f & Hf & Hpres).
  unfold band_output in Hpb. rewrite Hf in Hpb.
  apply list_elem_of_singleton in Hpb. subst p.
  rewrite Hframe; [exact Hpres |].
  intros Hc. apply (Houts ba Hba (cogPath_of cfg f)).
  - unfold band_output. rewrite Hf. now left.
  - now apply Htl.
Qed.

End JobFrame.

Lemma outputs_exist_witness :
  (separated (cfg_ndvi [band_ndvi; band_unc]) = true
   /\ fst (@cogProcessor env_fine (cfg_ndvi [band_ndvi; band_unc]) src_ndvi (world_of ∅))
      = Ok [Published; Published]
   /\ "/data/cog/c_gls_NDVI300-UNC_202404010000_GLOBE_OLCI_V2.0.1.tiff"
        ∈ job_outputs (cfg_ndvi [band_ndvi; band_unc]))
  /\ is_Some (files (snd (@cogProcessor env_fine (cfg_ndvi [band_ndvi; band_unc])
                            src_ndvi (world_of ∅)))
                !! "/data/cog/c_gls_NDVI300-UNC_202404010000_GLOBE_OLCI_V2.0.1.tiff").
Proof.
  assert (Hsep : separated (cfg_ndvi [band_ndvi; band_unc]) = true)
    by (vm_compute; reflexivity).
  assert (Hrun :
    fst (@cogProcessor env_fine (cfg_ndvi [band_ndvi; band_unc]) src_ndvi (world_of ∅))
    = Ok [Published; Published]) by (vm_compute; reflexivity).
  assert (Hp : "/data/cog/c_gls_NDVI300-UNC_202404010000_GLOBE_OLCI_V2.0.1.tiff"
               ∈ job_outputs (cfg_ndvi [band_ndvi; band_unc])) by by_compute.
  split; [split; [exact Hsep | split; [exact Hrun | exact Hp]] |].
  exact (@outputs_exist env_fine (cfg_ndvi [band_ndvi; band_unc]) src_ndvi (world_of ∅)
           [Published; Published] Hsep Hrun _ Hp).
Defined.

(** ** The safe move and the folder creation: edge cases *)

Section SafeMoveEdges.
Context `{E : Env}.
Hypothesis Hff : fault_free.

Lemma os_remove_present (p : string) (w : World) (f : file) :
  files w !! p = Some f ->
  os_remove p w = (Ok tt, set_files (delete p (files w)) (tick w)).
Proof. intros Hp. now rewrite os_remove_run, Hff, Hp. Qed.

(** Without faults the copy half ends well when [src] is there and is not
    the temporary path. *)
Lemma safeMove_copy_succeeds (src dst : string) (w : World) (f : file) :
  files w !! src = Some f ->
  src <> dst +:+ ".temp" ->
  exists w1, safeMove_copy src dst w = (Ok tt, w1).
Proof.
  intros Hsrc Hne. unfold safeMove_copy. rewrite bind_run. simpl.
  assert (Hcopy : forall w0, files w0 !! src = Some f ->
            exists w1, shutil_copy src (dst +:+ ".temp") w0 = (Ok tt, w1)).
  { intros w0 Hs. unfold shutil_copy. simpl. rewrite Hs.
    rewrite bool_decide_eq_false_2 by exact Hne. rewrite Hff. eauto. }
  destruct (bool_decide_reflect (is_Some (files w !! (dst +:+ ".temp"))))
    as [[ft Ht] | Hnone].
  - rewrite bind_run, (os_remove_present _ _ _ Ht). apply Hcopy. simpl.
    now rewrite lookup_delete_ne.
  - rewrite bind_run. simpl. now apply Hcopy.
Qed.

(** Without faults the publishing half ends well once the temporary copy
    and [src] are there; the temporary copy is gone afterwards. *)
Lemma safeMove_publish_succeeds (src dst : string) (mod_ : N) (w1 : World)
  (f ftmp : file) :
  files w1 !! (dst +:+ ".temp") = Some ftmp ->
  files w1 !! src = Some f ->
  src <> dst +:+ ".temp" ->
  exists w2, safeMove_publish src dst mod_ w1 = (Ok tt, w2)
    /\ files w2 !! (dst +:+ ".temp") = None.
Proof.
  intros Htmp Hsrc Hne. pose proof (temp_ne dst) as Hdt.
  unfold safeMove_publish. rewrite bind_run. simpl.
  assert (Htail : forall w2,
    files w2 !! (dst +:+ ".temp") = Some ftmp ->
    (src <> dst -> files w2 !! src = Some f) ->
    exists w3,
      (_ ← os_rename (dst +:+ ".temp") dst; _ ← os_chmod dst mod_; os_remove src) w2
      = (Ok tt, w3)
      /\ files w3 !! (dst +:+ ".temp") = None).
  { intros w2 Ht Hs. rewrite bind_run, os_rename_run, Hff, Ht.
    rewrite bind_run, os_chmod_run, Hff. simpl. rewrite lookup_insert_eq.
    rewrite os_remove_run, Hff. simpl.
    destruct (decide (src = dst)) as [-> | Hsd].
    - rewrite lookup_insert_eq. eexists. split; [reflexivity |]. simpl.
      rewrite lookup_delete_ne by auto. rewrite lookup_insert_ne by auto.
      rewrite lookup_insert_ne by auto. apply lookup_delete_eq.
    - rewrite lookup_insert_ne by auto. rewrite lookup_insert_ne by auto.
      rewrite lookup_delete_ne by auto. rewrite (Hs Hsd).
      eexists. split; [reflexivity |]. simpl.
      rewrite lookup_delete_ne by auto. rewrite lookup_insert_ne by auto.
      rewrite lookup_insert_ne by auto. apply lookup_delete_eq. }
  destruct (bool_decide_reflect (is_Some (files w1 !! dst))) as [[fd Hd] | Hnone].
  - rewrite bind_run, (os_remove_present _ _ _ Hd). apply Htail; simpl.
    + now rewrite lookup_delete_ne.
    + intros Hsd. now rewrite lookup_delete_ne.
  - rewrite bind_run. simpl. apply Htail; auto.
Qed.

Lemma safeMove_ok_src_gone (src dst : string) (mod_ : N) (w w' : World) :
  _safeMove src dst mod_ w = (Ok tt, w') -> files w' !! src = None.
Proof.
  unfold _safeMove. intros Hrun.
  run_step Hrun stale w1 H1. run_step Hrun u2 w2 H2. run_step Hrun u3 w3 H3.
  run_step Hrun present w4 H4. run_step Hrun u5 w5 H5. run_step Hrun u6 w6 H6.
  run_step Hrun u7 w7 H7.
  eapply os_remove_absent; eauto.
Qed.

(** X13: when no system call fails, [_safeMove] ends well exactly when
    [src] is a file and is not the path [dst.temp]; a stale [dst.temp] or an
    existing [dst] are no obstacle, and after a move that ended well
    [dst.temp] and [src] are gone. *)
Theorem safeMove_succeeds_iff (src dst : string) (mod_ : N) (w : World) :
  (fst (_safeMove src dst mod_ w) = Ok tt
   <-> is_Some (files w !! src) /\ src <> dst +:+ ".temp")
  /\ (fst (_safeMove src dst mod_ w) = Ok tt ->
      files (snd (_safeMove src dst mod_ w)) !! (dst +:+ ".temp") = None
      /\ files (snd (_safeMove src dst mod_ w)) !! src = None).
Proof.
  assert (Hfwd : is_Some (files w !! src) -> src <> dst +:+ ".temp" ->
            exists w2, _safeMove src dst mod_ w = (Ok tt, w2)
              /\ files w2 !! (dst +:+ ".temp") = None).
  { intros [f Hsrc] Hne. rewrite safeMove_halves, bind_run.
    destruct (safeMove_copy_succeeds src dst w f Hsrc Hne) as (w1 & Hcopy).
    rewrite Hcopy. apply safeMove_copy_ok in Hcopy as (_ & f' & _ & Hsrc1 & Htmp).
    exact (safeMove_publish_succeeds src dst mod_ w1 _ _ Htmp Hsrc1 Hne). }
  assert (Hbwd : fst (_safeMove src dst mod_ w) = Ok tt ->
            is_Some (files w !! src) /\ src <> dst +:+ ".temp").
  { rewrite safeMove_halves, bind_run.
    destruct (safeMove_copy src dst w) as [[[] | e] w1] eqn:Hcopy; [| discriminate].
    intros _. apply safeMove_copy_ok in Hcopy as (Hne & f & Hsrc & _).
    split; [exists f; exact Hsrc | exact Hne]. }
  split; [split |].
  - exact Hbwd.
  - intros [Hs Hne]. destruct (Hfwd Hs Hne) as (w2 & -> & _). reflexivity.
  - intros Hok. destruct (Hbwd Hok) as [Hs Hne].
    destruct (Hfwd Hs Hne) as (w2 & Hrun & Htmp). rewrite Hrun. simpl.
    split; [exact Htmp |]. eapply safeMove_ok_src_gone; eauto.
Qed.

(** X14: moving a file onto itself destroys it: with [src] and [dst] the
    same existing file and no system call failing, [_safeMove] ends well
    and the file is gone. *)
Theorem safeMove_onto_itself (p : string) (mod_ : N) (w : World) :
  is_Some (files w !! p) ->
  fst (_safeMove p p mod_ w) = Ok tt
  /\ files (snd (_safeMove p p mod_ w)) !! p = None.
Proof.
  intros [f Hp]. pose proof (temp_ne p) as Hne.
  rewrite safeMove_halves, bind_run.
  destruct (safeMove_copy_succeeds p p w f Hp Hne) as (w1 & Hcopy).
  rewrite Hcopy. pose proof Hcopy as Hfacts.
  apply safeMove_copy_ok in Hfacts as (_ & f' & _ & Hsrc1 & Htmp).
  destruct (safeMove_publish_succeeds p p mod_ w1 _ _ Htmp Hsrc1 Hne)
    as (w2 & Hpub & _).
  rewrite Hpub. simpl. split; [reflexivity |].
  apply (safeMove_ok_src_gone p p mod_ w w2).
  now rewrite safeMove_halves, bind_run, Hcopy.
Qed.

(** X15: when [src] is not there, [_safeMove] fails with the
    [FileNotFoundError] of the copy, [dst] is as it was, and a stale
    [dst.temp] has been removed all the same. *)
Theorem safeMove_missing_source (src dst : string) (mod_ : N) (w : World) :
  files w !! src = None ->
  fst (_safeMove src dst mod_ w) = Raise (FileNotFoundError src)
  /\ files (snd (_safeMove src dst mod_ w)) !! dst = files w !! dst
  /\ files (snd (_safeMove src dst mod_ w)) !! (dst +:+ ".temp") = None.
Proof.
  intros Hsrc. pose proof (temp_ne dst) as Hdt.
  rewrite safeMove_halves, bind_run.
  assert (Hcopy : forall w0, files w0 !! src = None ->
            shutil_copy src (dst +:+ ".temp") w0 = (Raise (FileNotFoundError src), tick w0)).
  { intros w0 Hs. unfold shutil_copy. simpl. now rewrite Hs. }
  unfold safeMove_copy. rewrite bind_run. simpl.
  destruct (bool_decide_reflect (is_Some (files w !! (dst +:+ ".temp"))))
    as [[ft Ht] | Hnone].
  - rewrite bind_run, (os_remove_present _ _ _ Ht). rewrite Hcopy.
    + simpl. split; [reflexivity |]. split;
        [now rewrite lookup_delete_ne | apply lookup_delete_eq].
    + simpl. destruct (decide (dst +:+ ".temp" = src)) as [<- | Hn];
        [apply lookup_delete_eq | now rewrite lookup_delete_ne].
  - rewrite bind_run. simpl. rewrite (Hcopy w Hsrc). simpl.
    split; [reflexivity |]. split; [reflexivity |].
    destruct (files w !! (dst +:+ ".temp")) eqn:Ht; [| reflexivity].
    exfalso. apply Hnone. now eexists.
Qed.

End SafeMoveEdges.

Lemma safeMove_succeeds_iff_witness :
  @fault_free env_fine
  /\ (fst (@_safeMove env_fine "tmp/x.tmp.tiff" "out/x.tiff" 420 (world_of fs_old_new)) = Ok tt
      <-> is_Some (files (world_of fs_old_new) !! "tmp/x.tmp.tiff")
          /\ "tmp/x.tmp.tiff" <> "out/x.tiff" +:+ ".temp")
  /\ (fst (@_safeMove env_fine "tmp/x.tmp.tiff" "out/x.tiff" 420 (world_of fs_old_new)) = Ok tt ->
      files (snd (@_safeMove env_fine "tmp/x.tmp.tiff" "out/x.tiff" 420 (world_of fs_old_new)))
        !! ("out/x.tiff" +:+ ".temp") = None
      /\ files (snd (@_safeMove env_fine "tmp/x.tmp.tiff" "out/x.tiff" 420 (world_of fs_old_new)))
        !! "tmp/x.tmp.tiff" = None).
Proof.
  split; [exact fault_free_fine |].
  exact (@safeMove_succeeds_iff env_fine fault_free_fine "tmp/x.tmp.tiff" "out/x.tiff"
           420%N (world_of fs_old_new)).
Defined.

Lemma safeMove_onto_itself_witness :
  (@fault_free env_fine /\ is_Some (files (world_of fs_old_new) !! "out/x.tiff"))
  /\ fst (@_safeMove env_fine "out/x.tiff" "out/x.tiff" 420 (world_of fs_old_new)) = Ok tt
  /\ files (snd (@_safeMove env_fine "out/x.tiff" "out/x.tiff" 420 (world_of fs_old_new)))
       !! "out/x.tiff" = None.
Proof.
  assert (Hp : is_Some (files (world_of fs_old_new) !! "out/x.tiff"))
    by (exists (mkfile "OLD RASTER" 420); vm_compute; reflexivity).
  split; [split; [exact fault_free_fine | exact Hp] |].
  exact (@safeMove_onto_itself env_fine fault_free_fine "out/x.tiff" 420%N
           (world_of fs_old_new) Hp).
Defined.

Lemma safeMove_missing_source_witness :
  (@fault_free env_fine /\ files (world_of fs_old_new) !! "tmp/none.tiff" = None)
  /\ fst (@_safeMove env_fine "tmp/none.tiff" "out/x.tiff" 420 (world_of fs_old_new))
     = Raise (FileNotFoundError "tmp/none.tiff")
  /\ files (snd (@_safeMove env_fine "tmp/none.tiff" "out/x.tiff" 420 (world_of fs_old_new)))
       !! "out/x.tiff" = files (world_of fs_old_new) !! "out/x.tiff"
  /\ files (snd (@_safeMove env_fine "tmp/none.tiff" "out/x.tiff" 420 (world_of fs_old_new)))
       !! ("out/x.tiff" +:+ ".temp") = None.
Proof.
  assert (Hp : files (world_of fs_old_new) !! "tmp/none.tiff" = None)
    by (vm_compute; reflexivity).
  split; [split; [exact fault_free_fine | exact Hp] |].
  exact (@safeMove_missing_source env_fine fault_free_fine "tmp/none.tiff" "out/x.tiff"
           420%N (world_of fs_old_new) Hp).
Defined.

(** ** [_safeMakeDirs]: retries and their limits *)

Section MakeDirs.
Context `{E : Env}.

(** An ancestor of a path is a proper prefix of it. *)
Lemma ancestors_from_length (s : string) :
  forall acc x, x ∈ ancestors_from acc s ->
  String.length acc <= String.length x < String.length acc + String.length s.
Proof.
  induction s as [|c s IH]; intros acc x Hx; simpl in Hx.
  - now apply elem_of_nil in Hx.
  - assert (Hrest : x ∈ ancestors_from (acc +:+ String c EmptyString) s ->
              String.length acc <= String.length x
              < String.length acc + String.length (String c s)).
    { intros H. apply IH in H. rewrite length_app_s in H. simpl in *. lia. }
    destruct (Ascii.eqb c OsPath.sep && negb (String.eqb acc EmptyString)
              && negb (OsPath.endswith_sep acc)); [| now apply Hrest].
    apply elem_of_cons in Hx as [-> | Hx]; [simpl; lia | now apply Hrest].
Qed.

Lemma ancestors_proper (d : string) : d ∉ ancestors d.
Proof.
  intros H. apply ancestors_from_length in H. simpl in H. lia.
Qed.

Lemma climb_sub (there : string -> bool) (l : list string) (x : string) :
  x ∈ climb there l -> x ∈ l.
Proof.
  induction l as [|a l IH]; simpl; [auto |].
  destruct (there a); [intros H; now apply elem_of_nil in H |].
  intros H. apply elem_of_cons in H as [-> | H]; [now left | right; auto].
Qed.

Lemma missing_parents_sub (d : string) (w : World) (x : string) :
  x ∈ missing_parents d w -> x ∈ ancestors d.
Proof.
  unfold missing_parents. intros H.
  apply list_elem_of_In in H. apply <- in_rev in H.
  apply list_elem_of_In, climb_sub, list_elem_of_In in H. apply <- in_rev in H.
  now apply list_elem_of_In.
Qed.

Lemma take_sub {A} (k : nat) (l : list A) (x : A) : x ∈ take k l -> x ∈ l.
Proof. intros H. apply elem_of_take in H as (i & H & _). eapply list_elem_of_lookup_2, H. Qed.

(** A call of [os.makedirs] that fails has not made the directory. *)
Lemma makedirs_failed_dirs (d : string) (w : World) (k : nat) :
  d ∈ dirs (add_dirs (take k (missing_parents d w)) (tick w)) <-> d ∈ dirs w.
Proof.
  rewrite add_dirs_dirs. split; [| now right].
  intros [H | H]; [| exact H].
  apply take_sub, missing_parents_sub in H. now apply ancestors_proper in H.
Qed.

(** One turn of the loop of [_safeMakeDirs]. *)
Lemma safeMakeDirs_retry_run (n : nat) (d : string) (m : N) (w : World) :
  _safeMakeDirs_retry n d m w =
  match fault (calls w) with
  | None => (Ok tt, add_dirs (missing_parents d w ++ [d]) (tick w))
  | Some k =>
      let w1 := add_dirs (take k (missing_parents d w)) (tick w) in
      match n with
      | O => (Raise (OSError (calls w)), w1)
      | S n' =>
          if bool_decide (d ∈ dirs w) then (Ok tt, w1)
          else _safeMakeDirs_retry n' d m w1
      end
  end.
Proof.
  destruct n as [|n]; simpl; unfold os_makedirs;
    destruct (fault (calls w)) as [k |]; try reflexivity.
  rewrite bind_run. simpl. rewrite bind_run. simpl.
  rewrite (bool_decide_ext _ _ (makedirs_failed_dirs d w k)).
  now destruct (bool_decide (d ∈ dirs w)).
Qed.

Lemma safeMakeDirs_retry_effect (n : nat) (d : string) (m : N) :
  forall (w w' : World) (r : result unit),
  _safeMakeDirs_retry n d m w = (r, w') ->
  files w' = files w /\ trace w' = trace w /\ cmds w' = cmds w
  /\ calls w < calls w' <= calls w + S n
  /\ dirs w ⊆ dirs w'
  /\ (forall x, x ∈ dirs w' -> x ∈ dirs w \/ x = d \/ x ∈ ancestors d)
  /\ (r = Ok tt -> d ∈ dirs w').
Proof.
  assert (Hmade : forall (w : World) l,
            (forall x, x ∈ l -> x = d \/ x ∈ ancestors d) ->
            let w1 := add_dirs l (tick w) in
            files w1 = files w /\ trace w1 = trace w /\ cmds w1 = cmds w
            /\ calls w1 = S (calls w)
            /\ dirs w ⊆ dirs w1
            /\ (forall x, x ∈ dirs w1 -> x ∈ dirs w \/ x = d \/ x ∈ ancestors d)).
  { intros w l Hl w1. subst w1.
    rewrite add_dirs_files, add_dirs_trace, add_dirs_cmds, add_dirs_calls.
    repeat split; auto.
    - intros x Hx. apply add_dirs_dirs. now right.
    - intros x Hx. apply add_dirs_dirs in Hx as [Hx | Hx]; [right; auto | now left]. }
  assert (Hfail : forall (w : World) k x,
            x ∈ take k (missing_parents d w) -> x = d \/ x ∈ ancestors d).
  { intros w k x Hx. right. eapply missing_parents_sub, take_sub, Hx. }
  assert (Hsucc : forall (w : World) x,
            x ∈ missing_parents d w ++ [d] -> x = d \/ x ∈ ancestors d).
  { intros w x Hx. apply elem_of_app in Hx as [Hx | Hx].
    - right. eapply missing_parents_sub, Hx.
    - left. now apply list_elem_of_singleton in Hx. }
  assert (Hhere : forall w0 : World,
            d ∈ dirs (add_dirs (missing_parents d w0 ++ [d]) (tick w0))).
  { intros w0. apply add_dirs_dirs. left. apply elem_of_app. right. now left. }
  induction n as [|n IH]; intros w w' r; rewrite safeMakeDirs_retry_run.
  - destruct (fault (calls w)) as [k |]; intros [= <- <-].
    + destruct (Hmade w _ (Hfail w k)) as (Hf & Ht & Hc & Hn & Hd & Hd').
      repeat split; auto; try lia; try discriminate.
    + destruct (Hmade w _ (Hsucc w)) as (Hf & Ht & Hc & Hn & Hd & Hd').
      repeat split; auto; try lia.
  - destruct (fault (calls w)) as [k |].
    + destruct (Hmade w _ (Hfail w k)) as (Hf & Ht & Hc & Hn & Hd & Hd').
      cbv zeta. destruct (bool_decide_reflect (d ∈ dirs w)) as [Hin | Hin].
      * intros [= <- <-]. repeat split; auto; try lia.
      * intros Hrun. apply IH in Hrun as (Hf1 & Ht1 & Hc1 & Hn1 & Hd1 & Hd1' & Hok).
        rewrite Hf1, Ht1, Hc1. repeat split; auto; try lia.
        -- now transitivity (dirs (add_dirs (take k (missing_parents d w)) (tick w))).
        -- intros x Hx. apply Hd1' in Hx as [Hx | Hx]; auto.
    + intros [= <- <-].
      destruct (Hmade w _ (Hsucc w)) as (Hf & Ht & Hc & Hn & Hd & Hd').
      repeat split; auto; try lia.
Qed.

Lemma safeMakeDirs_retry_fails (n : nat) (d : string) (m : N) :
  forall w : World,
  is_ok (fst (_safeMakeDirs_retry n d m w)) = false
  <-> (forall i, i <= n -> is_Some (fault (calls w + i)))
      /\ (0 < n -> d ∉ dirs w).
Proof.
  induction n as [|n IH]; intros w; rewrite safeMakeDirs_retry_run.
  - destruct (fault (calls w)) as [c |] eqn:Hf; simpl.
    + split; [intros _ | reflexivity]. split; [| lia].
      intros i Hi. replace i with 0 by lia. rewrite Nat.add_0_r, Hf. eauto.
    + split; [discriminate |]. intros [Hall _].
      specialize (Hall 0 (le_n 0)). rewrite Nat.add_0_r, Hf in Hall.
      now destruct Hall.
  - destruct (fault (calls w)) as [c |] eqn:Hf; cbv zeta.
    + destruct (bool_decide_reflect (d ∈ dirs w)) as [Hd | Hd]; simpl.
      * split; [discriminate |]. intros [_ Hnd]. exfalso. apply Hnd; [lia | exact Hd].
      * rewrite IH. rewrite add_dirs_calls. simpl. split.
        -- intros [Hall _]. split; [| now intros _].
           intros [|i] Hi; [rewrite Nat.add_0_r, Hf; eauto |].
           assert (Hi' : i <= n) by lia. specialize (Hall i Hi'). simpl in Hall.
           replace (calls w + S i) with (S (calls w + i)) by lia. exact Hall.
        -- intros [Hall _]. split.
           ++ intros i Hi. simpl.
              replace (S (calls w + i)) with (calls w + S i) by lia.
              apply Hall. lia.
           ++ intros _. now rewrite makedirs_failed_dirs.
    + simpl. split; [discriminate |]. intros [Hall _].
      specialize (Hall 0 (Nat.le_0_l _)). rewrite Nat.add_0_r, Hf in Hall.
      now destruct Hall.
Qed.

Lemma safeMakeDirs_retry_error (n : nat) (d : string) (m : N) :
  forall (w : World) (e : exn),
  fst (_safeMakeDirs_retry n d m w) = Raise e -> e = OSError (calls w + n).
Proof.
  induction n as [|n IH]; intros w e; rewrite safeMakeDirs_retry_run.
  - destruct (fault (calls w)); simpl; [| discriminate].
    intros [= <-]. now rewrite Nat.add_0_r.
  - destruct (fault (calls w)); cbv zeta; [| discriminate].
    destruct (bool_decide (d ∈ dirs w)); simpl; [discriminate |].
    intros He. apply IH in He. rewrite add_dirs_calls in He. simpl in He.
    subst e. f_equal. lia.
Qed.

(** X16: [_safeMakeDirs] with at least one attempt fails exactly when each
    of its [attempts] calls of [os.makedirs] fails and, if more than one
    attempt is allowed, the directory is not there; the exception is that of
    the last attempt.  With a single attempt a failure is raised even if
    the directory exists. *)
Theorem safeMakeDirs_fails_iff (d : string) (m : N) (attempts : nat) (w : World) :
  0 < attempts ->
  (is_ok (fst (_safeMakeDirs d m attempts w)) = false
   <-> (forall i, i < attempts -> is_Some (fault (calls w + i)))
       /\ (1 < attempts -> d ∉ dirs w))
  /\ (forall e, fst (_safeMakeDirs d m attempts w) = Raise e ->
      e = OSError (calls w + (attempts - 1))).
Proof.
  intros Hpos. unfold _safeMakeDirs. split.
  - rewrite safeMakeDirs_retry_fails. split; intros [Hall Hd]; split.
    + intros i Hi. apply Hall. lia.
    + intros H1. apply Hd. lia.
    + intros i Hi. apply Hall. lia.
    + intros H1. apply Hd. lia.
  - intros e. apply safeMakeDirs_retry_error.
Qed.

(** X17: whatever its outcome, [_safeMakeDirs] with at least one attempt
    makes between one and [attempts] system calls, leaves every file and the
    list of commands run as they were, removes no directory, and makes no
    directory but [directory] and ancestors of it (the parents
    [os.makedirs] creates on the way, also in a call that fails); when it
    returns, [directory] exists. *)
Theorem safeMakeDirs_effect (d : string) (m : N) (attempts : nat) (w : World) :
  0 < attempts ->
  let run := _safeMakeDirs d m attempts w in
  files (snd run) = files w
  /\ cmds (snd run) = cmds w
  /\ calls w < calls (snd run) <= calls w + attempts
  /\ dirs w ⊆ dirs (snd run)
  /\ (forall x, x ∈ dirs (snd run) -> x ∈ dirs w \/ x = d \/ x ∈ ancestors d)
  /\ (fst run = Ok tt -> d ∈ dirs (snd run)).
Proof.
  intros Hpos run. subst run. unfold _safeMakeDirs.
  destruct (_safeMakeDirs_retry (attempts - 1) d m w) as [r w'] eqn:Hrun.
  apply safeMakeDirs_retry_effect in Hrun as (Hf & _ & Hc & Hn & Hd & Hd' & Hok).
  simpl. repeat split; auto; lia.
Qed.

Lemma ensureFolder_missing (d : string) (w : World) :
  d ∉ dirs w -> ensureFolder d w = _safeMakeDirs d 509 3 w.
Proof.
  intros Hd. unfold ensureFolder. rewrite bind_run. unfold os_path_isdir.
  cbv beta iota. now rewrite (bool_decide_eq_false_2 _ Hd).
Qed.

(** X18: a missing output folder that cannot be created stops the job
    before anything else: three failing calls of [os.makedirs] make
    [cogProcessor] raise the error of the third, with no command run and no
    file changed. *)
Theorem folder_failure_stops_job (cfg : CogCfg) (src : Dataset) (w : World) :
  outFolder cfg ∉ dirs w ->
  (forall i, i < 3 -> is_Some (fault (calls w + i))) ->
  fst (cogProcessor cfg src w) = Raise (OSError (calls w + 2))
  /\ files (snd (cogProcessor cfg src w)) = files w
  /\ cmds (snd (cogProcessor cfg src w)) = cmds w.
Proof.
  intros Hd Hall. rewrite cogProcessor_run.
  destruct (prelude cfg w) as [r w0] eqn:Hpre.
  pose proof (prelude_nothing _ _ _ _ Hpre) as [Hf Hc].
  assert (Hr : r = Raise (OSError (calls w + 2))).
  { unfold prelude in Hpre.
    rewrite bind_run, (ensureFolder_missing _ _ Hd) in Hpre.
    change (_safeMakeDirs (outFolder cfg) 509 3 w)
      with (_safeMakeDirs_retry 2 (outFolder cfg) 509 w) in Hpre.
    assert (Hfail : is_ok (fst (_safeMakeDirs_retry 2 (outFolder cfg) 509 w)) = false).
    { apply safeMakeDirs_retry_fails.
      split; [intros i Hi; apply Hall; lia | now intros _]. }
    pose proof (safeMakeDirs_retry_error 2 (outFolder cfg) 509 w) as Herr.
    destruct (_safeMakeDirs_retry 2 (outFolder cfg) 509 w) as [[[] | e] w1];
      [discriminate |].
    injection Hpre as <- <-. f_equal. now apply Herr. }
  subst r. auto.
Qed.

End MakeDirs.

Lemma safeMakeDirs_fails_iff_witness :
  0 < 3
  /\ ((is_ok (fst (@_safeMakeDirs env_all_fail "/data/cog" 509 3 (world_of ∅))) = false
       <-> (forall i, i < 3 ->
            is_Some (fault (Env := env_all_fail) (calls (world_of ∅) + i)))
           /\ (1 < 3 -> "/data/cog" ∉ dirs (world_of ∅)))
      /\ (forall e,
          fst (@_safeMakeDirs env_all_fail "/data/cog" 509 3 (world_of ∅)) = Raise e ->
          e = OSError (calls (world_of ∅) + (3 - 1)))).
Proof.
  split; [lia |].
  exact (@safeMakeDirs_fails_iff env_all_fail "/data/cog" 509%N 3 (world_of ∅)
           (Nat.lt_0_succ 2)).
Defined.

Lemma safeMakeDirs_effect_witness :
  0 < 3
  /\ (let run := @_safeMakeDirs env_fine "/data/cog" 509 3 (world_of ∅) in
      files (snd run) = files (world_of ∅)
      /\ cmds (snd run) = cmds (world_of ∅)
      /\ calls (world_of ∅) < calls (snd run) <= calls (world_of ∅) + 3
      /\ dirs (world_of ∅) ⊆ dirs (snd run)
      /\ (forall x, x ∈ dirs (snd run) ->
          x ∈ dirs (world_of ∅) \/ x = "/data/cog" \/ x ∈ ancestors "/data/cog")
      /\ (fst run = Ok tt -> "/data/cog" ∈ dirs (snd run))).
Proof.
  split; [lia |].
  exact (@safeMakeDirs_effect env_fine "/data/cog" 509%N 3 (world_of ∅)
           (Nat.lt_0_succ 2)).
Defined.

Lemma folder_failure_stops_job_witness :
  (outFolder (cfg_ndvi [band_ndvi]) ∉ dirs (world_of ∅)
   /\ forall i, i < 3 -> is_Some (fault (Env := env_all_fail) (calls (world_of ∅) + i)))
  /\ fst (@cogProcessor env_all_fail (cfg_ndvi [band_ndvi]) src_ndvi (world_of ∅))
     = Raise (OSError (calls (world_of ∅) + 2))
  /\ files (snd (@cogProcessor env_all_fail (cfg_ndvi [band_ndvi]) src_ndvi (world_of ∅)))
     = files (world_of ∅)
  /\ cmds (snd (@cogProcessor env_all_fail (cfg_ndvi [band_ndvi]) src_ndvi (world_of ∅)))
     = cmds (world_of ∅).
Proof.
  assert (Hd : outFolder (cfg_ndvi [band_ndvi]) ∉ dirs (world_of ∅))
    by apply not_elem_of_empty.
  assert (Hall : forall i, i < 3 ->
            is_Some (fault (Env := env_all_fail) (calls (world_of ∅) + i)))
    by (intros i _; eexists; reflexivity).
  split; [split; [exact Hd | exact Hall] |].
  exact (@folder_failure_stops_job env_all_fail (cfg_ndvi [band_ndvi]) src_ndvi
           (world_of ∅) Hd Hall).
Defined.

(** ** Names of the outputs of one input file *)

Lemma app_inj_r_s (s x y : string) : x +:+ s = y +:+ s -> x = y.
Proof.
  revert y. induction x as [|c x IH]; intros [|c' y] H.
  - reflexivity.
  - apply (f_equal String.length) in H. simpl in H. rewrite length_app_s in H. lia.
  - apply (f_equal String.length) in H. simpl in H. rewrite length_app_s in H. lia.
  - simpl in H. injection H as -> H. f_equal. now apply IH.
Qed.

Lemma pack_around_band (d : ProdDict) (param : string) :
  _packCOGProductName (set_parameter d param)
  = Ok ((project d +:+ "_" +:+ product d +:+ tag_part (subProduct d) +:+ "-")
        +:+ (param
             +:+ (tag_part (timeIndex d) +:+ "_" +:+ productDate d +:+ "_" +:+ roi d
                  +:+ "_" +:+ sensor d +:+ "_" +:+ version d +:+ ".tiff"))).
Proof. rewrite pack_formula. f_equal. now str_norm. Qed.

Lemma createCogFileName_written (name inBand : string) (outBand : option string)
  (h : bool) :
  createCogFileName name inBand outBand h
  = createCogFileName name (written_band inBand outBand) None h.
Proof.
  unfold createCogFileName, written_band.
  destruct (_unpackNetCDFProductName name h) as [d | e]; [| reflexivity].
  cbn [mbind result_bind]. now destruct (Py.truthy outBand).
Qed.

(** X19: two bands of one input file get the same output name exactly when
    they are written under the same band name ([outBand] if set and not
    empty, else [inBand]): distinct band names never collide. *)
Theorem band_names_injective (name : string) (h : bool) (in1 in2 : string)
  (o1 o2 : option string) (f1 f2 : string) :
  createCogFileName name in1 o1 h = Ok f1 ->
  createCogFileName name in2 o2 h = Ok f2 ->
  (f1 = f2 <-> written_band in1 o1 = written_band in2 o2).
Proof.
  rewrite (createCogFileName_written name in1), (createCogFileName_written name in2).
  generalize (written_band in1 o1) (written_band in2 o2). intros b1 b2.
  unfold createCogFileName.
  destruct (_unpackNetCDFProductName name h) as [d | e]; [| discriminate].
  cbn [mbind result_bind Py.truthy]. rewrite !pack_around_band.
  intros [= <-] [= <-]. split.
  - intros H. apply (inj (String.append _)) in H.
    now apply app_inj_r_s in H.
  - now intros ->.
Qed.


Lemma band_names_injective_witness :
  (createCogFileName "c_gls_NDVI300_202404010000_GLOBE_OLCI_V2.0.1.nc" "NDVI" None false
   = Ok "c_gls_NDVI300-NDVI_202404010000_GLOBE_OLCI_V2.0.1.tiff"
   /\ createCogFileName "c_gls_NDVI300_202404010000_GLOBE_OLCI_V2.0.1.nc" "NDVI_unc"
        (Some "NDVI") false
      = Ok "c_gls_NDVI300-NDVI_202404010000_GLOBE_OLCI_V2.0.1.tiff")
  /\ ("c_gls_NDVI300-NDVI_202404010000_GLOBE_OLCI_V2.0.1.tiff"
      = "c_gls_NDVI300-NDVI_202404010000_GLOBE_OLCI_V2.0.1.tiff"
      <-> written_band "NDVI" None = written_band "NDVI_unc" (Some "NDVI")).
Proof.
  assert (H1 : createCogFileName "c_gls_NDVI300_202404010000_GLOBE_OLCI_V2.0.1.nc"
                 "NDVI" None false
               = Ok "c_gls_NDVI300-NDVI_202404010000_GLOBE_OLCI_V2.0.1.tiff")
    by (vm_compute; reflexivity).
  assert (H2 : createCogFileName "c_gls_NDVI300_202404010000_GLOBE_OLCI_V2.0.1.nc"
                 "NDVI_unc" (Some "NDVI") false
               = Ok "c_gls_NDVI300-NDVI_202404010000_GLOBE_OLCI_V2.0.1.tiff")
    by (vm_compute; reflexivity).
  split; [split; [exact H1 | exact H2] |].
  exact (band_names_injective "c_gls_NDVI300_202404010000_GLOBE_OLCI_V2.0.1.nc" false
           "NDVI" "NDVI_unc" None (Some "NDVI")
           "c_gls_NDVI300-NDVI_202404010000_GLOBE_OLCI_V2.0.1.tiff"
           "c_gls_NDVI300-NDVI_202404010000_GLOBE_OLCI_V2.0.1.tiff" H1 H2).
Defined.
